(** * Benchmark statistics charts: aggregation and chart selection

    A shallow embedding of the aggregation and chart-selection logic of
    [examples/graph_stats.py] (the batch script) and
    [examples/igraph_stats.py] (the interactive application).

    Numbers are the values of a pandas float column.  Finite values are exact
    rationals; the special values of a float column (the two infinities and
    the missing value NaN) are kept, because the code divides by a column
    that may hold zeros and filters on missing values.  Rounding error of
    binary floating point is not modelled. *)

From Stdlib Require Import ZArith QArith Qround Lia Lqa List Sorted Permutation Bool Ascii.
From stdpp Require Import base gmap strings list sorting.
Import ListNotations.

Local Open Scope string_scope.
Local Open Scope list_scope.

(** ** Numbers *)

Inductive f64 : Type :=
| Fin (q : Q)
| PInf
| NInf
| NaN.

Coercion Fin : Q >-> f64.

Module F64.

Definition of_Z (z : Z) : f64 := Fin (inject_Z z).
Definition of_nat (n : nat) : f64 := Fin (inject_Z (Z.of_nat n)).

Definition isnan (x : f64) : bool :=
  match x with NaN => true | _ => false end.

Definition Qlt_bool (a b : Q) : bool := negb (Qle_bool b a).

(** [x < y]; false as soon as one side is NaN. *)
Definition lt (x y : f64) : bool :=
  match x, y with
  | NaN, _ | _, NaN => false
  | Fin a, Fin b => Qlt_bool a b
  | NInf, NInf => false
  | NInf, _ => true
  | _, NInf => false
  | PInf, _ => false
  | Fin _, PInf => true
  end.

Definition gt (x y : f64) : bool := lt y x.

(** [x == y]; false as soon as one side is NaN. *)
Definition eqb (x y : f64) : bool :=
  match x, y with
  | Fin a, Fin b => Qeq_bool a b
  | PInf, PInf | NInf, NInf => true
  | _, _ => false
  end.

Definition le (x y : f64) : bool := lt x y || eqb x y.
Definition ge (x y : f64) : bool := le y x.

Definition neg (x : f64) : f64 :=
  match x with
  | Fin a => Fin (Qred (- a))
  | PInf => NInf
  | NInf => PInf
  | NaN => NaN
  end.

(** Results of arithmetic are kept in lowest terms, so that equal numbers
    are equal terms. *)
Definition add (x y : f64) : f64 :=
  match x, y with
  | NaN, _ | _, NaN => NaN
  | Fin a, Fin b => Fin (Qred (a + b))
  | PInf, NInf | NInf, PInf => NaN
  | PInf, _ | _, PInf => PInf
  | NInf, _ | _, NInf => NInf
  end.

Definition sub (x y : f64) : f64 := add x (neg y).

Definition mul (x y : f64) : f64 :=
  match x, y with
  | NaN, _ | _, NaN => NaN
  | Fin a, Fin b => Fin (Qred (a * b))
  | Fin a, PInf | PInf, Fin a =>
      if Qeq_bool a 0 then NaN else if Qlt_bool 0 a then PInf else NInf
  | Fin a, NInf | NInf, Fin a =>
      if Qeq_bool a 0 then NaN else if Qlt_bool 0 a then NInf else PInf
  | PInf, PInf | NInf, NInf => PInf
  | PInf, NInf | NInf, PInf => NInf
  end.

(** Division of two float columns never raises: a zero divisor gives an
    infinity, or NaN for [0 / 0]. *)
Definition div (x y : f64) : f64 :=
  match x, y with
  | NaN, _ | _, NaN => NaN
  | Fin a, Fin b =>
      if Qeq_bool b 0
      then (if Qeq_bool a 0 then NaN else if Qlt_bool 0 a then PInf else NInf)
      else Fin (Qred (a / b))
  | Fin _, (PInf | NInf) => Fin 0
  | PInf, Fin b => if Qle_bool 0 b then PInf else NInf
  | NInf, Fin b => if Qle_bool 0 b then NInf else PInf
  | (PInf | NInf), (PInf | NInf) => NaN
  end.

(** [numpy.rint]: the nearest integer, halves to the even neighbour. *)
Definition rint (q : Q) : Z :=
  let f := Qfloor q in
  let r := (q - inject_Z f)%Q in
  if Qlt_bool r (1 # 2) then f
  else if Qlt_bool (1 # 2) r then (f + 1)%Z
  else if Z.even f then f else (f + 1)%Z.

(** [numpy.round(x, 1)] on a rational: scale by ten, [rint], scale back. *)
Definition Qround1 (q : Q) : Q := Qred (inject_Z (rint (q * 10)) / 10).

(** [ndarray.round(1)] elementwise. *)
Definition round1 (x : f64) : f64 :=
  match x with
  | Fin q => Fin (Qround1 q)
  | _ => x
  end.

End F64.

(** ** Tables

    A table read by [pandas.read_sql_query]: the column labels and the rows,
    each row a dictionary from column label to cell.  A cell is SQL NULL
    ([None]), a number, or text. *)

Inductive cell : Type :=
| VNone
| VNum (x : f64)
| VStr (s : string).

Record DataFrame : Type := mkDataFrame {
  columns : list string;
  rows : list (gmap string cell)
}.

(** [pd.DataFrame()] *)
Definition empty_frame : DataFrame := {| columns := []; rows := [] |}.

(** [df.empty]: no column or no row. *)
Definition df_empty (df : DataFrame) : bool :=
  (length (columns df) =? 0)%nat || (length (rows df) =? 0)%nat.

(** [c in df.columns] *)
Definition has_col (df : DataFrame) (c : string) : bool :=
  existsb (String.eqb c) (columns df).

Definition get_cell (r : gmap string cell) (c : string) : cell :=
  default VNone (r !! c).

(** [df[c]] as the series of its cells. *)
Definition col (df : DataFrame) (c : string) : list cell :=
  map (fun r => get_cell r c) (rows df).

(** Writes a series into the rows, position by position.  pandas raises on
    a length mismatch; every caller passes a series computed from the rows
    of the same table. *)
Fixpoint assign (c : string) (rs : list (gmap string cell)) (vals : list cell)
  : list (gmap string cell) :=
  match rs, vals with
  | r :: rs', v :: vals' => <[c := v]> r :: assign c rs' vals'
  | _, _ => rs
  end.

(** [df[c] = vals]: replaces the column, or appends it as the last one. *)
Definition set_col (df : DataFrame) (c : string) (vals : list cell) : DataFrame :=
  {| columns := if has_col df c then columns df else columns df ++ [c];
     rows := assign c (rows df) vals |}.

(** Conversions between text and numbers are pandas' own; the model takes
    them as given. *)
Class PyConv : Type := {
  (** what [pd.to_numeric(..., errors='coerce')] reads from a text cell;
      NaN when the text is not a number *)
  str_to_float : string -> f64;
  (** what [astype(str)] writes for a number *)
  float_to_str : f64 -> string
}.

Section Series.
Context `{PyConv}.

(** [pd.to_numeric(series, errors='coerce')] *)
Definition to_numeric_cell (v : cell) : f64 :=
  match v with
  | VNone => NaN
  | VNum x => x
  | VStr s => str_to_float s
  end.

Definition to_numeric (series : list cell) : list f64 := map to_numeric_cell series.

(** [series.fillna(v)] on a float series *)
Definition fillna (v : f64) (series : list f64) : list f64 :=
  map (fun x => if F64.isnan x then v else x) series.

(** The values of a column that holds numbers (after an assignment of a
    numeric series). *)
Definition values (series : list cell) : list f64 :=
  map (fun v => match v with VNum x => x | _ => NaN end) series.

(** [np.where(cond, xs, y)] with a scalar [y] *)
Fixpoint np_where (cond : list bool) (xs : list f64) (y : f64) : list f64 :=
  match cond, xs with
  | b :: cond', x :: xs' => (if b then x else y) :: np_where cond' xs' y
  | _, _ => []
  end.

(** Elementwise arithmetic of two aligned series. *)
Fixpoint series_div (xs ys : list f64) : list f64 :=
  match xs, ys with
  | x :: xs', y :: ys' => F64.div x y :: series_div xs' ys'
  | _, _ => []
  end.

(** [series.min()] and [series.max()]: missing values are skipped, and the
    result is NaN when nothing is left. *)
Definition fmin (x y : f64) : f64 := if F64.lt y x then y else x.
Definition fmax (x y : f64) : f64 := if F64.lt x y then y else x.

Definition series_min (series : list f64) : f64 :=
  match List.filter (fun x => negb (F64.isnan x)) series with
  | [] => NaN
  | x :: xs => fold_left fmin xs x
  end.

Definition series_max (series : list f64) : f64 :=
  match List.filter (fun x => negb (F64.isnan x)) series with
  | [] => NaN
  | x :: xs => fold_left fmax xs x
  end.

(** *** The derived correctness percentage ([main], graph_stats.py) *)

(** [np.where(total > 0, (correct / total) * 100, 0).round(1)] *)
Definition percentage_of_counts (correct_answers total_questions : list f64) : list f64 :=
  map F64.round1
    (np_where (map (fun t => F64.gt t 0%Q) total_questions)
              (map (fun x => F64.mul x 100%Q) (series_div correct_answers total_questions))
              0%Q).

(** The block of [main] that settles [percentage_correct]: the column as
    given when the table has it, else derived from the two counts, else a
    warning and no column.  Returns the table and the lines printed. *)
Definition main_percentage_correct (df_model_stats : DataFrame) : DataFrame * list string :=
  if has_col df_model_stats "percentage_correct" then
    (set_col df_model_stats "percentage_correct"
       (map VNum (fillna 0%Q (to_numeric (col df_model_stats "percentage_correct")))), [])
  else if has_col df_model_stats "correct_answers" && has_col df_model_stats "total_questions" then
    let df1 := set_col df_model_stats "correct_answers"
                 (map VNum (fillna 0%Q (to_numeric (col df_model_stats "correct_answers")))) in
    let df2 := set_col df1 "total_questions"
                 (map VNum (fillna 0%Q (to_numeric (col df1 "total_questions")))) in
    (set_col df2 "percentage_correct"
       (map VNum (percentage_of_counts (values (col df2 "correct_answers"))
                                       (values (col df2 "total_questions")))), [])
  else
    (df_model_stats,
     ["Warning: Cannot calculate 'percentage_correct' for model_stats. Required columns missing."]).

(** *** The axis-scale decision ([apply_log_scale_if_needed]) *)

Definition LOG_SCALE_THRESHOLD_RATIO : f64 := 20%Q.

(** [numeric_series[numeric_series > 0]] *)
Definition positive_data (series_data : list cell) : list f64 :=
  List.filter (fun x => F64.gt x 0%Q) (to_numeric series_data).

(** The boolean the function returns; switching the axis to a logarithmic
    scale and the printed line happen exactly when it is [true]. *)
Definition apply_log_scale_if_needed (series_data : list cell) : bool :=
  let positive_data := positive_data series_data in
  if negb (length positive_data =? 0)%nat then
    let min_val := series_min positive_data in
    let max_val := series_max positive_data in
    F64.gt max_val 0%Q && F64.gt min_val 0%Q
      && F64.gt (F64.div max_val min_val) LOG_SCALE_THRESHOLD_RATIO
  else false.

End Series.

(** What the claim about the scale decision speaks of: the extremes of the
    strictly positive values, and their ratio against the threshold. *)
Definition ratio_exceeds (pos : list f64) (threshold : f64) : Prop :=
  exists mn mx,
    In mn pos /\ In mx pos
    /\ (forall x, In x pos -> F64.le mn x = true /\ F64.le x mx = true)
    /\ F64.gt (F64.div mx mn) threshold = true.

(** ** Sorting

    [DataFrame.sort_values(by, ascending=False)] with one key column goes
    through [pandas.core.sorting.nargsort], which hands the non-missing keys
    to [numpy.argsort] with the default [kind='quicksort'].  numpy documents
    that kind as not stable, so the model takes [argsort] by its contract:
    it returns a permutation of the positions along which the keys ascend.
    Which of two equal keys comes first is left open. *)

Definition no_nan (l : list f64) : Prop := Forall (fun x => F64.isnan x = false) l.

Definition key_le (keys : list f64) (i j : nat) : Prop :=
  F64.le (nth i keys NaN) (nth j keys NaN) = true.

Class ArgSort : Type := {
  argsort : list f64 -> list nat;
  argsort_perm : forall keys, Permutation (argsort keys) (seq 0 (length keys));
  argsort_sorted : forall keys, no_nan keys -> Sorted (key_le keys) (argsort keys)
}.

(** A sort is stable when equal keys keep the order of their positions. *)
Definition key_lt_stable (keys : list f64) (i j : nat) : Prop :=
  F64.lt (nth i keys NaN) (nth j keys NaN) = true
  \/ (F64.eqb (nth i keys NaN) (nth j keys NaN) = true /\ (i < j)%nat).

Definition Stable (S : ArgSort) : Prop :=
  forall keys, no_nan keys -> StronglySorted (key_lt_stable keys) (@argsort S keys).

(** [values[indexer]]: positional take.  (pandas raises on a position out
    of range; an indexer that [argsort] built has none.) *)
Fixpoint take_rows {A : Type} (l : list A) (indexer : list nat) : list A :=
  match indexer with
  | [] => []
  | i :: rest =>
      match l !! i with
      | Some x => x :: take_rows l rest
      | None => take_rows l rest
      end
  end.

(** [df.head(n)] for a count [n] *)
Definition head {A : Type} (n : nat) (l : list A) : list A := firstn n l.

Section Sorting.
Context `{ArgSort}.

(** [nargsort(items, ascending=False, na_position='last')]: the non-missing
    keys are reversed, sorted ascending, and the result is reversed again;
    the positions of the missing keys follow. *)
Definition nargsort_desc (items : list f64) : list nat :=
  let idx := seq 0 (length items) in
  let mask := map F64.isnan items in
  let non_nans := List.filter (fun x => negb (F64.isnan x)) items in
  let non_nan_idx := List.filter (fun i => negb (nth i mask false)) idx in
  let nan_idx := List.filter (fun i => nth i mask false) idx in
  let non_nans := rev non_nans in
  let non_nan_idx := rev non_nan_idx in
  let indexer := map (fun k => nth k non_nan_idx 0%nat) (argsort non_nans) in
  let indexer := rev indexer in
  indexer ++ nan_idx.

(** [sort_values(key, ascending=False)] on a list of rows *)
Definition sort_desc {A : Type} (key : A -> f64) (l : list A) : list A :=
  take_rows l (nargsort_desc (map key l)).

End Sorting.

(** The positions of the first [n] rows of the ranking. *)
Definition ranking_indexer `{ArgSort} (n : nat) (keys : list f64) : list nat :=
  head n (nargsort_desc keys).

(** Rows with equal keys keep the order they had in the input: whenever
    the row at input position [i] is ranked before the row at input
    position [j] and their keys are equal, [i < j]. *)
Definition ties_keep_input_order (keys : list f64) (indexer : list nat) : Prop :=
  forall a b i j : nat,
    (a < b)%nat -> indexer !! a = Some i -> indexer !! b = Some j ->
    F64.eqb (nth i keys NaN) (nth j keys NaN) = true -> (i < j)%nat.

Definition ties_rel (items : list f64) (i j : nat) : Prop :=
  F64.eqb (nth i items NaN) (nth j items NaN) = true -> (i < j)%nat.

(** The key of a row of a table: the number in the cell; [None] counts as
    missing.  (Text in a sort key makes pandas raise; the programs sort
    columns that they have made numeric.) *)
Definition num_of_cell (v : cell) : f64 :=
  match v with VNum x => x | _ => NaN end.

Definition num_at (c : string) (r : gmap string cell) : f64 := num_of_cell (get_cell r c).

(** Descending order with the missing values last. *)
Definition ge_na_last (a b : f64) : Prop :=
  F64.isnan b = true \/ F64.le b a = true.

(** Pairwise different keys. *)
Fixpoint distinct_keys (keys : list f64) : bool :=
  match keys with
  | [] => true
  | x :: rest => negb (existsb (F64.eqb x) rest) && distinct_keys rest
  end.

(** Two concrete sorts that meet the contract: insertion of each position
    into the sorted prefix, after the keys equal to its own (stable) or
    before them (ties end up reversed). *)
Fixpoint insert_idx (before : f64 -> f64 -> bool) (keys : list f64) (i : nat)
  (sorted : list nat) : list nat :=
  match sorted with
  | [] => [i]
  | j :: rest =>
      if before (nth i keys NaN) (nth j keys NaN) then i :: j :: rest
      else j :: insert_idx before keys i rest
  end.

Definition insertion_argsort (before : f64 -> f64 -> bool) (keys : list f64) : list nat :=
  fold_left (fun acc i => insert_idx before keys i acc) (seq 0 (length keys)) [].

(** ** Row filters, grouping *)

Definition df_filter (p : gmap string cell -> bool) (df : DataFrame) : DataFrame :=
  {| columns := columns df; rows := List.filter p (rows df) |}.

Definition df_head (n : nat) (df : DataFrame) : DataFrame :=
  {| columns := columns df; rows := head n (rows df) |}.

(** [pd.notna] *)
Definition notna (v : cell) : bool :=
  match v with
  | VNone => false
  | VNum x => negb (F64.isnan x)
  | VStr _ => true
  end.

(** [df.dropna(subset=cols)] *)
Definition dropna (subset : list string) (df : DataFrame) : DataFrame :=
  df_filter (fun r => forallb (fun c => notna (get_cell r c)) subset) df.

(** Elementwise [==] of two cells; a missing value equals nothing. *)
Definition cell_eqb (a b : cell) : bool :=
  match a, b with
  | VStr s, VStr t => String.eqb s t
  | VNum x, VNum y => F64.eqb x y
  | _, _ => false
  end.

(** [series.isin(values)] against a list of names *)
Definition isin (names : list string) (v : cell) : bool :=
  existsb (fun s => cell_eqb v (VStr s)) names.

(** The order in which [groupby] lists its keys: ascending, numbers by
    value and text by code point (a column that mixes both has no order in
    pandas; the model puts the numbers first). *)
Definition cell_leb (a b : cell) : bool :=
  match a, b with
  | VNum x, VNum y => F64.le x y
  | VNum _, _ => true
  | VStr s, VStr t => String.leb s t
  | VStr _, VNum _ => false
  | VStr _, VNone => true
  | VNone, VNone => true
  | VNone, _ => false
  end.

Fixpoint insert_cell (k : cell) (sorted : list cell) : list cell :=
  match sorted with
  | [] => [k]
  | k' :: rest => if cell_leb k k' then k :: sorted else k' :: insert_cell k rest
  end.

Definition sort_cells (ks : list cell) : list cell :=
  fold_right insert_cell [] ks.

(** The distinct values of a series, first occurrences kept. *)
Fixpoint unique_cells (ks : list cell) : list cell :=
  match ks with
  | [] => []
  | k :: rest => k :: List.filter (fun k' => negb (cell_eqb k' k)) (unique_cells rest)
  end.

(** The keys of [groupby(c)]: the distinct non-missing values, sorted. *)
Definition group_keys (ks : list cell) : list cell :=
  sort_cells (unique_cells (List.filter notna ks)).

(** [series.sum()] and [series.count()]: the missing values are skipped. *)
Definition series_sum (series : list f64) : f64 :=
  fold_left F64.add (List.filter (fun x => negb (F64.isnan x)) series) (Fin 0).

Definition series_count (series : list f64) : nat :=
  length (List.filter (fun x => negb (F64.isnan x)) series).

(** A row of
    [groupby(key).agg(correct_answers=('correct','sum'),
                      total_questions=('correct','count')).reset_index()],
    with the [percentage_correct] the code adds afterwards. *)
Record agg_row : Type := mkAgg {
  agg_key : cell;
  agg_correct_answers : f64;
  agg_total_questions : nat
}.

Definition agg_percentage_correct (a : agg_row) : f64 :=
  F64.mul (F64.div (agg_correct_answers a) (F64.of_nat (agg_total_questions a))) (Fin 100).

Definition group_rows (key : string) (k : cell) (rs : list (gmap string cell))
  : list (gmap string cell) :=
  List.filter (fun r => cell_eqb (get_cell r key) k) rs.

Definition aggregate (k : cell) (group : list (gmap string cell)) : agg_row :=
  {| agg_key := k;
     agg_correct_answers := series_sum (map (num_at "correct") group);
     agg_total_questions := series_count (map (num_at "correct") group) |}.

(** [df_runs[df_runs['category'] == category]] as rows *)
Definition category_rows (df_runs : DataFrame) (category : string) : list (gmap string cell) :=
  List.filter (fun r => cell_eqb (get_cell r "category") (VStr category)) (rows df_runs).

Definition groupby_agg (key : string) (rs : list (gmap string cell)) : list agg_row :=
  map (fun k => aggregate k (group_rows key k rs))
      (group_keys (map (fun r => get_cell r key) rs)).

(** ** Quantile buckets ([pd.qcut(x, q, labels=False, duplicates='drop')]) *)

Fixpoint insert_num (x : f64) (sorted : list f64) : list f64 :=
  match sorted with
  | [] => [x]
  | y :: rest => if F64.le x y then x :: sorted else y :: insert_num x rest
  end.

Definition sort_nums (l : list f64) : list f64 := fold_right insert_num [] l.

(** [Series.quantile(p)] with linear interpolation, over the sorted
    non-missing values, for [p = k / q]. *)
Definition quantile (sorted : list f64) (k q : nat) : f64 :=
  let n := length sorted in
  let h := (inject_Z (Z.of_nat ((n - 1) * k)) / inject_Z (Z.of_nat q))%Q in
  let lo := Z.to_nat (Qfloor h) in
  let frac := (h - inject_Z (Qfloor h))%Q in
  let a := nth lo sorted NaN in
  let b := nth (lo + 1) sorted a in
  F64.add a (F64.mul (F64.sub b a) (Fin frac)).

(** [algos.unique] of the bin edges. *)
Fixpoint unique_nums (l : list f64) : list f64 :=
  match l with
  | [] => []
  | x :: rest => x :: List.filter (fun y => negb (F64.eqb y x)) (unique_nums rest)
  end.

(** [bins.searchsorted(x, side='left')] on ascending edges: how many edges
    lie strictly below [x]; the missing value sorts after every edge. *)
Definition searchsorted_left (bins : list f64) (x : f64) : nat :=
  if F64.isnan x then length bins
  else length (List.filter (fun b => F64.lt b x) bins).

Definition qcut_bins (x : list f64) (q : nat) : list f64 :=
  let sorted := sort_nums (List.filter (fun v => negb (F64.isnan v)) x) in
  let bins := map (fun k => quantile sorted k q) (seq 0 (q + 1)) in
  let unique_bins := unique_nums bins in
  if (length unique_bins <? length bins)%nat && negb (length bins =? 2)%nat
  then unique_bins else bins.

(** The bucket of one value: [None] is the missing bucket (NaN). *)
Definition bucket_of (bins : list f64) (v : f64) : option nat :=
  let ids := searchsorted_left bins v in
  let ids := if F64.eqb v (nth 0 bins NaN) then 1%nat else ids in
  if F64.isnan v || (ids =? length bins)%nat || (ids =? 0)%nat
  then None else Some (ids - 1)%nat.

Definition qcut (x : list f64) (q : nat) : list (option nat) :=
  map (bucket_of (qcut_bins x q)) x.

(** The least and the greatest value of a series. *)
Definition is_least (x : list f64) (v : f64) : Prop :=
  In v x /\ forall w, In w x -> F64.le v w = true.

Definition is_greatest (x : list f64) (v : f64) : Prop :=
  In v x /\ forall w, In w x -> F64.le w v = true.

Definition finite (x : f64) : Prop := exists q : Q, x = Fin q.

(** [series.nunique()] of the bucket column *)
Fixpoint nunique (l : list (option nat)) : nat :=
  match l with
  | [] => 0
  | None :: rest => nunique rest
  | Some b :: rest =>
      if existsb (fun o => match o with Some b' => (b' =? b)%nat | None => false end) rest
      then nunique rest else S (nunique rest)
  end.

(** ** Charts and what a run emits *)

Record bar : Type := mkBar {
  bar_label : cell;            (** the model on the y axis *)
  bar_value : f64;             (** the length of the bar: the percentage *)
  bar_counts : option (f64 * nat)  (** correct and total, in a category chart *)
}.

Record point : Type := mkPoint {
  point_label : cell;
  point_x : f64;
  point_y : f64
}.

Inductive chart : Type :=
| BarChart (name : string) (bars : list bar)
| ScatterChart (name : string) (points : list point)
    (hue : option (list (option nat))) (log_x log_y : bool)
| Heatmap (name : string) (row_labels : list cell) (col_labels : list cell)
    (cells : list (list f64)).

Inductive event : Type :=
| Print (line : string)                       (** [print] *)
| SavePlot (c : chart)                        (** [save_plot]: a PNG file is written *)
| ShowPlot (c : chart)                        (** the figure is put on the canvas *)
| MessageBox (kind : string) (text : string)  (** [messagebox.show...] *)
| SetStatus (text : string).                  (** the status label *)

(** What a call leaves behind: the events in order and, when it did not
    return, the exception that escaped. *)
Record outcome : Type := mkOutcome {
  emitted : list event;
  uncaught : option string
}.

Definition returned (evs : list event) : outcome := {| emitted := evs; uncaught := None |}.
Definition raised (evs : list event) (e : string) : outcome :=
  {| emitted := evs; uncaught := Some e |}.

Definition is_chart (e : event) : bool :=
  match e with SavePlot _ | ShowPlot _ => true | _ => false end.

Definition bars_of_rows (rs : list (gmap string cell)) : list bar :=
  map (fun r => {| bar_label := get_cell r "model_id";
                   bar_value := num_at "percentage_correct" r;
                   bar_counts := None |}) rs.

Definition bars_of_agg (rs : list agg_row) : list bar :=
  map (fun a => {| bar_label := agg_key a;
                   bar_value := agg_percentage_correct a;
                   bar_counts := Some (agg_correct_answers a, agg_total_questions a) |}) rs.

Definition points_of_rows (x y : string) (rs : list (gmap string cell)) : list point :=
  map (fun r => {| point_label := get_cell r "model_id";
                   point_x := num_at x r; point_y := num_at y r |}) rs.

(** The category and model columns of the heat map. *)
Record cat_agg_row : Type := mkCatAgg {
  cat_category : cell;
  cat_model : cell;
  cat_agg : agg_row
}.

(** Two labels that an index or [isin] takes for the same: equal cells, or
    both missing. *)
Definition cell_same (a b : cell) : bool :=
  cell_eqb a b || (negb (notna a) && negb (notna b)).

(** [series.isin(values)] against the values of another column *)
Definition isin_cells (vals : list cell) (v : cell) : bool :=
  existsb (cell_same v) vals.

Section Shared.
Context `{PyConv} `{ArgSort}.

(** [df[c] = pd.to_numeric(df[c], errors='coerce')] *)
Definition coerce_col (c : string) (df : DataFrame) : DataFrame :=
  set_col df c (map VNum (to_numeric (col df c))).

(** [df[c] = pd.to_numeric(df[c], errors='coerce').fillna(v)] *)
Definition coerce_fill_col (c : string) (v : f64) (df : DataFrame) : DataFrame :=
  set_col df c (map VNum (fillna v (to_numeric (col df c)))).

(** [df.sort_values(c, ascending=False)] *)
Definition df_sort_desc (c : string) (df : DataFrame) : DataFrame :=
  {| columns := columns df; rows := sort_desc (num_at c) (rows df) |}.

(** [groupby(['category', 'model_id']).agg(...)] of the heat map: the keys
    are the pairs that occur, in lexicographic order. *)
Definition groupby_category_model (rs : list (gmap string cell)) : list cat_agg_row :=
  flat_map (fun c =>
              let in_cat := group_rows "category" c rs in
              map (fun a => {| cat_category := c; cat_model := agg_key a; cat_agg := a |})
                  (groupby_agg "model_id" (List.filter (fun r => notna (get_cell r "model_id")) in_cat)))
           (group_keys (map (fun r => get_cell r "category")
                            (List.filter (fun r => notna (get_cell r "model_id")) rs))).

(** The table the heat map draws, before the empty rows and columns are
    dropped: one row per top model, the overall percentage first, then one
    column per category that survived. *)
Definition heatmap_cell (agg : list cat_agg_row) (model cat : cell) : f64 :=
  match List.find (fun a => cell_eqb (cat_category a) cat && cell_eqb (cat_model a) model) agg with
  | Some a => agg_percentage_correct (cat_agg a)
  | None => NaN
  end.

Definition heatmap_table (top : list (cell * f64)) (cats : list cell) (agg : list cat_agg_row)
  : list (cell * list f64) :=
  map (fun '(m, overall) => (m, overall :: map (heatmap_cell agg m) cats)) top.

(** [dropna(how='all', axis=0).dropna(how='all', axis=1)] *)
Definition all_nan (l : list f64) : bool := forallb F64.isnan l.

Definition drop_empty_rows (t : list (cell * list f64)) : list (cell * list f64) :=
  List.filter (fun r => negb (all_nan (snd r))) t.

Definition column_at (t : list (cell * list f64)) (j : nat) : list f64 :=
  map (fun r => nth j (snd r) NaN) t.

Definition kept_columns (t : list (cell * list f64)) (ncols : nat) : list nat :=
  List.filter (fun j => negb (all_nan (column_at t j))) (seq 0 ncols).

Definition heatmap_chart (name : string) (top : list (cell * f64)) (cats : list cell)
  (agg : list cat_agg_row) : option chart :=
  let t := drop_empty_rows (heatmap_table top cats agg) in
  let labels := VStr "Overall" :: cats in
  let keep := kept_columns t (length labels) in
  if (length t =? 0)%nat || (length keep =? 0)%nat then None
  else Some (Heatmap name (map fst t) (map (fun j => nth j labels VNone) keep)
                     (map (fun r => map (fun j => nth j (snd r) NaN) keep) t)).

(** [reindex] refuses an index with repeated labels. *)
Fixpoint has_duplicates (ks : list cell) : bool :=
  match ks with
  | [] => false
  | k :: rest => existsb (cell_same k) rest || has_duplicates rest
  end.

End Shared.

(** ** Python objects and effects

    A table is an object on the heap; a variable holds a reference to it.
    [df.copy()] allocates a new object, [df[c] = ...] writes to the object
    the reference names.  A computation threads the heap, the module-level
    variables of the program and the log of what was emitted, and ends in a
    value or in an exception. *)

Definition loc : Type := nat.

Record py_state (G : Type) : Type := mkState {
  globals : G;
  heap : gmap loc DataFrame;
  log : list event
}.
Arguments mkState {G} _ _ _.
Arguments globals {G} _.
Arguments heap {G} _.
Arguments log {G} _.

Inductive result (A : Type) : Type :=
| Ok (a : A)
| Exc (e : string).
Arguments Ok {A} _.
Arguments Exc {A} _.

Definition Py (G A : Type) : Type := py_state G -> result A * py_state G.

Definition ret {G A : Type} (a : A) : Py G A := fun s => (Ok a, s).

Definition bind {G A B : Type} (m : Py G A) (k : A -> Py G B) : Py G B :=
  fun s => match m s with
           | (Ok a, s') => k a s'
           | (Exc e, s') => (Exc e, s')
           end.

#[global] Instance Py_ret {G : Type} : MRet (Py G) := fun A a => ret a.
#[global] Instance Py_bind {G : Type} : MBind (Py G) := fun A B k m => bind m k.

Definition throw {G A : Type} (e : string) : Py G A := fun s => (Exc e, s).

(** [try: body except Exception as e: handler(e)] *)
Definition try_except {G A : Type} (body : Py G A) (handler : string -> Py G A) : Py G A :=
  fun s => match body s with
           | (Ok a, s') => (Ok a, s')
           | (Exc e, s') => handler e s'
           end.

Definition emit {G : Type} (e : event) : Py G unit :=
  fun s => (Ok tt, mkState (globals s) (heap s) (log s ++ [e])).

Definition emit_all {G : Type} (evs : list event) : Py G unit :=
  fun s => (Ok tt, mkState (globals s) (heap s) (log s ++ evs)).

(** A new object. *)
Definition alloc {G : Type} (df : DataFrame) : Py G loc :=
  fun s => let l := fresh (dom (heap s)) in
           (Ok l, mkState (globals s) (<[l := df]> (heap s)) (log s)).

Definition read {G : Type} (l : loc) : Py G DataFrame :=
  fun s => match heap s !! l with
           | Some df => (Ok df, s)
           | None => (Exc "dangling reference", s)
           end.

Definition write {G : Type} (l : loc) (df : DataFrame) : Py G unit :=
  fun s => (Ok tt, mkState (globals s) (<[l := df]> (heap s)) (log s)).

(** [df.copy()] *)
Definition copy {G : Type} (l : loc) : Py G loc := df ← read l; alloc df.

Definition get_globals {G : Type} : Py G G := fun s => (Ok (globals s), s).
Definition set_globals {G : Type} (g : G) : Py G unit :=
  fun s => (Ok tt, mkState g (heap s) (log s)).

(** What a chart function emitted goes to the log; what escaped it is
    raised again. *)
Definition replay {G : Type} (o : outcome) : Py G unit :=
  emit_all (emitted o);;
  match uncaught o with
  | Some e => throw e
  | None => ret tt
  end.

(** A call of a chart function on the object [l] names. *)
Definition call {G : Type} (f : DataFrame -> outcome) (l : loc) : Py G unit :=
  df ← read l; replay (f df).

(** A call of a chart function that assigns to a column of its first
    argument: the object [l_runs] names is written. *)
Definition call_runs {G : Type} (f : DataFrame -> DataFrame -> DataFrame * outcome)
  (l_runs l_stats : loc) : Py G unit :=
  df_runs ← read l_runs;
  df_model_stats ← read l_stats;
  write l_runs (fst (f df_runs df_model_stats));;
  replay (snd (f df_runs df_model_stats)).

(** A computation leaves the object at [g] as it is, and leaves the
    module-level variables as they are. *)
Definition preserves {G A : Type} (g : loc) (m : Py G A) : Prop :=
  forall (s : py_state G) (df : DataFrame),
    heap s !! g = Some df -> heap (snd (m s)) !! g = Some df.

Definition keeps_globals {G A : Type} (m : Py G A) : Prop :=
  forall s : py_state G, globals (snd (m s)) = globals s.

(** ** The database file *)

Inductive file : Type :=
| Unopenable                       (** [sqlite3.connect] fails on it *)
| Malformed                        (** opens, but is not a database *)
| Sqlite (model_stats benchmark_runs : option DataFrame).
                                   (** a database; [None]: no such table *)

Definition filesystem : Type := string -> option file.

(** [pd.read_sql_query("SELECT * FROM <table>", conn)]: the table, or the
    text of the [DatabaseError]. *)
Definition read_sql_query (f : file) (table : string) : DataFrame + string :=
  match f with
  | Unopenable => inr "DatabaseError: unable to open database file"
  | Malformed => inr "DatabaseError: file is not a database"
  | Sqlite ms br =>
      match (if String.eqb table "model_stats" then ms else br) with
      | Some df => inl df
      | None => inr ("DatabaseError: no such table: " +:+ table)
      end
  end.

Section Normalise.
Context `{PyConv}.

(** [df['category'].fillna('Uncategorized').astype(str)] *)
Definition category_text (v : cell) : cell :=
  match v with
  | VNone => VStr "Uncategorized"
  | VNum x => if F64.isnan x then VStr "Uncategorized" else VStr (float_to_str x)
  | VStr s => VStr s
  end.

Definition fill_category (df : DataFrame) : DataFrame :=
  set_col df "category" (map category_text (col df "category")).

(** [df['category'].unique()] as names *)
Definition category_names (df : DataFrame) : list string :=
  omap (fun v => match v with VStr s => Some s | _ => None end)
       (unique_cells (col df "category")).

End Normalise.

(** ** The output directory and the files written to it

    What [os] and [shutil] see of a path: nothing, something that is not a
    directory, or a directory with its entries, each a regular file, a
    symbolic link, a directory, or something else (a FIFO, a socket, a
    device).  Removing an entry is taken to succeed; permissions are not
    modelled. *)

Inductive link_target : Type :=
| ToFile
| ToDirectory
| ToNothing.

Inductive dir_item : Type :=
| RegularFile
| SymLink (target : link_target)
| SubDirectory
| SpecialFile.

(** [os.path.isfile] and [os.path.isdir] follow a link, [os.path.islink]
    does not. *)
Definition isfile (it : dir_item) : bool :=
  match it with RegularFile | SymLink ToFile => true | _ => false end.

Definition islink (it : dir_item) : bool :=
  match it with SymLink _ => true | _ => false end.

Definition isdir (it : dir_item) : bool :=
  match it with SubDirectory | SymLink ToDirectory => true | _ => false end.

Inductive path_state : Type :=
| Missing
| NotADirectory
| Directory (items : gmap string dir_item).

(** [os.listdir]: the names, in no particular order. *)
Definition listdir (items : gmap string dir_item) : list string :=
  map fst (map_to_list items).

(** One pass of the loop over [os.listdir(directory)]. *)
Definition clear_item (items : gmap string dir_item) (item : string) : gmap string dir_item :=
  match items !! item with
  | Some it =>
      if isfile it || islink it then delete item items       (* [os.unlink] *)
      else if isdir it then delete item items                (* [shutil.rmtree] *)
      else items
  | None => items
  end.

(** [str.isalnum] on an ASCII character. *)
Definition isalnum (c : Ascii.ascii) : bool :=
  let n := Ascii.nat_of_ascii c in
  ((48 <=? n) && (n <=? 57) || (65 <=? n) && (n <=? 90) || (97 <=? n) && (n <=? 122))%nat.

Fixpoint str_map (f : Ascii.ascii -> Ascii.ascii) (s : string) : string :=
  match s with
  | String.EmptyString => String.EmptyString
  | String.String c rest => String.String (f c) (str_map f rest)
  end.

Fixpoint str_forallb (p : Ascii.ascii -> bool) (s : string) : bool :=
  match s with
  | String.EmptyString => true
  | String.String c rest => p c && str_forallb p rest
  end.

(** [s.replace(old, new)] for one-character [old] and [new]. *)
Definition replace_char (old new : Ascii.ascii) (s : string) : string :=
  str_map (fun c => if Ascii.eqb c old then new else c) s.

(** ["".join(c if c.isalnum() or c in (' ', '_', '-') else '_' for c in category).replace(' ', '_')] *)
Definition filename_cat (category : string) : string :=
  replace_char " " "_"
    (str_map (fun c => if isalnum c || Ascii.eqb c " " || Ascii.eqb c "_" || Ascii.eqb c "-"
                       then c else "_"%char) category).

(** The text holds ASCII characters only; on such text [isalnum] above is
    Python's. *)
Definition is_ascii (s : string) : bool :=
  str_forallb (fun c => (Ascii.nat_of_ascii c <? 128)%nat) s.

(** [os.path.join(a, b)] of two components, POSIX. *)
Definition path_join (a b : string) : string :=
  match b with
  | String.String "/" _ => b
  | _ => if String.eqb a "" || String.eqb (String.substring (String.length a - 1) 1 a) "/"
         then a +:+ b else a +:+ "/" +:+ b
  end.

Definition OUTPUT_DIR : string := "benchmark_graphs".

(** The file [save_plot] writes. *)
Definition save_plot_filepath (filename_base : string) : string :=
  path_join OUTPUT_DIR (filename_base +:+ ".png").

(** *** Figure sizes (the same constants in both programs) *)

Definition FIG_BASE_WIDTH : Q := 12.
Definition FIG_HEIGHT_PER_ITEM_BAR : Q := 35 # 100.
Definition FIG_MIN_HEIGHT : Q := 7.

(** Python's [max(a, b)]: [b] when it is greater, else [a]. *)
Definition py_max (a b : Q) : Q := if F64.Qlt_bool a b then b else a.

(** [(fig_width, fig_height)] of a bar chart with [num_models_plot] bars. *)
Definition bar_figsize (num_models_plot : nat) : Q * Q :=
  (FIG_BASE_WIDTH,
   py_max FIG_MIN_HEIGHT (inject_Z (Z.of_nat num_models_plot) * FIG_HEIGHT_PER_ITEM_BAR)).

(** ** The batch script (graph_stats.py): the chart functions

    Each function is given the table it was called with and returns what it
    emitted; the two that assign to a column of their argument
    ([df_runs['correct'] = ...]) also return the argument as the call
    leaves it. *)

Module GraphStats.

Definition TOP_N_MODELS_OVERALL : nat := 50.
Definition TOP_N_MODELS_PER_CATEGORY : nat := 15.
Definition NUM_CORRECTNESS_QUANTILES_FOR_HUE : nat := 5.
Definition MIN_QUESTIONS_FOR_CATEGORY_PLOT : nat := 3.

Section Charts.
Context `{PyConv} `{ArgSort}.

(** [df_sorted_overall.head(TOP_N_MODELS_OVERALL)] *)
Definition df_top_n (df_model_stats : DataFrame) : DataFrame :=
  let df_sorted_overall := df_sort_desc "percentage_correct" df_model_stats in
  df_head TOP_N_MODELS_OVERALL df_sorted_overall.

Definition plot_overall_model_correctness_bar (df_model_stats : DataFrame) : outcome :=
  if df_empty df_model_stats || negb (has_col df_model_stats "percentage_correct") then
    returned [Print "Skipping overall model correctness bar: No data or 'percentage_correct' column missing."]
  else
    let df_top_n := df_top_n df_model_stats in
    if negb (has_col df_model_stats "model_id") then
      (* the lookup of y='model_id' fails inside the plotting call *)
      raised [] "KeyError: 'model_id'"
    else
      returned [SavePlot (BarChart "overall_model_correctness_top_n_bar" (bars_of_rows (rows df_top_n)))].

(** The loop over [speed_cols_check]: a critical column that is missing
    ends the function with two printed lines; a column that is present,
    other than [model_id], is made numeric. *)
Fixpoint check_speed_cols (cols : list string) (df_speeds : DataFrame)
  : DataFrame + list event :=
  match cols with
  | [] => inl df_speeds
  | c :: rest =>
      if negb (has_col df_speeds c) then
        (* only a critical column can be missing: the optional ones are
           listed only when present *)
        inr [Print ("Info: Column '" +:+ c +:+ "' not found in model_stats for scatter plot, will proceed without it if optional.");
             Print ("Error: Critical Column '" +:+ c +:+ "' not found in model_stats for scatter plot.")]
      else if String.eqb c "model_id" then check_speed_cols rest df_speeds
      else check_speed_cols rest (coerce_col c df_speeds)
  end.

Definition speed_cols_check (df : DataFrame) : list string :=
  ["avg_prompt_eval_per_second"; "avg_tokens_per_second"; "model_id"]
  ++ (if has_col df "percentage_correct" then ["percentage_correct"] else [])
  ++ (if has_col df "total_questions" then ["total_questions"] else []).

Definition both_positive (r : gmap string cell) : bool :=
  F64.gt (num_at "avg_prompt_eval_per_second" r) 0%Q
  && F64.gt (num_at "avg_tokens_per_second" r) 0%Q.

Definition log_events (axis : string) (applied : bool) : list event :=
  if applied then [Print ("Applied log scale to " +:+ axis +:+ "-axis for plot")] else [].

Definition plot_overall_model_speeds_scatter (df_model_stats : DataFrame) (label_points : bool)
  : outcome :=
  if df_empty df_model_stats then
    returned [Print "Skipping overall model speeds scatter: No data."]
  else
    match check_speed_cols (speed_cols_check df_model_stats) df_model_stats with
    | inr evs => returned evs
    | inl df_speeds =>
        let df_plot := dropna ["avg_prompt_eval_per_second"; "avg_tokens_per_second"] df_speeds in
        let df_plot_for_log := df_filter both_positive df_plot in
        if df_empty df_plot then
          returned [Print "Skipping speed scatter plot: No models with speed data after NaN drop."]
        else
          let quantiles := qcut (map (num_at "percentage_correct") (rows df_plot))
                                NUM_CORRECTNESS_QUANTILES_FOR_HUE in
          let use_hue := negb label_points && has_col df_plot "percentage_correct" in
          let legend_on := use_hue && negb (nunique quantiles =? 0)%nat in
          let warn := if use_hue && (nunique quantiles =? 0)%nat
                      then [Print "Warning: Could not form quantiles for hue. Using default color."]
                      else [] in
          if legend_on then
            (* the legend block reads [custom_hue_handles], which this
               function never assigns *)
            raised warn "NameError: name 'custom_hue_handles' is not defined"
          else
            let log_x := apply_log_scale_if_needed (col df_plot_for_log "avg_prompt_eval_per_second") in
            let log_y := apply_log_scale_if_needed (col df_plot_for_log "avg_tokens_per_second") in
            returned (warn ++ log_events "x" log_x ++ log_events "y" log_y
                  ++ [SavePlot (ScatterChart "overall_model_speeds_scatter_labeled"
                                 (points_of_rows "avg_prompt_eval_per_second" "avg_tokens_per_second"
                                                 (rows df_plot))
                                 None log_x log_y)])
    end.

Definition plot_speed_vs_quality (df_model_stats : DataFrame)
  (speed_metric_col speed_metric_name : string) : outcome :=
  if df_empty df_model_stats then
    returned [Print ("Skipping " +:+ speed_metric_name +:+ " vs. Quality: No data.")]
  else if negb (forallb (has_col df_model_stats)
                        [speed_metric_col; "percentage_correct"; "model_id"; "total_questions"]) then
    returned [Print ("Skipping " +:+ speed_metric_name +:+ " vs. Quality: Missing one of the required columns.")]
  else
    let df_plot := coerce_col speed_metric_col df_model_stats in
    let df_plot := coerce_col "percentage_correct" df_plot in
    let df_plot := coerce_fill_col "total_questions" 1%Q df_plot in
    let df_plot := dropna [speed_metric_col; "percentage_correct"; "model_id"] df_plot in
    let df_plot_for_log := df_filter (fun r => F64.gt (num_at speed_metric_col r) 0%Q) df_plot in
    if df_empty df_plot then
      returned [Print ("No data for " +:+ speed_metric_name +:+ " vs Quality after filtering.")]
    else
      let quantiles := qcut (map (num_at "percentage_correct") (rows df_plot))
                            NUM_CORRECTNESS_QUANTILES_FOR_HUE in
      let n_colors_needed := nunique quantiles in
      let warn := if (n_colors_needed =? 0)%nat
                  then [Print ("Warning: Could not form quantiles for hue in " +:+ speed_metric_name +:+ " vs Quality plot.")]
                  else [] in
      let hue := if (n_colors_needed =? 0)%nat then None else Some quantiles in
      let log_x := apply_log_scale_if_needed (col df_plot_for_log speed_metric_col) in
      returned (warn ++ log_events "x" log_x
            ++ [SavePlot (ScatterChart (speed_metric_col +:+ "_vs_quality_labeled")
                           (points_of_rows speed_metric_col "percentage_correct" (rows df_plot))
                           hue log_x false)]).

(** The rows of [top_overall_models_df]: model and overall percentage. *)
Definition top_overall_models (df_model_stats : DataFrame) (top_m_models : nat)
  : list (cell * f64) :=
  map (fun r => (get_cell r "model_id", num_at "percentage_correct" r))
      (head top_m_models (sort_desc (num_at "percentage_correct") (rows df_model_stats))).

Definition plot_category_correctness_heatmap (df_runs df_model_stats : DataFrame)
  (top_m_models : nat) : DataFrame * outcome :=
  if df_empty df_runs || df_empty df_model_stats then
    (df_runs, returned [Print "Skipping category correctness heatmap: Missing benchmark_runs or model_stats data."])
  else if negb (forallb (has_col df_runs) ["category"; "model_id"; "correct"]) then
    (df_runs, returned [Print "Skipping category correctness heatmap: Missing required columns (category, model_id, correct in df_runs)."])
  else if negb (forallb (has_col df_model_stats) ["model_id"; "percentage_correct"]) then
    (df_runs, returned [Print "Skipping category correctness heatmap: Missing required columns (model_id, percentage_correct in df_model_stats)."])
  else
    let top_overall_models_df := top_overall_models df_model_stats top_m_models in
    let top_model_ids_ordered := map fst top_overall_models_df in
    let df_runs := coerce_fill_col "correct" 0%Q df_runs in
    let df_filtered_runs :=
      df_filter (fun r => isin_cells top_model_ids_ordered (get_cell r "model_id")
                          && notna (get_cell r "category")) df_runs in
    let name := "category_correctness_heatmap_with_overall_top_50_models" in
    let finish (evs : list event) (cats : list cell) (agg : list cat_agg_row) : outcome :=
      if has_duplicates top_model_ids_ordered then
        raised evs "ValueError: cannot reindex on an axis with duplicate labels"
      else match heatmap_chart name top_overall_models_df cats agg with
           | None => returned (evs ++ [Print "Pivoted heatmap data is empty after filtering and merging."])
           | Some c => returned (evs ++ [SavePlot c])
           end in
    if df_empty df_filtered_runs then
      let evs := [Print "No category data for top models to plot heatmap. Attempting to show overall only."] in
      if (length top_overall_models_df =? 0)%nat then
        (df_runs, returned (evs ++ [Print "No model data available at all for heatmap."]))
      else (df_runs, finish evs [] [])
    else
      let category_agg :=
        List.filter (fun a => (MIN_QUESTIONS_FOR_CATEGORY_PLOT <=? agg_total_questions (cat_agg a))%nat)
                    (groupby_category_model (rows df_filtered_runs)) in
      if (length category_agg =? 0)%nat then
        (df_runs, finish [Print "No category data meets MIN_QUESTIONS_FOR_CATEGORY_PLOT=3 for heatmap. Showing overall only."] [] [])
      else
        (df_runs, finish [] (sort_cells (unique_cells (map cat_category category_agg))) category_agg).

(** One pass of the loop over [categories_to_plot]: the ranking
    [df_sorted] of one category. *)
Definition model_agg (df_runs : DataFrame) (category : string) : list agg_row :=
  let df_category_data := df_filter (fun r => cell_eqb (get_cell r "category") (VStr category)) df_runs in
  List.filter (fun a => (MIN_QUESTIONS_FOR_CATEGORY_PLOT <=? agg_total_questions a)%nat)
              (groupby_agg "model_id" (rows df_category_data)).

Definition df_sorted (df_runs : DataFrame) (category : string) : list agg_row :=
  head TOP_N_MODELS_PER_CATEGORY (sort_desc agg_percentage_correct (model_agg df_runs category)).

Definition plot_one_category (df_runs : DataFrame) (category : string) : list event :=
  let df_category_data := df_filter (fun r => cell_eqb (get_cell r "category") (VStr category)) df_runs in
  if df_empty df_category_data then [Print ("No data for category: " +:+ category)]
  else if (length (model_agg df_runs category) =? 0)%nat then
    [Print ("Not enough model data (after MIN_QUESTIONS_FOR_CATEGORY_PLOT) for category '" +:+ category +:+ "'.")]
  else if (length (df_sorted df_runs category) =? 0)%nat then
    [Print ("Not enough model data for category '" +:+ category +:+ "' after sorting and taking top N.")]
  else
    [SavePlot (BarChart ("category_" +:+ category +:+ "_top_models_bar")
                        (bars_of_agg (df_sorted df_runs category)))].

Definition plot_top_models_for_specific_categories (df_runs : DataFrame)
  (categories_to_plot : list string) (df_model_stats : DataFrame) : DataFrame * outcome :=
  if df_empty df_runs then (df_runs, returned [])
  else if negb (forallb (has_col df_runs) ["category"; "model_id"; "correct"]) then
    (df_runs, returned [])
  else
    let df_runs := coerce_fill_col "correct" 0%Q df_runs in
    (df_runs, returned (flat_map (plot_one_category df_runs) categories_to_plot)).

End Charts.

(** *** [main] *)

Definition DB_PATH : string := "benchmark.db".

Definition selected_main_categories_for_bar : list string :=
  ["Computer Science"; "Drupal"; "History"; "Math"; "Logic"; "Science"; "Language";
   "Literature"; "Philosophy"; "Music"; "Culture"; "Economics"; "Geography"].

Section Main.
Context `{PyConv} `{ArgSort}.

(** The overall charts, each on a fresh copy of [df_model_stats]. *)
Definition main_overall_plots (df_model_stats : loc) : Py unit unit :=
  emit (Print "--- Generating Overall Model Plots (from model_stats) ---");;
  stats ← read df_model_stats;
  if negb (df_empty stats) then
    c1 ← copy df_model_stats;
    call plot_overall_model_correctness_bar c1;;
    c2 ← copy df_model_stats;
    call (fun df => plot_overall_model_speeds_scatter df true) c2;;
    c3 ← copy df_model_stats;
    call (fun df => plot_speed_vs_quality df "avg_prompt_eval_per_second" "Prompt Eval Speed") c3;;
    c4 ← copy df_model_stats;
    call (fun df => plot_speed_vs_quality df "avg_tokens_per_second" "Token Generation Speed") c4
  else
    emit (Print "model_stats table is empty or not found. Skipping overall plots.").

(** The category charts, each on fresh copies of both tables; before them
    [main] itself rewrites the [category] column of [df_benchmark_runs]. *)
Definition main_category_plots (df_model_stats df_benchmark_runs : loc) : Py unit unit :=
  emit (Print "--- Generating Category Plots (from benchmark_runs) ---");;
  runs ← read df_benchmark_runs;
  stats ← read df_model_stats;
  if negb (df_empty runs) && negb (df_empty stats) then
    if has_col runs "category" then
      write df_benchmark_runs (fill_category runs);;
      r1 ← copy df_benchmark_runs;
      s1 ← copy df_model_stats;
      call_runs (fun r s => plot_category_correctness_heatmap r s TOP_N_MODELS_OVERALL) r1 s1;;
      let available_categories := category_names (fill_category runs) in
      let categories_to_plot_bars :=
        List.filter (fun cat => existsb (String.eqb cat) available_categories)
                    selected_main_categories_for_bar in
      if negb (length categories_to_plot_bars =? 0)%nat then
        r2 ← copy df_benchmark_runs;
        s2 ← copy df_model_stats;
        call_runs (fun r s => plot_top_models_for_specific_categories r categories_to_plot_bars s) r2 s2
      else
        emit (Print "None of the selected_main_categories_for_bar exist in the data.")
    else
      emit (Print "Warning: 'category' column not found in benchmark_runs. Skipping category plots.")
  else
    emit (Print "benchmark_runs or model_stats table is empty. Skipping category plots.").

(** [main] once both tables are read. *)
Definition main_loaded (stats runs : DataFrame) : Py unit unit :=
  df_model_stats ← alloc stats;
  df_benchmark_runs ← alloc runs;
  write df_model_stats (fst (main_percentage_correct stats));;
  emit_all (map Print (snd (main_percentage_correct stats)));;
  main_overall_plots df_model_stats;;
  main_category_plots df_model_stats df_benchmark_runs;;
  emit (Print "All plots saved to 'benchmark_graphs' directory.").

Definition main (fs : filesystem) : Py unit unit :=
  emit (Print "Cleared output directory: benchmark_graphs");;
  emit (Print "Connecting to database: benchmark.db");;
  match fs DB_PATH with
  | None => emit (Print "Error: Database file 'benchmark.db' not found.")
  | Some Unopenable =>
      (* [sqlite3.connect] stands before the [try] *)
      throw "sqlite3.OperationalError: unable to open database file"
  | Some f =>
      match read_sql_query f "model_stats", read_sql_query f "benchmark_runs" with
      | inl stats, inl runs => main_loaded stats runs
      | inr e, _ | _, inr e => emit (Print ("Error reading from database: " +:+ e))
      end
  end.

(** The run from an empty heap. *)
Definition run_main (fs : filesystem) : result unit * py_state unit :=
  main fs (mkState tt ∅ []).

(** The run reached its last line. *)
Definition completed (s : py_state unit) : Prop :=
  exists evs, log s = evs ++ [Print "All plots saved to 'benchmark_graphs' directory."].

(** A chart was attempted: a chart function was entered, which the run
    announces with its section banner. *)
Definition charts_attempted (s : py_state unit) : Prop :=
  In (Print "--- Generating Overall Model Plots (from model_stats) ---") (log s).

End Main.

(** *** The output directory and the file names *)

(** [clear_output_directory(directory)] on what the path holds: the path
    afterwards and what the call emitted. *)
Definition clear_output_directory (directory : string) (st : path_state)
  : path_state * outcome :=
  match st with
  | Directory items =>
      (* [os.path.exists(directory)] *)
      (Directory (fold_left clear_item (listdir items) items),
       returned [Print ("Cleared output directory: " +:+ directory)])
  | NotADirectory =>
      (* [os.path.exists] holds, [os.listdir] raises *)
      (NotADirectory, raised [] "NotADirectoryError")
  | Missing =>
      (Directory ∅, returned [Print ("Created output directory: " +:+ directory)])
  end.

(** The file of the bar chart of one category. *)
Definition category_filename_base (category : string) : string :=
  "category_" +:+ filename_cat category +:+ "_top_models_bar".

(** The file of a speed-against-quality chart. *)
Definition speed_filename_base (speed_metric_col : string) : string :=
  replace_char "_" "-" speed_metric_col +:+ "_vs_quality_labeled".

End GraphStats.

(** ** The interactive application (igraph_stats.py): the chart functions

    [selected_models] is what [get_selected_models] returns: [None] when
    nothing is selected in the list box, else the selected names.  The code
    tests it with [if selected_models:], which is false for [None] and for
    the empty list. *)

Module IGraphStats.

Definition TOP_N_MODELS_OVERALL : nat := 25.
Definition TOP_N_MODELS_PER_CATEGORY : nat := 15.
Definition NUM_CORRECTNESS_QUANTILES_FOR_HUE : nat := 5.
Definition MIN_QUESTIONS_FOR_CATEGORY_PLOT : nat := 1.

Definition truthy (selected_models : option (list string)) : bool :=
  match selected_models with
  | Some (_ :: _) => true
  | _ => false
  end.

Definition selection (selected_models : option (list string)) : list string :=
  match selected_models with Some l => l | None => [] end.

Section Charts.
Context `{PyConv} `{ArgSort}.

(** [df_sorted] of the overall bar chart: the selected rows, all of them,
    or the first [top_n] rows of the ranking. *)
Definition overall_df_sorted (df_model_stats : DataFrame) (top_n : nat)
  (selected_models : option (list string)) : DataFrame :=
  let df_to_plot :=
    if truthy selected_models
    then df_filter (fun r => isin (selection selected_models) (get_cell r "model_id")) df_model_stats
    else df_model_stats in
  let df_sorted := df_sort_desc "percentage_correct" df_to_plot in
  if negb (truthy selected_models) then df_head top_n df_sorted else df_sorted.

Definition plot_overall_model_correctness_bar (df_model_stats : DataFrame) (top_n : nat)
  (selected_models : option (list string)) : outcome :=
  if df_empty df_model_stats || negb (has_col df_model_stats "percentage_correct") then
    returned [MessageBox "error" "Model stats data is empty or missing 'percentage_correct'."]
  else if negb (has_col df_model_stats "model_id") then
    (* [df_to_plot['model_id']] or, with no selection, the plotting call *)
    raised [] "KeyError: 'model_id'"
  else if truthy selected_models
          && df_empty (df_filter (fun r => isin (selection selected_models) (get_cell r "model_id"))
                                 df_model_stats) then
    returned [MessageBox "info" "None of the selected models found in the data."]
  else
    let df_sorted := overall_df_sorted df_model_stats top_n selected_models in
    if df_empty df_sorted then
      returned [MessageBox "info" "No models found after filtering/top_n for correctness bar."]
    else
      returned [ShowPlot (BarChart "overall_model_correctness_bar" (bars_of_rows (rows df_sorted)))].

Fixpoint check_speed_cols (cols : list string) (df_speeds : DataFrame)
  : DataFrame + list event :=
  match cols with
  | [] => inl df_speeds
  | c :: rest =>
      if negb (has_col df_speeds c) then
        inr [MessageBox "error" ("Critical Column '" +:+ c +:+ "' not found for speed scatter.")]
      else if String.eqb c "model_id" then check_speed_cols rest df_speeds
      else check_speed_cols rest (coerce_col c df_speeds)
  end.

Definition select_models (selected_models : option (list string)) (df : DataFrame) : DataFrame :=
  if truthy selected_models
  then df_filter (fun r => isin (selection selected_models) (get_cell r "model_id")) df
  else df.

Definition plot_overall_model_speeds_scatter (df_model_stats : DataFrame) (label_points : bool)
  (selected_models : option (list string)) : outcome :=
  if df_empty df_model_stats then
    returned [MessageBox "error" "Model stats data is empty for speed scatter."]
  else
    match check_speed_cols (GraphStats.speed_cols_check df_model_stats) df_model_stats with
    | inr evs => returned evs
    | inl df_speeds =>
        let df_plot_base := dropna ["avg_prompt_eval_per_second"; "avg_tokens_per_second"] df_speeds in
        let df_plot := select_models selected_models df_plot_base in
        let df_plot_for_log := df_filter GraphStats.both_positive df_plot in
        if df_empty df_plot then
          returned [MessageBox "info" "No models with required speed data to plot (or after filtering)."]
        else
          let quantiles := qcut (map (num_at "percentage_correct") (rows df_plot))
                                NUM_CORRECTNESS_QUANTILES_FOR_HUE in
          let use_hue := negb label_points && has_col df_plot "percentage_correct"
                         && negb (truthy selected_models) in
          let legend_on := use_hue && negb (nunique quantiles =? 0)%nat in
          let warn := if use_hue && (nunique quantiles =? 0)%nat
                      then [Print "Warning: Could not form quantiles for hue."] else [] in
          let log_x := apply_log_scale_if_needed (col df_plot_for_log "avg_prompt_eval_per_second") in
          let log_y := apply_log_scale_if_needed (col df_plot_for_log "avg_tokens_per_second") in
          returned (warn ++ GraphStats.log_events "x" log_x ++ GraphStats.log_events "y" log_y
                ++ [ShowPlot (ScatterChart "overall_model_speeds_scatter_labeled"
                               (points_of_rows "avg_prompt_eval_per_second" "avg_tokens_per_second"
                                               (rows df_plot))
                               (if legend_on then Some quantiles else None) log_x log_y)])
    end.

Definition plot_speed_vs_quality (df_model_stats : DataFrame)
  (speed_metric_col speed_metric_name : string) (selected_models : option (list string))
  : outcome :=
  if df_empty df_model_stats then
    returned [MessageBox "error" ("Model stats data is empty for " +:+ speed_metric_name +:+ " vs. Quality.")]
  else if negb (forallb (has_col df_model_stats)
                        [speed_metric_col; "percentage_correct"; "model_id"; "total_questions"]) then
    returned [MessageBox "error" ("Skipping " +:+ speed_metric_name +:+ " vs. Quality: Missing one of the required columns.")]
  else
    let df_plot_base := coerce_col speed_metric_col df_model_stats in
    let df_plot_base := coerce_col "percentage_correct" df_plot_base in
    let df_plot_base := coerce_fill_col "total_questions" 1%Q df_plot_base in
    let df_plot := dropna [speed_metric_col; "percentage_correct"; "model_id"] df_plot_base in
    let df_plot := select_models selected_models df_plot in
    let df_plot_for_log := df_filter (fun r => F64.gt (num_at speed_metric_col r) 0%Q) df_plot in
    if df_empty df_plot then
      returned [MessageBox "info" ("No data for " +:+ speed_metric_name +:+ " vs Quality after filtering.")]
    else
      let quantiles := qcut (map (num_at "percentage_correct") (rows df_plot))
                            NUM_CORRECTNESS_QUANTILES_FOR_HUE in
      let legend_on := negb (truthy selected_models) && has_col df_plot "percentage_correct"
                       && negb (nunique quantiles =? 0)%nat in
      let log_x := apply_log_scale_if_needed (col df_plot_for_log speed_metric_col) in
      returned (GraphStats.log_events "x" log_x
            ++ [ShowPlot (ScatterChart (speed_metric_col +:+ "_vs_quality_labeled")
                           (points_of_rows speed_metric_col "percentage_correct" (rows df_plot))
                           (if legend_on then Some quantiles else None) log_x false)]).

Definition top_overall_models (df_model_stats : DataFrame) (top_m_models : nat)
  (selected_models : option (list string)) : list (cell * f64) :=
  let ranked :=
    if truthy selected_models
    then sort_desc (num_at "percentage_correct")
           (List.filter (fun r => isin (selection selected_models) (get_cell r "model_id"))
                        (rows df_model_stats))
    else head top_m_models (sort_desc (num_at "percentage_correct") (rows df_model_stats)) in
  map (fun r => (get_cell r "model_id", num_at "percentage_correct" r)) ranked.

Definition plot_category_correctness_heatmap (df_runs df_model_stats : DataFrame)
  (top_m_models : nat) (selected_models : option (list string)) : DataFrame * outcome :=
  if df_empty df_runs || df_empty df_model_stats then
    (df_runs, returned [MessageBox "error" "Heatmap: Missing benchmark_runs or model_stats data."])
  else if negb (forallb (has_col df_runs) ["category"; "model_id"; "correct"]) then
    (df_runs, returned [MessageBox "error" "Heatmap: Missing required columns in df_runs."])
  else if negb (forallb (has_col df_model_stats) ["model_id"; "percentage_correct"]) then
    (df_runs, returned [MessageBox "error" "Heatmap: Missing required columns in df_model_stats."])
  else
    let top_overall_models_df := top_overall_models df_model_stats top_m_models selected_models in
    if truthy selected_models && (length top_overall_models_df =? 0)%nat then
      (df_runs, returned [MessageBox "info" "None of the selected models found for heatmap."])
    else
    let top_model_ids_ordered := map fst top_overall_models_df in
    let df_runs := coerce_fill_col "correct" 0%Q df_runs in
    let df_filtered_runs :=
      df_filter (fun r => isin_cells top_model_ids_ordered (get_cell r "model_id")
                          && notna (get_cell r "category")) df_runs in
    let name := "category_correctness_heatmap_with_overall" in
    let finish (cats : list cell) (agg : list cat_agg_row) : outcome :=
      if has_duplicates top_model_ids_ordered then
        raised [] "ValueError: cannot reindex on an axis with duplicate labels"
      else match heatmap_chart name top_overall_models_df cats agg with
           | None => returned [MessageBox "info" "Pivoted heatmap data empty."]
           | Some c => returned [ShowPlot c]
           end in
    if df_empty df_filtered_runs then
      if (length top_overall_models_df =? 0)%nat then
        (df_runs, returned [MessageBox "info" "No model data for heatmap."])
      else (df_runs, finish [] [])
    else
      let category_agg :=
        List.filter (fun a => (MIN_QUESTIONS_FOR_CATEGORY_PLOT <=? agg_total_questions (cat_agg a))%nat)
                    (groupby_category_model (rows df_filtered_runs)) in
      if (length category_agg =? 0)%nat then
        if (length top_overall_models_df =? 0)%nat then
          (df_runs, returned [MessageBox "info" "No cat data meets min Qs, and no overall data for heatmap."])
        else (df_runs, finish [] [])
      else
        (df_runs, finish (sort_cells (unique_cells (map cat_category category_agg))) category_agg).

(** [df_category_data], [model_agg] and [df_sorted] of the category bar
    chart. *)
Definition df_category_data (df_runs : DataFrame) (category : string)
  (selected_models : option (list string)) : DataFrame :=
  select_models selected_models
    (df_filter (fun r => cell_eqb (get_cell r "category") (VStr category)) df_runs).

Definition model_agg (df_runs : DataFrame) (category : string)
  (selected_models : option (list string)) : list agg_row :=
  List.filter (fun a => (MIN_QUESTIONS_FOR_CATEGORY_PLOT <=? agg_total_questions a)%nat)
              (groupby_agg "model_id" (rows (df_category_data df_runs category selected_models))).

Definition category_df_sorted (df_runs : DataFrame) (category : string)
  (selected_models : option (list string)) : list agg_row :=
  let df_sorted := sort_desc agg_percentage_correct (model_agg df_runs category selected_models) in
  if negb (truthy selected_models) then head TOP_N_MODELS_PER_CATEGORY df_sorted else df_sorted.

Definition plot_top_models_for_specific_categories (df_runs : DataFrame)
  (categories_to_plot : list string) (df_model_stats : DataFrame)
  (selected_models : option (list string)) : DataFrame * outcome :=
  if df_empty df_runs then
    (df_runs, returned [MessageBox "error" "Benchmark runs data is empty."])
  else if negb (forallb (has_col df_runs) ["category"; "model_id"; "correct"]) then
    (df_runs, returned [MessageBox "error" "Required columns missing for category plot."])
  else
    let df_runs := coerce_fill_col "correct" 0%Q df_runs in
    match categories_to_plot with
    | [] => (df_runs, raised [] "IndexError: list index out of range")
    | category :: _ =>
        if df_empty (df_category_data df_runs category selected_models) then
          (df_runs, returned [MessageBox "info" ("No data for category: " +:+ category +:+ " (after model filter if any).")])
        else if (length (model_agg df_runs category selected_models) =? 0)%nat then
          (df_runs, returned [MessageBox "info" ("Not enough data (after MIN_Q) for category '" +:+ category +:+ "'.")])
        else
          let df_sorted := category_df_sorted df_runs category selected_models in
          if (length df_sorted =? 0)%nat then
            (df_runs, returned [MessageBox "info" ("Not enough model data for category '" +:+ category +:+ "' after sorting/filtering.")])
          else
            (df_runs, returned [ShowPlot (BarChart ("category_" +:+ category +:+ "_models_bar")
                                               (bars_of_agg df_sorted))])
    end.

End Charts.

(** *** The application object and its callbacks *)

(** The module-level variables and the widgets the callbacks read and
    write. *)
Record app : Type := mkApp {
  db_path_global : string;
  df_model_stats_global : loc;
  df_benchmark_runs_global : loc;
  all_model_names_global : list cell;
  all_categories_global : list string;
  db_status_label : string;
  model_listbox : list string;        (** the items of the list box *)
  curselection : list nat;            (** the selected positions *)
  category_dropdown : list string;
  category_var : string;
  initial_message_label : bool        (** still shown *)
}.

Definition modify (f : app -> app) : Py app unit :=
  fun s => (Ok tt, mkState (f (globals s)) (heap s) (log s)).

(** The tables the two dataset variables name. *)
Definition dataset (s : py_state app) : option DataFrame * option DataFrame :=
  (heap s !! df_model_stats_global (globals s),
   heap s !! df_benchmark_runs_global (globals s)).

Section App.
Context `{PyConv} `{ArgSort}.

(** [sqlite3.connect(path)]: a path with no file gets a new, empty
    database. *)
Definition connect (fs : filesystem) (path : string) : Py app file :=
  match fs path with
  | None => ret (Sqlite None None)
  | Some Unopenable => throw "sqlite3.OperationalError: unable to open database file"
  | Some f => ret f
  end.

Definition read_table (f : file) (table : string) : Py app DataFrame :=
  match read_sql_query f table with
  | inl df => ret df
  | inr e => throw e
  end.

(** The block of [load_db] that settles [percentage_correct]. *)
Definition load_percentage_correct (df : DataFrame) : DataFrame :=
  if negb (has_col df "percentage_correct")
     && has_col df "correct_answers" && has_col df "total_questions" then
    let df1 := coerce_fill_col "correct_answers" 0%Q df in
    let df2 := coerce_fill_col "total_questions" 0%Q df1 in
    set_col df2 "percentage_correct"
      (map VNum (percentage_of_counts (values (col df2 "correct_answers"))
                                      (values (col df2 "total_questions"))))
  else if has_col df "percentage_correct" then
    set_col df "percentage_correct"
      (map VNum (map F64.round1 (fillna 0%Q (to_numeric (col df "percentage_correct")))))
  else df.

(** [sorted(df['model_id'].unique().tolist())]: Python refuses to order
    text against a missing value or a number. *)
Definition all_text (ks : list cell) : bool :=
  forallb (fun k => match k with VStr _ => true | _ => false end) ks.
Definition all_numbers (ks : list cell) : bool :=
  forallb (fun k => match k with VNum x => negb (F64.isnan x) | _ => false end) ks.

Definition sorted_names (df : DataFrame) : Py app (list cell) :=
  if negb (has_col df "model_id") then throw "KeyError: 'model_id'"
  else
    let names := unique_cells (col df "model_id") in
    if all_text names || all_numbers names || (length names <=? 1)%nat
    then ret (sort_cells names)
    else throw "TypeError: '<' not supported between instances".

Definition item_text (k : cell) : string :=
  match k with
  | VStr s => s
  | VNum x => float_to_str x
  | VNone => "None"
  end.

(** The body of the [try] of [load_db]. *)
Definition load_db_try (fs : filesystem) (filepath : string) : Py app unit :=
  conn ← connect fs filepath;
  stats ← read_table conn "model_stats";
  l_stats ← alloc stats;
  modify (fun g => mkApp (db_path_global g) l_stats (df_benchmark_runs_global g)
                         (all_model_names_global g) (all_categories_global g)
                         (db_status_label g) (model_listbox g) (curselection g)
                         (category_dropdown g) (category_var g) (initial_message_label g));;
  runs ← read_table conn "benchmark_runs";
  l_runs ← alloc runs;
  modify (fun g => mkApp (db_path_global g) (df_model_stats_global g) l_runs
                         (all_model_names_global g) (all_categories_global g)
                         (db_status_label g) (model_listbox g) (curselection g)
                         (category_dropdown g) (category_var g) (initial_message_label g));;
  write l_stats (load_percentage_correct stats);;
  modify (fun g => mkApp (db_path_global g) (df_model_stats_global g) (df_benchmark_runs_global g)
                         (all_model_names_global g) (all_categories_global g)
                         ("Loaded: " +:+ filepath) (model_listbox g) (curselection g)
                         (category_dropdown g) (category_var g) (initial_message_label g));;
  emit (MessageBox "info" "Database loaded successfully!");;
  names ← sorted_names (load_percentage_correct stats);
  modify (fun g => mkApp (db_path_global g) (df_model_stats_global g) (df_benchmark_runs_global g)
                         names (all_categories_global g)
                         (db_status_label g) (map item_text names) []
                         (category_dropdown g) (category_var g) (initial_message_label g));;
  (if negb (df_empty runs) && has_col runs "category" then
     write l_runs (fill_category runs);;
     let cats := omap (fun v => match v with VStr s => Some s | _ => None end)
                      (sort_cells (unique_cells (col (fill_category runs) "category"))) in
     modify (fun g => mkApp (db_path_global g) (df_model_stats_global g) (df_benchmark_runs_global g)
                            (all_model_names_global g) cats
                            (db_status_label g) (model_listbox g) (curselection g)
                            cats (match cats with c :: _ => c | [] => category_var g end)
                            (initial_message_label g))
   else
     modify (fun g => mkApp (db_path_global g) (df_model_stats_global g) (df_benchmark_runs_global g)
                            (all_model_names_global g) (all_categories_global g)
                            (db_status_label g) (model_listbox g) (curselection g)
                            [] (category_var g) (initial_message_label g)));;
  modify (fun g => mkApp (db_path_global g) (df_model_stats_global g) (df_benchmark_runs_global g)
                         (all_model_names_global g) (all_categories_global g)
                         (db_status_label g) (model_listbox g) (curselection g)
                         (category_dropdown g) (category_var g) false).

(** The [except Exception] of [load_db]: both dataset variables are bound
    to new empty tables. *)
Definition load_db_except (e : string) : Py app unit :=
  modify (fun g => mkApp (db_path_global g) (df_model_stats_global g) (df_benchmark_runs_global g)
                         (all_model_names_global g) (all_categories_global g)
                         "Error loading DB." (model_listbox g) (curselection g)
                         (category_dropdown g) (category_var g) (initial_message_label g));;
  emit (MessageBox "error" ("Failed to load database: " +:+ e));;
  l_stats ← alloc empty_frame;
  modify (fun g => mkApp (db_path_global g) l_stats (df_benchmark_runs_global g)
                         (all_model_names_global g) (all_categories_global g)
                         (db_status_label g) (model_listbox g) (curselection g)
                         (category_dropdown g) (category_var g) (initial_message_label g));;
  l_runs ← alloc empty_frame;
  modify (fun g => mkApp (db_path_global g) (df_model_stats_global g) l_runs
                         (all_model_names_global g) (all_categories_global g)
                         (db_status_label g) (model_listbox g) (curselection g)
                         (category_dropdown g) (category_var g) (initial_message_label g)).

(** [db_path_global = filepath], before the [try]. *)
Definition set_db_path (filepath : string) : Py app unit :=
  modify (fun g => mkApp filepath (df_model_stats_global g) (df_benchmark_runs_global g)
                         (all_model_names_global g) (all_categories_global g)
                         (db_status_label g) (model_listbox g) (curselection g)
                         (category_dropdown g) (category_var g) (initial_message_label g)).

(** [load_db]; [filepath] is what the file dialog returned, empty when the
    dialog was cancelled. *)
Definition load_db (fs : filesystem) (filepath : string) : Py app unit :=
  if String.eqb filepath "" then ret tt
  else
    set_db_path filepath;;
    try_except (load_db_try fs filepath) load_db_except.

(** The load fails: the body of the [try] raises. *)
Definition load_fails (fs : filesystem) (filepath : string) (s : py_state app) : Prop :=
  exists e s', load_db_try fs filepath (snd (set_db_path filepath s)) = (Exc e, s').

Definition get_selected_models (g : app) : option (list string) :=
  match curselection g with
  | [] => None
  | sel => Some (omap (fun i => model_listbox g !! i) sel)
  end.

Definition stats_guard (k : loc -> option (list string) -> Py app unit) : Py app unit :=
  g ← get_globals;
  stats ← read (df_model_stats_global g);
  if df_empty stats then emit (MessageBox "warning" "Please load a database first.")
  else k (df_model_stats_global g) (get_selected_models g).

Definition plot_overall_correctness_gui : Py app unit :=
  stats_guard (fun l selected_models =>
    c ← copy l;
    call (fun df => plot_overall_model_correctness_bar df TOP_N_MODELS_OVERALL selected_models) c).

Definition plot_speeds_scatter_gui : Py app unit :=
  stats_guard (fun l selected_models =>
    c ← copy l;
    call (fun df => plot_overall_model_speeds_scatter df true selected_models) c).

Definition plot_prompt_speed_quality_gui : Py app unit :=
  stats_guard (fun l selected_models =>
    c ← copy l;
    call (fun df => plot_speed_vs_quality df "avg_prompt_eval_per_second" "Prompt Eval Speed"
                                          selected_models) c).

Definition plot_gen_speed_quality_gui : Py app unit :=
  stats_guard (fun l selected_models =>
    c ← copy l;
    call (fun df => plot_speed_vs_quality df "avg_tokens_per_second" "Token Generation Speed"
                                          selected_models) c).

Definition plot_category_heatmap_gui : Py app unit :=
  g ← get_globals;
  runs ← read (df_benchmark_runs_global g);
  stats ← read (df_model_stats_global g);
  if df_empty runs || df_empty stats then
    emit (MessageBox "warning" "Please load a database first.")
  else
    r ← copy (df_benchmark_runs_global g);
    s ← copy (df_model_stats_global g);
    call_runs (fun r s => plot_category_correctness_heatmap r s TOP_N_MODELS_OVERALL
                                                           (get_selected_models g)) r s.

Definition plot_category_bar_gui : Py app unit :=
  g ← get_globals;
  runs ← read (df_benchmark_runs_global g);
  if df_empty runs then emit (MessageBox "warning" "Please load a database first.")
  else if String.eqb (category_var g) "" then
    emit (MessageBox "warning" "Please select a category.")
  else
    r ← copy (df_benchmark_runs_global g);
    s ← copy (df_model_stats_global g);
    call_runs (fun r s => plot_top_models_for_specific_categories r [category_var g] s
                                                                 (get_selected_models g)) r s.

(** The six chart buttons. *)
Definition chart_callbacks : list (Py app unit) :=
  [plot_overall_correctness_gui; plot_speeds_scatter_gui; plot_prompt_speed_quality_gui;
   plot_gen_speed_quality_gui; plot_category_heatmap_gui; plot_category_bar_gui].

End App.

(** *** The output directory *)

Definition clear_output_directory (directory : string) (st : path_state)
  : path_state * outcome :=
  match st with
  | Missing =>
      (* [not os.path.exists(directory)]: created, and the function returns *)
      (Directory ∅, returned [Print ("Created output directory: " +:+ directory)])
  | NotADirectory => (NotADirectory, raised [] "NotADirectoryError")
  | Directory items =>
      (Directory (fold_left clear_item (listdir items) items),
       returned [Print ("Cleared output directory: " +:+ directory)])
  end.

End IGraphStats.

(** ** Sample data *)

(** A conversion under which no text cell reads as a number. *)
Definition no_text_numbers : PyConv :=
  {| str_to_float := fun _ => NaN; float_to_str := fun _ => "" |}.

Definition row (l : list (string * cell)) : gmap string cell := list_to_map l.

Definition counts_only : DataFrame :=
  {| columns := ["model_id"; "correct_answers"; "total_questions"];
     rows := [ row [("model_id", VStr "A"); ("correct_answers", VNum 1%Q); ("total_questions", VNum 3%Q)];
               row [("model_id", VStr "B"); ("correct_answers", VNum 0%Q); ("total_questions", VNum 0%Q)] ] |}.

Definition model_row (model_id : string) (percentage_correct : Q) : gmap string cell :=
  row [("model_id", VStr model_id); ("percentage_correct", VNum percentage_correct)].

(** ModelStat = [("A", 80), ("B", 60), ("C", 90)] *)
Definition abc_stats : DataFrame :=
  {| columns := ["model_id"; "percentage_correct"];
     rows := [model_row "A" 80; model_row "B" 60; model_row "C" 90] |}.

(** Two models with the same percentage. *)
Definition tied_stats : DataFrame :=
  {| columns := ["model_id"; "percentage_correct"];
     rows := [model_row "A" 50; model_row "B" 50] |}.

Definition run_row (model_id category : string) (correct : Q) : gmap string cell :=
  row [("model_id", VStr model_id); ("category", VStr category); ("correct", VNum correct)].

(** BenchmarkRun rows for category "Math" with two samples of one model. *)
Definition math_two_samples : DataFrame :=
  {| columns := ["model_id"; "category"; "correct"];
     rows := [run_row "A" "Math" 1; run_row "A" "Math" 0] |}.

(** Three models answering in "Math"; model C once only. *)
Definition math_runs : DataFrame :=
  {| columns := ["model_id"; "category"; "correct"];
     rows := [run_row "B" "Math" 1; run_row "A" "Math" 1; run_row "A" "Math" 0;
              run_row "B" "Math" 1; run_row "A" "Math" 1; run_row "B" "Math" 0;
              run_row "C" "Math" 1; run_row "A" "History" 1] |}.

Definition speed_row (model_id : string) (percentage_correct prompt tokens : Q)
  : gmap string cell :=
  row [("model_id", VStr model_id); ("percentage_correct", VNum percentage_correct);
       ("avg_prompt_eval_per_second", VNum prompt); ("avg_tokens_per_second", VNum tokens);
       ("total_questions", VNum 10%Q)].

(** Two models with the same percentage. *)
Definition same_quality : DataFrame :=
  {| columns := ["model_id"; "percentage_correct"; "avg_prompt_eval_per_second";
                 "avg_tokens_per_second"; "total_questions"];
     rows := [speed_row "A" 80 100 20; speed_row "B" 80 300 40] |}.

(** A session with a dataset loaded: the two tables at the references 0
    and 1. *)
Definition loaded_session : py_state IGraphStats.app :=
  mkState
    {| IGraphStats.db_path_global := "benchmark.db";
       IGraphStats.df_model_stats_global := 0%nat;
       IGraphStats.df_benchmark_runs_global := 1%nat;
       IGraphStats.all_model_names_global := [VStr "A"; VStr "B"; VStr "C"];
       IGraphStats.all_categories_global := ["History"; "Math"];
       IGraphStats.db_status_label := "Loaded: benchmark.db";
       IGraphStats.model_listbox := ["A"; "B"; "C"];
       IGraphStats.curselection := [];
       IGraphStats.category_dropdown := ["History"; "Math"];
       IGraphStats.category_var := "History";
       IGraphStats.initial_message_label := false |}
    (<[0%nat := abc_stats]> (<[1%nat := math_runs]> ∅))
    [].

(** A file system whose only file is not a database. *)
Definition broken_file : filesystem :=
  fun path => if String.eqb path "broken.db" then Some Malformed else None.

(** A database file without the [model_stats] table. *)
Definition no_model_stats : filesystem :=
  fun path => if String.eqb path "benchmark.db"
              then Some (Sqlite None (Some math_runs)) else None.

(** A database file with both tables. *)
Definition good_file : filesystem :=
  fun path => if String.eqb path "benchmark.db"
              then Some (Sqlite (Some abc_stats) (Some math_runs)) else None.

(** Runs with a NULL in [correct]. *)
Definition runs_with_null : DataFrame :=
  {| columns := ["model_id"; "category"; "correct"];
     rows := [row [("model_id", VStr "A"); ("category", VStr "Math"); ("correct", VNone)]] |}.

(** A [model_stats] table with speeds only: no percentage, no counts. *)
Definition speeds_only : DataFrame :=
  {| columns := ["model_id"; "avg_prompt_eval_per_second"; "avg_tokens_per_second"];
     rows := [row [("model_id", VStr "A"); ("avg_prompt_eval_per_second", VNum 100%Q);
                   ("avg_tokens_per_second", VNum 20%Q)];
              row [("model_id", VStr "B"); ("avg_prompt_eval_per_second", VNum 300%Q);
                   ("avg_tokens_per_second", VNum 40%Q)]] |}.

Definition speeds_only_file : filesystem :=
  fun path => if String.eqb path "benchmark.db"
              then Some (Sqlite (Some speeds_only) (Some math_runs)) else None.

(** A [model_stats] table with percentages but no [model_id] column. *)
Definition no_model_id : DataFrame :=
  {| columns := ["percentage_correct"];
     rows := [row [("percentage_correct", VNum 80%Q)]] |}.

Definition no_model_id_file : filesystem :=
  fun path => if String.eqb path "benchmark.db"
              then Some (Sqlite (Some no_model_id) (Some math_runs)) else None.

(** ** Auxiliary notions of the further properties *)

(** What [clear_output_directory] removes. *)
Definition removable (it : dir_item) : bool := isfile it || islink it || isdir it.

(** The characters of a sanitised file name. *)
Definition filename_char (c : Ascii.ascii) : bool :=
  isalnum c || Ascii.eqb c "_" || Ascii.eqb c "-".

(** The answers of the runs, as given: each reads as 0, as 1, or as no
    number. *)
Definition answers_are_marks `{PyConv} (df_runs : DataFrame) : Prop :=
  forall r, In r (rows df_runs) ->
    let x := to_numeric_cell (get_cell r "correct") in
    F64.isnan x = true \/ F64.eqb x 0%Q = true \/ F64.eqb x 1%Q = true.

(** The lists and widgets that [load_db] fills on success. *)
Definition widgets (g : IGraphStats.app) :=
  (IGraphStats.all_model_names_global g, IGraphStats.all_categories_global g,
   IGraphStats.model_listbox g, IGraphStats.curselection g,
   IGraphStats.category_dropdown g, IGraphStats.category_var g,
   IGraphStats.initial_message_label g).

(** A cell that holds text. *)
Definition is_text (k : cell) : bool := match k with VStr _ => true | _ => false end.

(** The speeds of a row as [pd.to_numeric] reads them, and the points of
    the rows that have both. *)
Definition speed_x `{PyConv} (r : gmap string cell) : f64 :=
  to_numeric_cell (get_cell r "avg_prompt_eval_per_second").

Definition speed_y `{PyConv} (r : gmap string cell) : f64 :=
  to_numeric_cell (get_cell r "avg_tokens_per_second").

Definition has_speeds `{PyConv} (r : gmap string cell) : bool :=
  negb (F64.isnan (speed_x r)) && negb (F64.isnan (speed_y r)).

Definition speed_points `{PyConv} (rs : list (gmap string cell)) : list point :=
  map (fun r => {| point_label := get_cell r "model_id";
                   point_x := speed_x r; point_y := speed_y r |})
      (List.filter has_speeds rs).

(** The points with both coordinates positive: the data of the scale
    decision. *)
Definition positive_points (pts : list point) : list point :=
  List.filter (fun p => F64.gt (point_x p) 0%Q && F64.gt (point_y p) 0%Q) pts.

(** [df[c] = pd.to_numeric(df[c], errors='coerce')] on one row. *)
Definition coerce_row `{PyConv} (c : string) (r : gmap string cell) : gmap string cell :=
  <[c := VNum (to_numeric_cell (get_cell r c))]> r.

(** The table after the loop over [speed_cols_check]: the two speeds, and
    the optional columns that are there, made numeric. *)
Definition coerce_optional `{PyConv} (present : bool) (c : string) (df : DataFrame) : DataFrame :=
  if present then coerce_col c df else df.

Definition coerced_speeds `{PyConv} (df : DataFrame) : DataFrame :=
  coerce_optional (has_col df "total_questions") "total_questions"
    (coerce_optional (has_col df "percentage_correct") "percentage_correct"
       (coerce_col "avg_tokens_per_second" (coerce_col "avg_prompt_eval_per_second" df))).

(** One row of the table after the loop. *)
Definition coerced_row `{PyConv} (df : DataFrame) (r : gmap string cell) : gmap string cell :=
  (if has_col df "total_questions" then coerce_row "total_questions" else id)
    ((if has_col df "percentage_correct" then coerce_row "percentage_correct" else id)
       (coerce_row "avg_tokens_per_second" (coerce_row "avg_prompt_eval_per_second" r))).


(** The percentage of a row as [pd.to_numeric] reads it. *)
Definition quality `{PyConv} (r : gmap string cell) : f64 :=
  to_numeric_cell (get_cell r "percentage_correct").

(** A [model_stats] table with speeds and two different percentages. *)
Definition speed_stats : DataFrame :=
  {| columns := ["model_id"; "percentage_correct"; "avg_prompt_eval_per_second";
                 "avg_tokens_per_second"; "total_questions"];
     rows := [speed_row "A" 80 100 20; speed_row "B" 60 300 40] |}.

(** The rows a speed-against-quality chart plots, and their points. *)
Definition has_speed_and_quality `{PyConv} (speed_metric_col : string)
  (r : gmap string cell) : bool :=
  negb (F64.isnan (to_numeric_cell (get_cell r speed_metric_col)))
  && negb (F64.isnan (quality r)) && notna (get_cell r "model_id").

Definition quality_points `{PyConv} (speed_metric_col : string)
  (rs : list (gmap string cell)) : list point :=
  map (fun r => {| point_label := get_cell r "model_id";
                   point_x := to_numeric_cell (get_cell r speed_metric_col);
                   point_y := quality r |})
      (List.filter (has_speed_and_quality speed_metric_col) rs).

(** One row of the table of that chart after its three columns are made
    numeric. *)
Definition quality_row `{PyConv} (speed_metric_col : string) (r : gmap string cell)
  : gmap string cell :=
  let r1 := coerce_row speed_metric_col r in
  let r2 := coerce_row "percentage_correct" r1 in
  <["total_questions" :=
      VNum (let x := to_numeric_cell (get_cell r2 "total_questions") in
            if F64.isnan x then Fin 1 else x)]> r2.

(** The two speed columns the programs chart against quality. *)
Definition speed_columns : list string :=
  ["avg_prompt_eval_per_second"; "avg_tokens_per_second"].

(** * Proofs *)

Lemma Qlt_bool_iff (a b : Q) : F64.Qlt_bool a b = true <-> (a < b)%Q.
Proof.
  unfold F64.Qlt_bool. rewrite negb_true_iff.
  split.
  - intros Hb. apply Qnot_le_lt. intros Hle. apply Qle_bool_iff in Hle. congruence.
  - intros Hlt. destruct (Qle_bool b a) eqn:E; [|reflexivity].
    apply Qle_bool_iff in E. exfalso. apply (Qlt_not_le _ _ Hlt E).
Qed.

Lemma Qlt_bool_false_iff (a b : Q) : F64.Qlt_bool a b = false <-> (b <= a)%Q.
Proof.
  unfold F64.Qlt_bool. rewrite negb_false_iff. apply Qle_bool_iff.
Qed.

Global Instance Qlt_bool_proper : Proper (Qeq ==> Qeq ==> eq) F64.Qlt_bool.
Proof.
  intros a a' Ha b b' Hb. unfold F64.Qlt_bool.
  f_equal. now apply Qleb_comp.
Qed.

Global Instance rint_proper : Proper (Qeq ==> eq) F64.rint.
Proof.
  intros a b Hab. unfold F64.rint.
  rewrite (Qfloor_comp _ _ Hab).
  assert (Hr : (a - inject_Z (Qfloor b) == b - inject_Z (Qfloor b))%Q).
  { apply Qplus_comp; [exact Hab | reflexivity]. }
  rewrite (Qlt_bool_proper _ _ Hr _ _ (Qeq_refl (1 # 2))).
  rewrite (Qlt_bool_proper _ _ (Qeq_refl (1 # 2)) _ _ Hr).
  reflexivity.
Qed.

Global Instance Qround1_proper : Proper (Qeq ==> eq) F64.Qround1.
Proof.
  intros a b Hab. unfold F64.Qround1.
  assert (Hs : (a * 10 == b * 10)%Q).
  { apply Qmult_comp; [exact Hab | reflexivity]. }
  now rewrite (rint_proper _ _ Hs).
Qed.

Lemma assign_lookup c rs vals i r v :
  rs !! i = Some r -> vals !! i = Some v ->
  assign c rs vals !! i = Some (<[c := v]> r).
Proof.
  revert vals i. induction rs as [|r0 rs IH]; intros [|v0 vals] [|i]; simpl; try discriminate.
  - intros [= ->] [= ->]. reflexivity.
  - intros Hr Hv. now apply IH.
Qed.

Lemma assign_length c rs vals : length (assign c rs vals) = length rs.
Proof.
  revert vals. induction rs as [|r rs IH]; intros [|v vals]; simpl; auto.
Qed.

Lemma get_cell_insert_eq c v (r : gmap string cell) : get_cell (<[c := v]> r) c = v.
Proof. unfold get_cell. now rewrite lookup_insert_eq. Qed.

Lemma get_cell_insert_ne c c' v (r : gmap string cell) :
  c <> c' -> get_cell (<[c := v]> r) c' = get_cell r c'.
Proof. intros Hne. unfold get_cell. now rewrite lookup_insert_ne. Qed.

Lemma col_set_col_eq df c vals :
  length vals = length (rows df) -> col (set_col df c vals) c = vals.
Proof.
  unfold col, set_col. simpl. generalize (rows df). intros rs. revert vals.
  induction rs as [|r rs IH]; intros [|v vals]; simpl; try discriminate; auto.
  intros [= Hl]. rewrite get_cell_insert_eq. f_equal. now apply IH.
Qed.

Lemma col_set_col_ne df c c' vals :
  c <> c' -> col (set_col df c vals) c' = col df c'.
Proof.
  intros Hne. unfold col, set_col. simpl. generalize (rows df). intros rs. revert vals.
  induction rs as [|r rs IH]; intros [|v vals]; simpl; auto.
  rewrite get_cell_insert_ne by assumption. f_equal. apply IH.
Qed.

Lemma col_length df c : length (col df c) = length (rows df).
Proof. unfold col. now rewrite length_map. Qed.

Lemma rows_set_col_length df c vals : length (rows (set_col df c vals)) = length (rows df).
Proof. apply assign_length. Qed.

Section SeriesFacts.
Context `{PyConv}.

Lemma fillna_length v (l : list f64) : length (fillna v l) = length l.
Proof. unfold fillna. now rewrite length_map. Qed.

Lemma to_numeric_length (l : list cell) : length (to_numeric l) = length l.
Proof. unfold to_numeric. now rewrite length_map. Qed.

Lemma values_VNum (l : list f64) : values (map VNum l) = l.
Proof. unfold values. rewrite map_map. simpl. apply map_id. Qed.

Lemma np_where_lookup (cond : list bool) (xs : list f64) (y : f64) i (b : bool) (x : f64) :
  cond !! i = Some b -> xs !! i = Some x ->
  np_where cond xs y !! i = Some (if b then x else y).
Proof.
  revert xs i. induction cond as [|b0 cond IH]; intros [|x0 xs] [|i]; simpl; try discriminate.
  - now intros [= ->] [= ->].
  - intros Hc Hx. now apply IH.
Qed.

Lemma series_div_lookup (xs ys : list f64) i x y :
  xs !! i = Some x -> ys !! i = Some y ->
  series_div xs ys !! i = Some (F64.div x y).
Proof.
  revert ys i. induction xs as [|x0 xs IH]; intros [|y0 ys] [|i]; simpl; try discriminate.
  - now intros [= ->] [= ->].
  - intros Hx Hy. now apply IH.
Qed.

Lemma percentage_of_counts_lookup (cs ts : list f64) i c t :
  cs !! i = Some c -> ts !! i = Some t ->
  percentage_of_counts cs ts !! i =
    Some (F64.round1 (if F64.gt t 0%Q then F64.mul (F64.div c t) 100%Q else 0%Q)).
Proof.
  intros Hc Ht. unfold percentage_of_counts.
  rewrite list_lookup_fmap.
  erewrite np_where_lookup.
  - simpl. reflexivity.
  - rewrite list_lookup_fmap, Ht. reflexivity.
  - rewrite list_lookup_fmap. erewrite series_div_lookup by eassumption. reflexivity.
Qed.

End SeriesFacts.

(** ** C1: the derived correctness percentage *)

Section DerivedPercentage.
Context `{PyConv}.

Lemma fillna_lookup_fin v (l : list f64) i (q : Q) :
  l !! i = Some (Fin q) -> fillna v l !! i = Some (Fin q).
Proof. intros Hl. unfold fillna. now rewrite list_lookup_fmap, Hl. Qed.

Lemma counts_lookup df c i r (q : Q) :
  rows df !! i = Some r -> get_cell r c = VNum (Fin q) ->
  fillna 0%Q (to_numeric (col df c)) !! i = Some (Fin q).
Proof.
  intros Hr Hc. apply fillna_lookup_fin.
  unfold to_numeric, col. rewrite !list_lookup_fmap, Hr. simpl. now rewrite Hc.
Qed.

Lemma percentage_positive (c t : Q) :
  (0 < t)%Q ->
  F64.round1 (if F64.gt t 0%Q then F64.mul (F64.div c t) 100%Q else 0%Q)
  = Fin (F64.Qround1 (100 * c / t)).
Proof.
  intros Ht. unfold F64.gt. simpl.
  rewrite (proj2 (Qlt_bool_iff 0 t) Ht).
  destruct (Qeq_bool t 0) eqn:E.
  - apply Qeq_bool_eq in E. rewrite E in Ht. now apply Qlt_irrefl in Ht.
  - simpl. f_equal. apply Qround1_proper.
    rewrite Qred_correct. rewrite Qred_correct. field.
    intros Hz. apply Qeq_eq_bool in Hz. congruence.
Qed.

Lemma percentage_not_positive (c t : f64) :
  F64.gt t 0%Q = false ->
  F64.round1 (if F64.gt t 0%Q then F64.mul (F64.div c t) 100%Q else 0%Q) = Fin 0.
Proof. intros ->. reflexivity. Qed.


End DerivedPercentage.


Example derived_percentage_example :
  map (fun r => get_cell r "percentage_correct")
      (rows (fst (@main_percentage_correct no_text_numbers counts_only)))
  = [VNum (333 # 10)%Q; VNum 0%Q].
Proof. vm_compute. reflexivity. Qed.

(** ** Order facts on numbers *)

Ltac f64_bool :=
  repeat match goal with
  | H : _ && _ = true |- _ => apply andb_true_iff in H; destruct H
  | H : _ || _ = true |- _ => apply orb_true_iff in H; destruct H
  | H : F64.Qlt_bool _ _ = true |- _ => apply Qlt_bool_iff in H
  | H : F64.Qlt_bool _ _ = false |- _ => apply Qlt_bool_false_iff in H
  | H : Qeq_bool _ _ = true |- _ => apply Qeq_bool_iff in H
  | H : Qeq_bool _ _ = false |- _ => apply Qeq_bool_neq in H
  | H : Qle_bool _ _ = true |- _ => apply Qle_bool_iff in H
  end.

Ltac f64_goal :=
  repeat match goal with
  | |- _ || _ = true => apply orb_true_iff
  | |- _ && _ = true => apply andb_true_iff; split
  | |- F64.Qlt_bool _ _ = true => apply Qlt_bool_iff
  | |- F64.Qlt_bool _ _ = false => apply Qlt_bool_false_iff
  | |- Qeq_bool _ _ = true => apply Qeq_bool_iff
  end.

Lemma lt_not_nan_l x y : F64.lt x y = true -> F64.isnan x = false.
Proof. destruct x, y; simpl; congruence. Qed.

Lemma lt_not_nan_r x y : F64.lt x y = true -> F64.isnan y = false.
Proof. destruct x, y; simpl; congruence. Qed.

Lemma le_refl x : F64.isnan x = false -> F64.le x x = true.
Proof.
  unfold F64.le. destruct x; simpl; try congruence; intros _.
  rewrite Qeq_bool_refl. apply orb_true_r.
Qed.

Lemma le_trans x y z : F64.le x y = true -> F64.le y z = true -> F64.le x z = true.
Proof.
  unfold F64.le. destruct x, y, z; simpl; intros H1 H2;
    try discriminate; try reflexivity; f64_bool; f64_goal;
    solve [ left; f64_goal; lra | right; f64_goal; lra ].
Qed.

Lemma le_total x y :
  F64.isnan x = false -> F64.isnan y = false -> F64.le x y = true \/ F64.le y x = true.
Proof.
  unfold F64.le. destruct x as [a| | |], y as [b| | |]; simpl; intros Hx Hy;
    try discriminate; auto.
  destruct (Qlt_le_dec a b) as [Hlt|Hle].
  - left. apply orb_true_iff. left. now apply Qlt_bool_iff.
  - right. destruct (Qeq_bool b a) eqn:E; [apply orb_true_r|].
    apply orb_true_iff. left. apply Qlt_bool_iff.
    apply Qeq_bool_neq in E. lra.
Qed.

Lemma not_lt_le x y :
  F64.isnan x = false -> F64.isnan y = false -> F64.lt x y = false -> F64.le y x = true.
Proof.
  unfold F64.le. destruct x as [a| | |], y as [b| | |]; simpl; intros Hx Hy Hlt;
    try discriminate; auto.
  f64_bool. destruct (Qeq_bool b a) eqn:E; [apply orb_true_r|].
  apply orb_true_iff. left. apply Qlt_bool_iff. apply Qeq_bool_neq in E. lra.
Qed.

Lemma lt_le x y : F64.lt x y = true -> F64.le x y = true.
Proof. unfold F64.le. now intros ->. Qed.

Lemma le_antisym x y : F64.le x y = true -> F64.le y x = true -> F64.eqb x y = true.
Proof.
  unfold F64.le. destruct x, y; simpl; intros H1 H2;
    try discriminate; try reflexivity; f64_bool; f64_goal; lra.
Qed.

Lemma le_lt_false x y : F64.le x y = true -> F64.lt y x = false.
Proof.
  unfold F64.le. destruct x, y; simpl; intros H1;
    try discriminate; try reflexivity; f64_bool; f64_goal; lra.
Qed.

Lemma eqb_div x x' y y' :
  F64.eqb x x' = true -> F64.eqb y y' = true -> F64.div x y = F64.div x' y'.
Proof.
  destruct x as [a| | |], x' as [a'| | |]; simpl; try discriminate;
  destruct y as [b| | |], y' as [b'| | |]; simpl; try discriminate;
  intros Hx Hy; try reflexivity; f64_bool.
  - rewrite (Qeqb_comp _ _ Hy _ _ (Qeq_refl 0)), (Qeqb_comp _ _ Hx _ _ (Qeq_refl 0)).
    rewrite (Qlt_bool_proper _ _ (Qeq_refl 0) _ _ Hx).
    destruct (Qeq_bool b' 0) eqn:E; [reflexivity|].
    f_equal. apply Qred_complete. apply Qeq_bool_neq in E.
    rewrite Hx, Hy. reflexivity.
  - now rewrite (Qleb_comp _ _ (Qeq_refl 0) _ _ Hy).
  - now rewrite (Qleb_comp _ _ (Qeq_refl 0) _ _ Hy).
Qed.

Lemma eqb_sym x y : F64.eqb x y = true -> F64.eqb y x = true.
Proof. destruct x, y; simpl; try discriminate; auto. apply Qeq_bool_sym. Qed.

(** ** Minimum and maximum of a series *)

Lemma filter_no_nan (l : list f64) :
  no_nan l -> List.filter (fun x => negb (F64.isnan x)) l = l.
Proof.
  induction 1 as [|x l Hx Hl IH]; simpl; [reflexivity|].
  rewrite Hx. simpl. now rewrite IH.
Qed.

Lemma fold_fmin_spec (xs : list f64) (x : f64) :
  no_nan (x :: xs) ->
  In (fold_left fmin xs x) (x :: xs)
  /\ forall z, In z (x :: xs) -> F64.le (fold_left fmin xs x) z = true.
Proof.
  revert x. induction xs as [|y ys IH]; intros x Hnn.
  - simpl. split; [now left|]. intros z [<-|[]]. apply le_refl. now inversion Hnn.
  - simpl fold_left.
    assert (Hx : F64.isnan x = false) by now inversion Hnn.
    assert (Hy : F64.isnan y = false) by (inversion Hnn as [|? ? ? Hr]; now inversion Hr).
    assert (Hys : no_nan ys) by (inversion Hnn as [|? ? ? Hr]; now inversion Hr).
    assert (Hm : (fmin x y = x \/ fmin x y = y)
                 /\ F64.le (fmin x y) x = true /\ F64.le (fmin x y) y = true).
    { unfold fmin. destruct (F64.lt y x) eqn:E.
      - repeat split; [now right | now apply lt_le | now apply le_refl].
      - repeat split; [now left | now apply le_refl | now apply not_lt_le]. }
    destruct Hm as (Hin & Hmx & Hmy).
    assert (Hnn' : no_nan (fmin x y :: ys)).
    { constructor; [|exact Hys]. destruct Hin as [-> | ->]; assumption. }
    destruct (IH _ Hnn') as [Hmem Hlow]. split.
    + destruct Hmem as [Hm|Hm].
      * rewrite <- Hm. destruct Hin as [-> | ->]; simpl; auto.
      * simpl. auto.
    + intros z [<-|[<-|Hz]].
      * eapply le_trans; [apply Hlow; now left | exact Hmx].
      * eapply le_trans; [apply Hlow; now left | exact Hmy].
      * apply Hlow. now right.
Qed.

Lemma fold_fmax_spec (xs : list f64) (x : f64) :
  no_nan (x :: xs) ->
  In (fold_left fmax xs x) (x :: xs)
  /\ forall z, In z (x :: xs) -> F64.le z (fold_left fmax xs x) = true.
Proof.
  revert x. induction xs as [|y ys IH]; intros x Hnn.
  - simpl. split; [now left|]. intros z [<-|[]]. apply le_refl. now inversion Hnn.
  - simpl fold_left.
    assert (Hx : F64.isnan x = false) by now inversion Hnn.
    assert (Hy : F64.isnan y = false) by (inversion Hnn as [|? ? ? Hr]; now inversion Hr).
    assert (Hys : no_nan ys) by (inversion Hnn as [|? ? ? Hr]; now inversion Hr).
    assert (Hm : (fmax x y = x \/ fmax x y = y)
                 /\ F64.le x (fmax x y) = true /\ F64.le y (fmax x y) = true).
    { unfold fmax. destruct (F64.lt x y) eqn:E.
      - repeat split; [now right | now apply lt_le | now apply le_refl].
      - repeat split; [now left | now apply le_refl | now apply not_lt_le]. }
    destruct Hm as (Hin & Hmx & Hmy).
    assert (Hnn' : no_nan (fmax x y :: ys)).
    { constructor; [|exact Hys]. destruct Hin as [-> | ->]; assumption. }
    destruct (IH _ Hnn') as [Hmem Hup]. split.
    + destruct Hmem as [Hm|Hm].
      * rewrite <- Hm. destruct Hin as [-> | ->]; simpl; auto.
      * simpl. auto.
    + intros z [<-|[<-|Hz]].
      * eapply le_trans; [exact Hmx | apply Hup; now left].
      * eapply le_trans; [exact Hmy | apply Hup; now left].
      * apply Hup. now right.
Qed.

Lemma series_min_spec (l : list f64) :
  no_nan l -> l <> [] ->
  In (series_min l) l /\ forall z, In z l -> F64.le (series_min l) z = true.
Proof.
  intros Hnn Hne. unfold series_min. rewrite filter_no_nan by assumption.
  destruct l as [|x xs]; [congruence|]. now apply fold_fmin_spec.
Qed.

Lemma series_max_spec (l : list f64) :
  no_nan l -> l <> [] ->
  In (series_max l) l /\ forall z, In z l -> F64.le z (series_max l) = true.
Proof.
  intros Hnn Hne. unfold series_max. rewrite filter_no_nan by assumption.
  destruct l as [|x xs]; [congruence|]. now apply fold_fmax_spec.
Qed.

(** ** C6: the axis-scale decision *)

Section LogScale.
Context `{PyConv}.

Lemma positive_data_positive series_data x :
  In x (positive_data series_data) -> F64.gt x 0%Q = true.
Proof. unfold positive_data. intros Hin. now apply filter_In in Hin. Qed.

Lemma positive_data_no_nan series_data : no_nan (positive_data series_data).
Proof.
  apply List.Forall_forall. intros x Hin. apply positive_data_positive in Hin.
  unfold F64.gt in Hin. now apply lt_not_nan_r in Hin.
Qed.

Lemma log_scale_iff (series_data : list cell) :
  apply_log_scale_if_needed series_data = true
  <-> ratio_exceeds (positive_data series_data) 20%Q.
Proof.
  unfold apply_log_scale_if_needed. fold (positive_data series_data).
  pose proof (positive_data_no_nan series_data) as Hnn.
  pose proof (positive_data_positive series_data) as Hpos.
  set (pos := positive_data series_data) in *.
  destruct pos as [|p ps] eqn:Epos.
  { simpl. split; [discriminate|]. intros (mn & _ & [] & _). }
  rewrite <- Epos in *.
  assert (Hne : pos <> []) by (rewrite Epos; discriminate).
  destruct (series_min_spec pos Hnn Hne) as [Hmin_in Hmin_low].
  destruct (series_max_spec pos Hnn Hne) as [Hmax_in Hmax_up].
  replace (negb (length pos =? 0)%nat) with true
    by (rewrite Epos; reflexivity).
  split.
  - intros Hb. apply andb_true_iff in Hb. destruct Hb as [_ Hratio].
    exists (series_min pos), (series_max pos). repeat split; auto.
  - intros (mn & mx & Hmn & Hmx & Hbounds & Hratio).
    rewrite (Hpos _ Hmax_in), (Hpos _ Hmin_in). simpl.
    assert (Emin : F64.eqb (series_min pos) mn = true).
    { apply le_antisym; [now apply Hmin_low | now apply Hbounds]. }
    assert (Emax : F64.eqb (series_max pos) mx = true).
    { apply le_antisym; [now apply Hbounds | now apply Hmax_up]. }
    now rewrite (eqb_div _ _ _ _ Emax Emin).
Qed.

(** On a series of rationals the decision reads: some strictly positive
    value exists, and the largest of them is more than twenty times the
    smallest. *)
Lemma log_scale_rationals (qs : list Q) :
  apply_log_scale_if_needed (map (fun q => VNum (Fin q)) qs) = true
  <-> exists mn mx : Q,
        In mn qs /\ In mx qs /\ (0 < mn)%Q
        /\ (forall x, In x qs -> (0 < x)%Q -> (mn <= x)%Q /\ (x <= mx)%Q)
        /\ (20 < mx / mn)%Q.
Proof.
  rewrite log_scale_iff. unfold ratio_exceeds, positive_data, to_numeric.
  rewrite map_map. simpl.
  assert (Hin : forall y, In y (List.filter (fun x => F64.gt x 0%Q) (map Fin qs))
                          <-> exists q, y = Fin q /\ In q qs /\ (0 < q)%Q).
  { intros y. rewrite filter_In, in_map_iff. split.
    - intros [(q & <- & Hq) Hg]. exists q. repeat split; auto.
      unfold F64.gt in Hg. simpl in Hg. now apply Qlt_bool_iff.
    - intros (q & -> & Hq & Hpos). split; [now exists q|].
      unfold F64.gt. simpl. now apply Qlt_bool_iff. }
  assert (Hle : forall a b : Q, F64.le (Fin a) (Fin b) = true <-> (a <= b)%Q).
  { intros a b. unfold F64.le. simpl. rewrite orb_true_iff, Qlt_bool_iff, Qeq_bool_iff.
    split; [intros [?|?]; lra|]. intros Hab.
    destruct (Qlt_le_dec a b); [now left|right; lra]. }
  split.
  - intros (mn & mx & Hmn & Hmx & Hb & Hr).
    apply Hin in Hmn. destruct Hmn as (qn & -> & Hqn & Hpn).
    apply Hin in Hmx. destruct Hmx as (qx & -> & Hqx & Hpx).
    exists qn, qx. repeat split; auto.
    + apply Hle. apply Hb. apply Hin. now exists x.
    + apply Hle. apply Hb. apply Hin. now exists x.
    + unfold F64.gt in Hr. simpl in Hr.
      destruct (Qeq_bool qn 0) eqn:E.
      { apply Qeq_bool_iff in E. lra. }
      simpl in Hr. apply Qlt_bool_iff in Hr. now rewrite Qred_correct in Hr.
  - intros (qn & qx & Hqn & Hqx & Hpn & Hb & Hr).
    assert (Hpx : (0 < qx)%Q) by (destruct (Hb qn Hqn Hpn); lra).
    exists (Fin qn), (Fin qx). repeat split.
    + apply Hin. now exists qn.
    + apply Hin. now exists qx.
    + apply Hin in H0. destruct H0 as (q & -> & Hq & Hp). apply Hle. now apply Hb.
    + apply Hin in H0. destruct H0 as (q & -> & Hq & Hp). apply Hle. now apply Hb.
    + unfold F64.gt. simpl.
      destruct (Qeq_bool qn 0) eqn:E.
      { apply Qeq_bool_iff in E. lra. }
      simpl. apply Qlt_bool_iff. now rewrite Qred_correct.
Qed.


End LogScale.

(** ** Sorting: permutation and order of [nargsort_desc] *)

Lemma StronglySorted_rev {A : Type} (R : A -> A -> Prop) (l : list A) :
  StronglySorted R l -> StronglySorted (flip R) (rev l).
Proof.
  induction 1 as [|x l Hl IH Hx]; simpl; [constructor|].
  apply StronglySorted_app. split; [|split].
  - intros x1 x2 H1 H2. apply list_elem_of_In in H1. apply in_rev in H1.
    apply list_elem_of_In in H2. destruct H2 as [<-|[]].
    unfold flip. rewrite List.Forall_forall in Hx. now apply Hx.
  - exact IH.
  - repeat constructor.
Qed.

Lemma filter_seq_nth {A : Type} (p : A -> bool) (d : A) (l : list A) (start : nat) :
  map (fun i => nth (i - start) l d)
      (List.filter (fun i => p (nth (i - start) l d)) (seq start (length l)))
  = List.filter p l.
Proof.
  revert start. induction l as [|x l IH]; intros start; [reflexivity|].
  simpl seq. simpl List.filter. rewrite Nat.sub_diag. simpl nth.
  assert (Hshift : forall (f : nat -> bool) (g : nat -> A),
             (forall i, (S start <= i)%nat -> f i = p (nth (i - S start) l d)) ->
             (forall i, (S start <= i)%nat -> g i = nth (i - S start) l d) ->
             map g (List.filter f (seq (S start) (length l))) = List.filter p l).
  { intros f g Hf Hg. rewrite <- (IH (S start)).
    assert (Hext : List.filter f (seq (S start) (length l))
                   = List.filter (fun i => p (nth (i - S start) l d)) (seq (S start) (length l))).
    { apply filter_ext_in. intros i Hi. apply in_seq in Hi. apply Hf. lia. }
    rewrite Hext. apply map_ext_in. intros i Hi. apply filter_In in Hi.
    destruct Hi as [Hi _]. apply in_seq in Hi. apply Hg. lia. }
  destruct (p x).
  - simpl. rewrite Nat.sub_diag. simpl. f_equal. apply Hshift.
    + intros i Hi. replace (i - start)%nat with (S (i - S start)) by lia. reflexivity.
    + intros i Hi. replace (i - start)%nat with (S (i - S start)) by lia. reflexivity.
  - apply Hshift.
    + intros i Hi. replace (i - start)%nat with (S (i - S start)) by lia. reflexivity.
    + intros i Hi. replace (i - start)%nat with (S (i - S start)) by lia. reflexivity.
Qed.

Lemma filter_seq_nth0 {A : Type} (p : A -> bool) (d : A) (l : list A) :
  map (fun i => nth i l d) (List.filter (fun i => p (nth i l d)) (seq 0 (length l)))
  = List.filter p l.
Proof.
  rewrite <- (filter_seq_nth p d l 0).
  rewrite (filter_ext (fun i => p (nth (i - 0) l d)) (fun i => p (nth i l d)))
    by (intros i; now rewrite Nat.sub_0_r).
  apply map_ext. intros i. now rewrite Nat.sub_0_r.
Qed.

Lemma filter_all_true {A : Type} (l : list A) : List.filter (fun _ => true) l = l.
Proof. induction l as [|x l IH]; simpl; [reflexivity | now rewrite IH]. Qed.

Lemma map_nth_seq0 {A : Type} (d : A) (l : list A) :
  map (fun i => nth i l d) (seq 0 (length l)) = l.
Proof.
  pose proof (filter_seq_nth0 (fun _ => true) d l) as Hf.
  now rewrite !filter_all_true in Hf.
Qed.

Lemma nth_map_in_range {A B : Type} (f : A -> B) (l : list A) (k : nat) (d : A) (d' : B) :
  (k < length l)%nat -> nth k (map f l) d' = f (nth k l d).
Proof.
  intros Hk. rewrite (nth_indep _ d' (f d)) by (now rewrite length_map).
  apply map_nth.
Qed.

Lemma take_rows_in_range {A : Type} (d : A) (l : list A) (indexer : list nat) :
  List.Forall (fun i => (i < length l)%nat) indexer ->
  take_rows l indexer = map (fun i => nth i l d) indexer.
Proof.
  induction 1 as [|i rest Hi Hrest IH]; simpl; [reflexivity|].
  destruct (lookup_lt_is_Some_2 l i Hi) as [x Hx].
  rewrite Hx, IH. f_equal. symmetry. now apply nth_lookup_Some.
Qed.

Lemma take_rows_Permutation {A : Type} (l : list A) (ix ix' : list nat) :
  Permutation ix ix' -> Permutation (take_rows l ix) (take_rows l ix').
Proof.
  induction 1 as [|i ix ix' Hp IH|i j ix|ix1 ix2 ix3 H1 IH1 H2 IH2]; simpl.
  - constructor.
  - destruct (l !! i); [now constructor | exact IH].
  - destruct (l !! i), (l !! j); try reflexivity. apply perm_swap.
  - now transitivity (take_rows l ix2).
Qed.

Lemma seq_in_range (n : nat) : List.Forall (fun i => (i < n)%nat) (seq 0 n).
Proof. apply List.Forall_forall. intros i Hi. apply in_seq in Hi. lia. Qed.

Lemma Permutation_in_range (n : nat) (ix : list nat) :
  Permutation ix (seq 0 n) -> List.Forall (fun i => (i < n)%nat) ix.
Proof.
  intros Hp. apply List.Forall_forall. intros i Hi.
  apply (Permutation_in _ Hp) in Hi. apply in_seq in Hi. lia.
Qed.

Lemma take_rows_seq {A : Type} (l : list A) : take_rows l (seq 0 (length l)) = l.
Proof.
  destruct l as [|d l']; [reflexivity|].
  rewrite (take_rows_in_range d) by apply seq_in_range.
  apply map_nth_seq0.
Qed.

Lemma take_rows_perm_of_seq {A : Type} (l : list A) (ix : list nat) :
  Permutation ix (seq 0 (length l)) -> Permutation (take_rows l ix) l.
Proof.
  intros Hp. transitivity (take_rows l (seq 0 (length l))).
  - now apply take_rows_Permutation.
  - now rewrite take_rows_seq.
Qed.

Lemma StronglySorted_impl {A : Type} (R1 R2 : A -> A -> Prop) (l : list A) :
  (forall a b, R1 a b -> R2 a b) -> StronglySorted R1 l -> StronglySorted R2 l.
Proof.
  intros Himp. induction 1 as [|x l Hl IH Hx]; constructor; [exact IH|].
  eapply List.Forall_impl; [|exact Hx]. intros b. apply Himp.
Qed.

Lemma all_nan_sorted (l : list f64) :
  List.Forall (fun b => F64.isnan b = true) l -> StronglySorted ge_na_last l.
Proof.
  induction 1 as [|x l Hx Hl IH]; constructor; [exact IH|].
  eapply List.Forall_impl; [|exact Hl]. intros b Hb. now left.
Qed.

Section SortingFacts.
Context `{ArgSort}.

Lemma key_le_trans (keys : list f64) : Relations_1.Transitive (key_le keys).
Proof. intros i j k. unfold key_le. apply le_trans. Qed.

Lemma argsort_in_range (keys : list f64) :
  List.Forall (fun k => (k < length keys)%nat) (argsort keys).
Proof. apply Permutation_in_range, argsort_perm. Qed.

(** The ascending keys along [argsort]. *)
Lemma argsort_keys_ascending (keys : list f64) :
  no_nan keys ->
  StronglySorted (fun a b => F64.le a b = true)
                 (map (fun k => nth k keys NaN) (argsort keys)).
Proof.
  intros Hnn.
  apply (StronglySorted_fmap (fun k => nth k keys NaN) (key_le keys)); [auto|].
  apply Sorted.Sorted_StronglySorted; [apply key_le_trans | now apply argsort_sorted].
Qed.

Lemma mask_filter_nan (items : list f64) :
  List.filter (fun i => nth i (map F64.isnan items) false) (seq 0 (length items))
  = List.filter (fun i => F64.isnan (nth i items NaN)) (seq 0 (length items)).
Proof.
  apply filter_ext_in. intros i Hi. apply in_seq in Hi.
  apply nth_map_in_range. lia.
Qed.

Lemma mask_filter_non_nan (items : list f64) :
  List.filter (fun i => negb (nth i (map F64.isnan items) false)) (seq 0 (length items))
  = List.filter (fun i => negb (F64.isnan (nth i items NaN))) (seq 0 (length items)).
Proof.
  apply filter_ext_in. intros i Hi. apply in_seq in Hi.
  f_equal. apply nth_map_in_range. lia.
Qed.

Lemma non_nan_no_nan (items : list f64) :
  no_nan (List.filter (fun x => negb (F64.isnan x)) items).
Proof.
  apply List.Forall_forall. intros x Hx. apply filter_In in Hx.
  destruct Hx as [_ Hx]. now apply negb_true_iff in Hx.
Qed.

Lemma no_nan_rev (l : list f64) : no_nan l -> no_nan (rev l).
Proof. unfold no_nan. apply Forall_rev. Qed.

(** The keys along the positions that [nargsort_desc] returns. *)
Lemma nargsort_desc_keys (items : list f64) :
  map (fun i => nth i items NaN) (nargsort_desc items)
  = rev (map (fun k => nth k (rev (List.filter (fun x => negb (F64.isnan x)) items)) NaN)
             (argsort (rev (List.filter (fun x => negb (F64.isnan x)) items))))
    ++ map (fun i => nth i items NaN)
           (List.filter (fun i => F64.isnan (nth i items NaN)) (seq 0 (length items))).
Proof.
  unfold nargsort_desc. rewrite map_app, mask_filter_nan, mask_filter_non_nan.
  f_equal. rewrite map_rev. f_equal. rewrite map_map.
  set (nn := List.filter (fun x => negb (F64.isnan x)) items).
  set (nidx := List.filter (fun i => negb (F64.isnan (nth i items NaN))) (seq 0 (length items))).
  assert (Hmap : map (fun i => nth i items NaN) nidx = nn)
    by apply (filter_seq_nth0 (fun x => negb (F64.isnan x))).
  assert (Hrev : map (fun i => nth i items NaN) (rev nidx) = rev nn)
    by (now rewrite map_rev, Hmap).
  apply map_ext_in. intros k Hk.
  pose proof (argsort_in_range (rev nn)) as Hr. rewrite List.Forall_forall in Hr.
  specialize (Hr k Hk).
  rewrite <- Hrev.
  symmetry. apply (nth_map_in_range (fun i => nth i items NaN) (rev nidx) k 0%nat NaN).
  rewrite <- Hrev, length_map in Hr. exact Hr.
Qed.

(** The result is a permutation of the positions. *)
Lemma nargsort_desc_perm (items : list f64) :
  Permutation (nargsort_desc items) (seq 0 (length items)).
Proof.
  unfold nargsort_desc. rewrite mask_filter_nan, mask_filter_non_nan.
  set (nn := List.filter (fun x => negb (F64.isnan x)) items).
  set (nidx := List.filter (fun i => negb (F64.isnan (nth i items NaN))) (seq 0 (length items))).
  set (nanidx := List.filter (fun i => F64.isnan (nth i items NaN)) (seq 0 (length items))).
  assert (Hlen : length (rev nn) = length (rev nidx)).
  { rewrite !length_rev. unfold nn, nidx.
    rewrite <- (filter_seq_nth0 (fun x => negb (F64.isnan x)) NaN items).
    now rewrite length_map. }
  assert (Hix : Permutation (map (fun k => nth k (rev nidx) 0%nat) (argsort (rev nn))) (rev nidx)).
  { transitivity (map (fun k => nth k (rev nidx) 0%nat) (seq 0 (length (rev nidx)))).
    - apply Permutation_map. rewrite <- Hlen. apply argsort_perm.
    - now rewrite map_nth_seq0. }
  rewrite <- Permutation_rev, Hix, <- Permutation_rev.
  unfold nidx, nanidx.
  generalize (seq 0 (length items)). intros l.
  induction l as [|i l IH]; simpl; [constructor|].
  destruct (F64.isnan (nth i items NaN)); simpl.
  - rewrite <- Permutation_middle. now constructor.
  - now constructor.
Qed.

(** Descending keys, the missing ones last. *)
Lemma nargsort_desc_sorted (items : list f64) :
  StronglySorted ge_na_last (map (fun i => nth i items NaN) (nargsort_desc items)).
Proof.
  rewrite nargsort_desc_keys.
  set (nn := List.filter (fun x => negb (F64.isnan x)) items).
  apply StronglySorted_app. split; [|split].
  - intros a b _ Hb. left. apply list_elem_of_In, in_map_iff in Hb.
    destruct Hb as (i & <- & Hi). now apply filter_In in Hi.
  - apply (StronglySorted_impl (flip (fun a b => F64.le a b = true))).
    + intros a b Hab. now right.
    + apply StronglySorted_rev, argsort_keys_ascending, no_nan_rev, non_nan_no_nan.
  - apply all_nan_sorted. apply List.Forall_forall. intros b Hb.
    apply in_map_iff in Hb. destruct Hb as (i & <- & Hi). now apply filter_In in Hi.
Qed.

(** [sort_desc] permutes its rows and orders their keys. *)
Lemma sort_desc_perm {A : Type} (key : A -> f64) (l : list A) :
  Permutation (sort_desc key l) l.
Proof.
  unfold sort_desc. apply take_rows_perm_of_seq.
  rewrite <- (length_map key l). apply nargsort_desc_perm.
Qed.

Lemma sort_desc_keys {A : Type} (key : A -> f64) (l : list A) :
  map key (sort_desc key l)
  = map (fun i => nth i (map key l) NaN) (nargsort_desc (map key l)).
Proof.
  unfold sort_desc.
  pose proof (Permutation_in_range _ _ (nargsort_desc_perm (map key l))) as Hr.
  rewrite length_map in Hr.
  destruct l as [|d l'].
  { simpl in *. destruct (nargsort_desc []) as [|i ix]; [reflexivity|].
    inversion Hr; lia. }
  rewrite (take_rows_in_range d) by exact Hr.
  rewrite map_map. apply map_ext_in. intros i Hi.
  rewrite List.Forall_forall in Hr. specialize (Hr i Hi).
  symmetry. now apply nth_map_in_range.
Qed.

Lemma sort_desc_sorted {A : Type} (key : A -> f64) (l : list A) :
  StronglySorted ge_na_last (map key (sort_desc key l)).
Proof. rewrite sort_desc_keys. apply nargsort_desc_sorted. Qed.

End SortingFacts.

(** ** Two sorts that meet the contract *)

Section InsertionSort.
Variable before : f64 -> f64 -> bool.
Hypothesis before_true : forall x y,
  F64.isnan x = false -> F64.isnan y = false -> before x y = true -> F64.le x y = true.
Hypothesis before_false : forall x y,
  F64.isnan x = false -> F64.isnan y = false -> before x y = false -> F64.le y x = true.

Lemma insert_idx_perm (keys : list f64) (i : nat) (sorted : list nat) :
  Permutation (insert_idx before keys i sorted) (i :: sorted).
Proof.
  induction sorted as [|j rest IH]; simpl; [reflexivity|].
  destruct (before _ _); [reflexivity|].
  rewrite IH. apply perm_swap.
Qed.

Lemma fold_insert_perm (keys : list f64) (l acc : list nat) :
  Permutation (fold_left (fun acc i => insert_idx before keys i acc) l acc) (l ++ acc).
Proof.
  revert acc. induction l as [|i l IH]; intros acc; simpl; [reflexivity|].
  rewrite IH, insert_idx_perm. symmetry. apply Permutation_middle.
Qed.

Lemma insertion_argsort_perm (keys : list f64) :
  Permutation (insertion_argsort before keys) (seq 0 (length keys)).
Proof. unfold insertion_argsort. rewrite fold_insert_perm. now rewrite app_nil_r. Qed.

Lemma nth_no_nan (keys : list f64) (i : nat) :
  no_nan keys -> (i < length keys)%nat -> F64.isnan (nth i keys NaN) = false.
Proof.
  intros Hnn Hi. unfold no_nan in Hnn. rewrite List.Forall_forall in Hnn.
  apply Hnn. now apply nth_In.
Qed.

Lemma insert_idx_sorted (keys : list f64) (i : nat) (sorted : list nat) :
  no_nan keys -> (i < length keys)%nat ->
  List.Forall (fun j => (j < length keys)%nat) sorted ->
  Sorted (key_le keys) sorted ->
  Sorted (key_le keys) (insert_idx before keys i sorted).
Proof.
  intros Hnn Hi Hr Hs. induction Hs as [|j rest Hrest IH Hhd]; simpl.
  - repeat constructor.
  - assert (Hj : (j < length keys)%nat) by now inversion Hr.
    assert (Hr' : List.Forall (fun j => (j < length keys)%nat) rest) by now inversion Hr.
    destruct (before (nth i keys NaN) (nth j keys NaN)) eqn:E.
    + constructor; [now constructor|]. constructor.
      unfold key_le. apply before_true; auto using nth_no_nan.
    + constructor; [now apply IH|].
      destruct rest as [|j' rest']; simpl.
      * constructor. unfold key_le. apply before_false; auto using nth_no_nan.
      * destruct (before _ (nth j' keys NaN)).
        -- constructor. unfold key_le. apply before_false; auto using nth_no_nan.
        -- constructor. now inversion Hhd.
Qed.

Lemma fold_insert_sorted (keys : list f64) (l acc : list nat) :
  no_nan keys ->
  List.Forall (fun j => (j < length keys)%nat) l ->
  List.Forall (fun j => (j < length keys)%nat) acc ->
  Sorted (key_le keys) acc ->
  Sorted (key_le keys) (fold_left (fun acc i => insert_idx before keys i acc) l acc).
Proof.
  intros Hnn. revert acc. induction l as [|i l IH]; intros acc Hl Hacc Hs; simpl; [exact Hs|].
  assert (Hi : (i < length keys)%nat) by now inversion Hl.
  apply IH.
  - now inversion Hl.
  - apply List.Forall_forall. intros j Hj.
    apply (Permutation_in _ (insert_idx_perm keys i acc)) in Hj.
    destruct Hj as [<-|Hj]; [exact Hi|].
    rewrite List.Forall_forall in Hacc. now apply Hacc.
  - now apply insert_idx_sorted.
Qed.

Lemma insertion_argsort_sorted (keys : list f64) :
  no_nan keys -> Sorted (key_le keys) (insertion_argsort before keys).
Proof.
  intros Hnn. unfold insertion_argsort.
  apply fold_insert_sorted; [exact Hnn | apply seq_in_range | constructor | constructor].
Qed.

End InsertionSort.

Lemma lt_before_true x y :
  F64.isnan x = false -> F64.isnan y = false -> F64.lt x y = true -> F64.le x y = true.
Proof. intros _ _. apply lt_le. Qed.

Lemma le_before_false x y :
  F64.isnan x = false -> F64.isnan y = false -> F64.le x y = false -> F64.le y x = true.
Proof.
  intros Hx Hy Hle. destruct (le_total x y Hx Hy) as [Hl|Hl]; [congruence | exact Hl].
Qed.

(** An insertion sort that keeps equal keys in the order of their
    positions. *)
#[local] Instance stable_sort : ArgSort := {|
  argsort := insertion_argsort F64.lt;
  argsort_perm := insertion_argsort_perm F64.lt;
  argsort_sorted := insertion_argsort_sorted F64.lt lt_before_true not_lt_le
|}.

(** An insertion sort that puts each position before the equal keys already
    placed: equal keys come out in reverse. *)
#[local] Instance tie_reversing_sort : ArgSort := {|
  argsort := insertion_argsort F64.le;
  argsort_perm := insertion_argsort_perm F64.le;
  argsort_sorted := insertion_argsort_sorted F64.le (fun x y _ _ H => H) le_before_false
|}.

(** ** With pairwise different keys the contract fixes the result *)

Lemma distinct_keys_nth (keys : list f64) (i j : nat) :
  distinct_keys keys = true ->
  (i < length keys)%nat -> (j < length keys)%nat ->
  F64.eqb (nth i keys NaN) (nth j keys NaN) = true -> i = j.
Proof.
  revert i j. induction keys as [|x rest IH]; intros i j Hd Hi Hj He; simpl in *; [lia|].
  apply andb_true_iff in Hd. destruct Hd as [Hx Hd]. apply negb_true_iff in Hx.
  assert (Hno : forall k, (k < length rest)%nat -> F64.eqb x (nth k rest NaN) = false).
  { intros k Hk. destruct (F64.eqb x (nth k rest NaN)) eqn:E; [|reflexivity].
    assert (Hex : existsb (F64.eqb x) rest = true).
    { apply existsb_exists. exists (nth k rest NaN). split; [now apply nth_In | exact E]. }
    congruence. }
  destruct i as [|i], j as [|j]; try reflexivity.
  - rewrite Hno in He by lia. discriminate.
  - apply eqb_sym in He. rewrite Hno in He by lia. discriminate.
  - f_equal. apply IH; auto; lia.
Qed.

Lemma argsort_unique (S1 S2 : ArgSort) (keys : list f64) :
  no_nan keys -> distinct_keys keys = true ->
  @argsort S1 keys = @argsort S2 keys.
Proof.
  intros Hnn Hd.
  apply (StronglySorted_unique_strong (key_le keys)).
  - intros i j Hi Hj Hij Hji.
    apply list_elem_of_In in Hi, Hj.
    pose proof (Permutation_in_range _ _ (@argsort_perm S1 keys)) as H1.
    pose proof (Permutation_in_range _ _ (@argsort_perm S2 keys)) as H2.
    rewrite List.Forall_forall in H1, H2.
    apply (distinct_keys_nth keys); auto.
    now apply le_antisym.
  - apply Sorted.Sorted_StronglySorted; [apply key_le_trans | now apply argsort_sorted].
  - apply Sorted.Sorted_StronglySorted; [apply key_le_trans | now apply argsort_sorted].
  - rewrite (@argsort_perm S1 keys). symmetry. apply argsort_perm.
Qed.

Lemma nargsort_desc_unique (S1 S2 : ArgSort) (items : list f64) :
  distinct_keys (rev (List.filter (fun x => negb (F64.isnan x)) items)) = true ->
  @nargsort_desc S1 items = @nargsort_desc S2 items.
Proof.
  intros Hd. unfold nargsort_desc.
  rewrite (argsort_unique S1 S2); [reflexivity | | exact Hd].
  apply no_nan_rev, non_nan_no_nan.
Qed.

Lemma sort_desc_unique {A : Type} (S1 S2 : ArgSort) (key : A -> f64) (l : list A) :
  distinct_keys (rev (List.filter (fun x => negb (F64.isnan x)) (map key l))) = true ->
  @sort_desc S1 A key l = @sort_desc S2 A key l.
Proof. intros Hd. unfold sort_desc. now rewrite (nargsort_desc_unique S1 S2). Qed.

Lemma sorted_no_missing (l : list f64) :
  no_nan l -> StronglySorted ge_na_last l ->
  StronglySorted (fun a b => F64.le b a = true) l.
Proof.
  intros Hnn Hs. induction Hs as [|x l Hl IH Hx]; constructor.
  - apply IH. now inversion Hnn.
  - inversion Hnn as [|? ? _ Hnl]; subst.
    unfold no_nan in Hnl. rewrite List.Forall_forall in Hx, Hnl |- *.
    intros b Hb. destruct (Hx b Hb) as [Hnan|Hle]; [|exact Hle].
    rewrite (Hnl b Hb) in Hnan. discriminate.
Qed.

(** ** C3: the overall ranking *)

Section OverallRanking.
Context `{ArgSort}.

Lemma head_length {A : Type} (n : nat) (l : list A) : length (head n l) = Nat.min n (length l).
Proof. unfold head. apply length_firstn. Qed.

Lemma head_sorted {A : Type} (R : A -> A -> Prop) (n : nat) (l : list A) :
  StronglySorted R l -> StronglySorted R (head n l).
Proof.
  unfold head. intros Hs.
  rewrite <- (firstn_skipn n l) in Hs. now apply StronglySorted_app in Hs.
Qed.

Lemma ranked_head_sorted {A : Type} (key : A -> f64) (n : nat) (l : list A) :
  StronglySorted ge_na_last (map key (head n (sort_desc key l))).
Proof.
  unfold head. rewrite <- firstn_map. apply (head_sorted _ n), sort_desc_sorted.
Qed.

Lemma ranked_head_length {A : Type} (key : A -> f64) (n : nat) (l : list A) :
  length (head n (sort_desc key l)) = Nat.min n (length l).
Proof.
  rewrite head_length. f_equal. apply Permutation_length, sort_desc_perm.
Qed.


End OverallRanking.

(** ** Stability *)

Lemma lt_trans_le x y z : F64.lt x y = true -> F64.le y z = true -> F64.lt x z = true.
Proof.
  unfold F64.le. destruct x, y, z; simpl; intros H1 H2;
    try discriminate; try reflexivity; f64_bool; f64_goal; lra.
Qed.

Lemma lt_eqb_false x y : F64.lt x y = true -> F64.eqb y x = false.
Proof.
  destruct x, y; simpl; intros H1; try discriminate; try reflexivity.
  f64_bool. destruct (Qeq_bool q0 q) eqn:E; [|reflexivity]. f64_bool. lra.
Qed.

Lemma eqb_le x y : F64.eqb x y = true -> F64.le x y = true.
Proof. unfold F64.le. intros ->. apply orb_true_r. Qed.

Lemma key_lt_stable_le keys i j : key_lt_stable keys i j -> key_le keys i j.
Proof. intros [Hlt|[He _]]; [now apply lt_le | now apply eqb_le]. Qed.

Lemma StronglySorted_map_in {A B : Type} (f : A -> B) (R1 : A -> A -> Prop)
  (R2 : B -> B -> Prop) (l : list A) :
  (forall x y, In x l -> In y l -> R1 x y -> R2 (f x) (f y)) ->
  StronglySorted R1 l -> StronglySorted R2 (map f l).
Proof.
  intros Himp Hs. induction Hs as [|x l Hl IH Hx]; simpl; constructor.
  - apply IH. intros a b Ha Hb. apply Himp; now right.
  - rewrite List.Forall_forall in Hx |- *. intros b Hb.
    apply in_map_iff in Hb. destruct Hb as (y & <- & Hy).
    apply Himp; [now left | now right | now apply Hx].
Qed.

Lemma StronglySorted_nth {A : Type} (R : A -> A -> Prop) (d : A) (l : list A) (k k' : nat) :
  StronglySorted R l -> (k < k')%nat -> (k' < length l)%nat ->
  R (nth k l d) (nth k' l d).
Proof.
  intros Hs. revert k k'. induction Hs as [|x l Hl IH Hx]; intros k k' Hk Hk'; simpl in *; [lia|].
  destruct k' as [|k']; [lia|]. destruct k as [|k].
  - rewrite List.Forall_forall in Hx. apply Hx. apply nth_In. lia.
  - apply IH; lia.
Qed.

Lemma StronglySorted_lookup {A : Type} (R : A -> A -> Prop) (l : list A) (a b : nat) (x y : A) :
  StronglySorted R l -> (a < b)%nat -> l !! a = Some x -> l !! b = Some y -> R x y.
Proof.
  intros Hs Hab Ha Hb.
  rewrite <- (nth_lookup_Some l a x x Ha), <- (nth_lookup_Some l b x y Hb).
  apply StronglySorted_nth; [exact Hs | exact Hab | now apply lookup_lt_Some in Hb].
Qed.

Lemma filter_seq_increasing (f : nat -> bool) (start len : nat) :
  StronglySorted Nat.lt (List.filter f (seq start len)).
Proof.
  revert start. induction len as [|len IH]; intros start; simpl; [constructor|].
  destruct (f start); [|apply IH].
  constructor; [apply IH|].
  apply List.Forall_forall. intros j Hj. apply filter_In in Hj. destruct Hj as [Hj _].
  apply in_seq in Hj. unfold Nat.lt. lia.
Qed.

Section StableInsertion.

Lemma insert_idx_stable (keys : list f64) (i : nat) (acc : list nat) :
  no_nan keys -> (i < length keys)%nat ->
  List.Forall (fun j => (j < i)%nat) acc ->
  StronglySorted (key_lt_stable keys) acc ->
  StronglySorted (key_lt_stable keys) (insert_idx F64.lt keys i acc).
Proof.
  intros Hnn Hi Hlt Hs. induction Hs as [|j rest Hrest IH Hj]; simpl.
  - repeat constructor.
  - assert (Hji : (j < i)%nat) by now inversion Hlt.
    assert (Hlt' : List.Forall (fun j => (j < i)%nat) rest) by now inversion Hlt.
    destruct (F64.lt (nth i keys NaN) (nth j keys NaN)) eqn:E.
    + constructor; [now constructor|]. constructor; [now left|].
      rewrite List.Forall_forall in Hj |- *. intros r Hr. left.
      eapply lt_trans_le; [exact E|]. apply key_lt_stable_le. now apply Hj.
    + constructor; [now apply IH|].
      apply List.Forall_forall. intros r Hr.
      apply (Permutation_in _ (insert_idx_perm F64.lt keys i rest)) in Hr.
      destruct Hr as [<-|Hr].
      * assert (Hle : F64.le (nth j keys NaN) (nth i keys NaN) = true).
        { apply not_lt_le; [apply nth_no_nan; auto | apply nth_no_nan; auto; lia | exact E]. }
        unfold F64.le in Hle. apply orb_true_iff in Hle. destruct Hle as [Hl|He].
        -- now left.
        -- right. split; [exact He | exact Hji].
      * rewrite List.Forall_forall in Hj. now apply Hj.
Qed.

Lemma fold_insert_stable (keys : list f64) (len start : nat) (acc : list nat) :
  no_nan keys -> (start + len <= length keys)%nat ->
  List.Forall (fun j => (j < start)%nat) acc ->
  StronglySorted (key_lt_stable keys) acc ->
  StronglySorted (key_lt_stable keys)
    (fold_left (fun acc i => insert_idx F64.lt keys i acc) (seq start len) acc).
Proof.
  intros Hnn. revert start acc. induction len as [|len IH]; intros start acc Hb Hacc Hs;
    simpl; [exact Hs|].
  apply IH.
  - lia.
  - apply List.Forall_forall. intros j Hj.
    apply (Permutation_in _ (insert_idx_perm F64.lt keys start acc)) in Hj.
    destruct Hj as [<-|Hj]; [lia|].
    rewrite List.Forall_forall in Hacc. specialize (Hacc j Hj). lia.
  - apply insert_idx_stable; auto. lia.
Qed.

Lemma stable_sort_is_stable : Stable stable_sort.
Proof.
  intros keys Hnn. simpl. unfold insertion_argsort.
  apply fold_insert_stable; [exact Hnn | simpl; lia | constructor | constructor].
Qed.

End StableInsertion.

Section StableRanking.
Context (S : ArgSort).
Hypothesis S_stable : Stable S.

Lemma eqb_nan_r x y : F64.isnan y = true -> F64.eqb x y = false.
Proof. destruct x, y; simpl; congruence. Qed.

Lemma nargsort_desc_ties_sorted (items : list f64) :
  StronglySorted (ties_rel items) (nargsort_desc items).
Proof.
  unfold nargsort_desc. rewrite mask_filter_nan, mask_filter_non_nan.
  set (nn := List.filter (fun x => negb (F64.isnan x)) items).
  set (nidx := List.filter (fun i => negb (F64.isnan (nth i items NaN))) (seq 0 (length items))).
  set (nanidx := List.filter (fun i => F64.isnan (nth i items NaN)) (seq 0 (length items))).
  assert (Hmap : map (fun i => nth i items NaN) nidx = nn)
    by apply (filter_seq_nth0 (fun x => negb (F64.isnan x))).
  assert (Hrev : map (fun i => nth i items NaN) (rev nidx) = rev nn)
    by (now rewrite map_rev, Hmap).
  assert (Hlen : length (rev nidx) = length (rev nn))
    by (now rewrite <- Hrev, length_map).
  assert (Hdec : StronglySorted (flip Nat.lt) (rev nidx))
    by apply StronglySorted_rev, filter_seq_increasing.
  assert (Hnan : forall j, In j nanidx -> F64.isnan (nth j items NaN) = true).
  { intros j Hj. now apply filter_In in Hj. }
  apply StronglySorted_app. split; [|split].
  - intros i j _ Hj He. apply list_elem_of_In in Hj.
    rewrite (eqb_nan_r _ _ (Hnan j Hj)) in He. discriminate.
  - rewrite <- (rev_involutive (rev (map _ _))).
    apply (StronglySorted_impl (flip (flip (ties_rel items)))); [auto|].
    apply StronglySorted_rev. rewrite rev_involutive.
    apply (StronglySorted_map_in _ (key_lt_stable (rev nn))).
    + intros k k' Hk Hk' Hst.
      pose proof (argsort_in_range (rev nn)) as Hr. rewrite List.Forall_forall in Hr.
      pose proof (Hr k Hk) as Hkr. pose proof (Hr k' Hk') as Hkr'.
      rewrite <- Hlen in Hkr, Hkr'.
      assert (Hkey : forall m, (m < length (rev nidx))%nat ->
                 nth (nth m (rev nidx) 0%nat) items NaN = nth m (rev nn) NaN).
      { intros m Hm. rewrite <- Hrev. symmetry.
        now apply (nth_map_in_range (fun i => nth i items NaN) (rev nidx) m 0%nat NaN). }
      unfold flip, ties_rel. rewrite !Hkey by assumption. intros He.
      destruct Hst as [Hlt|[_ Hkk]].
      * rewrite (lt_eqb_false _ _ Hlt) in He. discriminate.
      * apply (StronglySorted_nth _ 0%nat _ k k' Hdec Hkk Hkr').
    + apply S_stable. apply no_nan_rev, non_nan_no_nan.
  - clear -Hnan. induction nanidx as [|j rest IH]; constructor.
    + apply IH. intros j' Hj'. apply Hnan. now right.
    + apply List.Forall_forall. intros j' Hj' He.
      rewrite (eqb_nan_r _ _ (Hnan j' (or_intror Hj'))) in He. discriminate.
Qed.

Lemma ranking_ties (n : nat) (keys : list f64) :
  ties_keep_input_order keys (ranking_indexer n keys).
Proof.
  intros a b i j Hab Ha Hb.
  apply (StronglySorted_lookup (ties_rel keys) (ranking_indexer n keys) a b i j); auto.
  unfold ranking_indexer. apply head_sorted, nargsort_desc_ties_sorted.
Qed.

End StableRanking.

(** ** C4: ties in the ranking *)

Lemma take_rows_head {A : Type} (l : list A) (n : nat) (ix : list nat) :
  List.Forall (fun i => (i < length l)%nat) ix ->
  take_rows l (head n ix) = head n (take_rows l ix).
Proof.
  intros Hr. destruct l as [|d l'].
  { destruct ix as [|i ix]; [now destruct n|]. inversion Hr; simpl in *; lia. }
  unfold head.
  rewrite (take_rows_in_range d) by (now apply Forall_take).
  rewrite (take_rows_in_range d) by exact Hr.
  symmetry. apply firstn_map.
Qed.

Lemma ranking_rows `{ArgSort} {A : Type} (key : A -> f64) (n : nat) (l : list A) :
  head n (sort_desc key l) = take_rows l (ranking_indexer n (map key l)).
Proof.
  unfold sort_desc, ranking_indexer. symmetry. apply take_rows_head.
  rewrite <- (length_map key l). apply Permutation_in_range, nargsort_desc_perm.
Qed.

(** With a sort that reverses ties, the batch ranking of A 50, B 50 puts B
    first. *)
Example ranking_ties_reversed :
  bars_of_rows (rows (@GraphStats.df_top_n tie_reversing_sort tied_stats))
  = [ {| bar_label := VStr "B"; bar_value := 50%Q; bar_counts := None |};
      {| bar_label := VStr "A"; bar_value := 50%Q; bar_counts := None |} ].
Proof. vm_compute. reflexivity. Qed.




Example ranking_ties_kept :
  bars_of_rows (rows (@GraphStats.df_top_n stable_sort tied_stats))
  = [ {| bar_label := VStr "A"; bar_value := 50%Q; bar_counts := None |};
      {| bar_label := VStr "B"; bar_value := 50%Q; bar_counts := None |} ].
Proof. vm_compute. reflexivity. Qed.

(** ** Grouping *)

Lemma assign_map (c : string) (g : gmap string cell -> cell) (rs : list (gmap string cell)) :
  assign c rs (map g rs) = map (fun r => <[c := g r]> r) rs.
Proof. induction rs as [|r rs IH]; simpl; [reflexivity | now rewrite IH]. Qed.

Section GroupingFacts.
Context `{PyConv}.

Lemma rows_coerce_fill_col (c : string) (v : f64) (df : DataFrame) :
  rows (coerce_fill_col c v df)
  = map (fun r => <[c := VNum (let x := to_numeric_cell (get_cell r c) in
                               if F64.isnan x then v else x)]> r) (rows df).
Proof.
  unfold coerce_fill_col, set_col, fillna, to_numeric, col. cbn [rows].
  rewrite !map_map. apply (assign_map c).
Qed.

Lemma coerce_fill_other (c c' : string) (v : f64) (df : DataFrame) :
  c <> c' ->
  map (fun r => get_cell r c') (rows (coerce_fill_col c v df))
  = map (fun r => get_cell r c') (rows df).
Proof.
  intros Hne. rewrite rows_coerce_fill_col, map_map.
  apply map_ext. intros r. now apply get_cell_insert_ne.
Qed.

Lemma coerce_fill_no_missing (c : string) (v : f64) (df : DataFrame) (r : gmap string cell) :
  F64.isnan v = false ->
  In r (rows (coerce_fill_col c v df)) -> F64.isnan (num_at c r) = false.
Proof.
  intros Hv. rewrite rows_coerce_fill_col. intros Hr.
  apply in_map_iff in Hr. destruct Hr as (r0 & <- & _).
  unfold num_at. rewrite get_cell_insert_eq. simpl.
  destruct (F64.isnan (to_numeric_cell (get_cell r0 c))) eqn:E; [exact Hv | exact E].
Qed.

End GroupingFacts.

Lemma insert_cell_perm (k : cell) (l : list cell) : Permutation (insert_cell k l) (k :: l).
Proof.
  induction l as [|k' l IH]; simpl; [reflexivity|].
  destruct (cell_leb k k'); [reflexivity|]. rewrite IH. apply perm_swap.
Qed.

Lemma sort_cells_perm (l : list cell) : Permutation (sort_cells l) l.
Proof.
  unfold sort_cells. induction l as [|k l IH]; simpl; [reflexivity|].
  rewrite insert_cell_perm. now constructor.
Qed.

Lemma unique_cells_incl (l : list cell) (k : cell) : In k (unique_cells l) -> In k l.
Proof.
  revert k. induction l as [|x l IH]; intros k; simpl; [auto|].
  intros [<-|Hk]; [now left|]. right. apply IH. now apply filter_In in Hk.
Qed.

Lemma cell_eqb_text (s : string) (k : cell) : cell_eqb k (VStr s) = true <-> k = VStr s.
Proof.
  destruct k as [|x|t]; simpl; split; try discriminate.
  - intros He. apply String.eqb_eq in He. now subst.
  - intros [= ->]. apply String.eqb_refl.
Qed.

Lemma unique_cells_text (l : list cell) (s : string) :
  In (VStr s) l -> In (VStr s) (unique_cells l).
Proof.
  induction l as [|x l IH]; simpl; [auto|].
  intros [->|Hin]; [now left|].
  destruct (cell_eqb (VStr s) x) eqn:E.
  - left. destruct x as [|y|t]; simpl in E; try discriminate.
    apply String.eqb_eq in E. now subst.
  - right. apply filter_In. split; [now apply IH|]. now rewrite E.
Qed.

Lemma group_keys_text (ks : list cell) (s : string) :
  In (VStr s) ks -> In (VStr s) (group_keys ks).
Proof.
  intros Hin. unfold group_keys.
  apply (Permutation_in _ (Permutation_sym (sort_cells_perm _))).
  apply unique_cells_text. apply filter_In. split; [exact Hin | reflexivity].
Qed.

Lemma groupby_agg_in (key : string) (rs : list (gmap string cell)) (a : agg_row) :
  In a (groupby_agg key rs) ->
  a = aggregate (agg_key a) (group_rows key (agg_key a) rs)
  /\ In (agg_key a) (map (fun r => get_cell r key) rs).
Proof.
  unfold groupby_agg. intros Ha. apply in_map_iff in Ha.
  destruct Ha as (k & <- & Hk). simpl. split; [reflexivity|].
  unfold group_keys in Hk.
  apply (Permutation_in _ (sort_cells_perm _)) in Hk.
  apply unique_cells_incl in Hk. now apply filter_In in Hk.
Qed.

Lemma groupby_agg_text (key : string) (rs : list (gmap string cell)) (s : string) :
  In (VStr s) (map (fun r => get_cell r key) rs) ->
  In (aggregate (VStr s) (group_rows key (VStr s) rs)) (groupby_agg key rs).
Proof.
  intros Hin. unfold groupby_agg.
  apply (in_map (fun k => aggregate k (group_rows key k rs))).
  now apply group_keys_text.
Qed.

Lemma series_count_le (l : list f64) : (series_count l <= length l)%nat.
Proof. unfold series_count. apply filter_length_le. Qed.

Lemma series_count_all (l : list f64) : no_nan l -> series_count l = length l.
Proof. intros Hnn. unfold series_count. now rewrite filter_no_nan. Qed.

Lemma group_rows_length_le (key : string) (k : cell) (rs : list (gmap string cell)) :
  (length (group_rows key k rs) <= length rs)%nat.
Proof. unfold group_rows. apply filter_length_le. Qed.

Lemma aggregate_count_le (k : cell) (group : list (gmap string cell)) :
  (agg_total_questions (aggregate k group) <= length group)%nat.
Proof.
  simpl. etransitivity; [apply series_count_le|]. now rewrite length_map.
Qed.

Lemma aggregate_count_all (k : cell) (group : list (gmap string cell)) :
  (forall r, In r group -> F64.isnan (num_at "correct" r) = false) ->
  agg_total_questions (aggregate k group) = length group.
Proof.
  intros Hall. simpl. rewrite series_count_all; [apply length_map|].
  apply List.Forall_forall. intros x Hx. apply in_map_iff in Hx.
  destruct Hx as (r & <- & Hr). now apply Hall.
Qed.

(** ** C5: the minimum sample count of the category ranking *)

Section CategoryStats.
Context `{PyConv} `{ArgSort}.

Lemma head_incl {A : Type} (n : nat) (l : list A) (x : A) : In x (head n l) -> In x l.
Proof.
  unfold head. intros Hx. rewrite <- (firstn_skipn n l). apply in_or_app. now left.
Qed.

Lemma ranked_head_incl {A : Type} (key : A -> f64) (n : nat) (l : list A) (x : A) :
  In x (head n (sort_desc key l)) -> In x l.
Proof.
  intros Hx. apply head_incl in Hx. now apply (Permutation_in _ (sort_desc_perm key l)).
Qed.

Lemma sort_desc_nil {A : Type} (key : A -> f64) : sort_desc key [] = [].
Proof.
  apply Permutation_nil. symmetry. apply sort_desc_perm.
Qed.

Lemma batch_model_agg_in (df_runs : DataFrame) (category : string) (a : agg_row) :
  In a (GraphStats.model_agg df_runs category) ->
  (GraphStats.MIN_QUESTIONS_FOR_CATEGORY_PLOT <= agg_total_questions a)%nat
  /\ a = aggregate (agg_key a) (group_rows "model_id" (agg_key a) (category_rows df_runs category)).
Proof.
  unfold GraphStats.model_agg. intros Ha. apply filter_In in Ha. destruct Ha as [Ha Hmin].
  split; [now apply Nat.leb_le|].
  now apply groupby_agg_in in Ha.
Qed.

Lemma batch_model_agg_few (df_runs : DataFrame) (category : string) :
  (length (category_rows df_runs category) < GraphStats.MIN_QUESTIONS_FOR_CATEGORY_PLOT)%nat ->
  GraphStats.model_agg df_runs category = [].
Proof.
  intros Hfew. destruct (GraphStats.model_agg df_runs category) as [|a l] eqn:E; [reflexivity|].
  assert (Ha : In a (GraphStats.model_agg df_runs category)) by (rewrite E; now left).
  apply batch_model_agg_in in Ha. destruct Ha as [Hmin Hagg].
  pose proof (aggregate_count_le (agg_key a)
                (group_rows "model_id" (agg_key a) (category_rows df_runs category))) as Hle.
  rewrite <- Hagg in Hle.
  pose proof (group_rows_length_le "model_id" (agg_key a) (category_rows df_runs category)).
  lia.
Qed.

(** C5. In the batch category chart no (model, category) pair is ranked
    with fewer samples than MIN_QUESTIONS_FOR_CATEGORY_PLOT (= 3): every
    row of [df_sorted], and every bar of every chart the function saves,
    carries a sample count of at least 3, and that count is the number of
    runs of the model in the category.  A category with fewer than 3 runs
    has an empty ranking; with two "Math" samples the function saves no
    chart and prints that there is not enough data. *)
Theorem category_ranking_min_samples :
  (forall (df_runs : DataFrame) (category : string) (a : agg_row),
     In a (GraphStats.df_sorted (coerce_fill_col "correct" 0%Q df_runs) category) ->
     (GraphStats.MIN_QUESTIONS_FOR_CATEGORY_PLOT <= agg_total_questions a)%nat
     /\ agg_total_questions a
        = length (group_rows "model_id" (agg_key a)
                    (category_rows (coerce_fill_col "correct" 0%Q df_runs) category)))
  /\ (forall (df_runs : DataFrame) (category : string),
        (length (category_rows df_runs category)
         < GraphStats.MIN_QUESTIONS_FOR_CATEGORY_PLOT)%nat ->
        GraphStats.df_sorted df_runs category = [])
  /\ (forall (df_runs df_model_stats : DataFrame) (categories_to_plot : list string)
             (name : string) (bars : list bar) (b : bar),
        In (SavePlot (BarChart name bars))
           (emitted (snd (GraphStats.plot_top_models_for_specific_categories
                            df_runs categories_to_plot df_model_stats))) ->
        In b bars ->
        exists correct total,
          bar_counts b = Some (correct, total)
          /\ (GraphStats.MIN_QUESTIONS_FOR_CATEGORY_PLOT <= total)%nat)
  /\ GraphStats.df_sorted (coerce_fill_col "correct" 0%Q math_two_samples) "Math" = []
  /\ snd (GraphStats.plot_top_models_for_specific_categories math_two_samples ["Math"] abc_stats)
     = returned [Print "Not enough model data (after MIN_QUESTIONS_FOR_CATEGORY_PLOT) for category 'Math'."].
Proof.
  split; [|split; [|split; [|split]]].
  - intros df_runs category a Ha.
    unfold GraphStats.df_sorted in Ha. apply ranked_head_incl in Ha.
    apply batch_model_agg_in in Ha. destruct Ha as [Hmin Hagg]. split; [exact Hmin|].
    rewrite Hagg at 1. apply aggregate_count_all.
    intros r Hr. unfold group_rows, category_rows in Hr.
    apply filter_In in Hr. destruct Hr as [Hr _]. apply filter_In in Hr. destruct Hr as [Hr _].
    now apply (coerce_fill_no_missing "correct" 0%Q df_runs).
  - intros df_runs category Hfew. unfold GraphStats.df_sorted.
    rewrite (batch_model_agg_few _ _ Hfew), sort_desc_nil. reflexivity.
  - intros df_runs df_model_stats cats name bars b Hev Hb.
    unfold GraphStats.plot_top_models_for_specific_categories in Hev.
    destruct (df_empty df_runs); [destruct Hev|].
    destruct (negb (forallb _ _)); [destruct Hev|].
    cbn [snd emitted returned] in Hev.
    apply in_flat_map in Hev. destruct Hev as (category & _ & Hev).
    unfold GraphStats.plot_one_category in Hev.
    repeat match type of Hev with
           | In _ (if ?c then _ else _) => destruct c
           end;
      try (destruct Hev as [Hev|[]]; discriminate).
    destruct Hev as [Hev|[]]. injection Hev as _ <-.
    unfold bars_of_agg in Hb. apply in_map_iff in Hb. destruct Hb as (a & <- & Ha).
    exists (agg_correct_answers a), (agg_total_questions a). split; [reflexivity|].
    unfold GraphStats.df_sorted in Ha. apply ranked_head_incl in Ha.
    now apply batch_model_agg_in in Ha.
  - unfold GraphStats.df_sorted.
    rewrite batch_model_agg_few; [now rewrite sort_desc_nil|].
    vm_compute. lia.
  - vm_compute. reflexivity.
Qed.

End CategoryStats.

(** ** C10: a selection is shown in full *)

Ltac event_cases H :=
  simpl in H;
  repeat match type of H with
         | _ \/ _ => destruct H as [H|H]
         | False => destruct H
         end;
  try discriminate.

Section Selection.
Context `{PyConv} `{ArgSort}.

Lemma truthy_cons (s : string) (sel : list string) : IGraphStats.truthy (Some (s :: sel)) = true.
Proof. reflexivity. Qed.

Lemma truthy_nonempty (sel : list string) : sel <> [] -> IGraphStats.truthy (Some sel) = true.
Proof. destruct sel; [congruence | reflexivity]. Qed.

Lemma isin_text (sel : list string) (s : string) : In s sel -> isin sel (VStr s) = true.
Proof.
  intros Hs. unfold isin. apply existsb_exists. exists s. split; [exact Hs|].
  simpl. apply String.eqb_refl.
Qed.

Lemma overall_chart_bars (df : DataFrame) (top_n : nat) (sel : option (list string)) (c : chart) :
  In (ShowPlot c) (emitted (IGraphStats.plot_overall_model_correctness_bar df top_n sel)) ->
  c = BarChart "overall_model_correctness_bar"
               (bars_of_rows (rows (IGraphStats.overall_df_sorted df top_n sel))).
Proof.
  unfold IGraphStats.plot_overall_model_correctness_bar.
  repeat match goal with
         | |- In _ (emitted (if ?b then _ else _)) -> _ => destruct b
         end; intros Hc; event_cases Hc.
  now injection Hc as <-.
Qed.

Lemma category_chart_bars (df_runs df_model_stats : DataFrame) (categories : list string)
  (sel : option (list string)) (c : chart) :
  In (ShowPlot c)
     (emitted (snd (IGraphStats.plot_top_models_for_specific_categories
                      df_runs categories df_model_stats sel))) ->
  exists category rest,
    categories = category :: rest
    /\ c = BarChart ("category_" +:+ category +:+ "_models_bar")
                    (bars_of_agg (IGraphStats.category_df_sorted
                                    (coerce_fill_col "correct" 0%Q df_runs) category sel)).
Proof.
  unfold IGraphStats.plot_top_models_for_specific_categories.
  destruct (df_empty df_runs); [intros Hc; event_cases Hc|].
  destruct (negb (forallb _ _)); [intros Hc; event_cases Hc|].
  destruct categories as [|category rest]; [intros Hc; event_cases Hc|].
  repeat match goal with
         | |- In _ (emitted (snd (if ?b then _ else _))) -> _ => destruct b
         end; intros Hc; event_cases Hc.
  exists category, rest. split; [reflexivity|]. now injection Hc as <-.
Qed.

Lemma selected_model_ranked (df_runs : DataFrame) (category : string)
  (sel : list string) (s : string) (r : gmap string cell) :
  In s sel -> In r (rows df_runs) ->
  get_cell r "category" = VStr category -> get_cell r "model_id" = VStr s ->
  exists a,
    In a (IGraphStats.category_df_sorted (coerce_fill_col "correct" 0%Q df_runs)
                                         category (Some sel))
    /\ agg_key a = VStr s.
Proof.
  intros Hs Hr Hcat Hmod.
  set (runs := coerce_fill_col "correct" 0%Q df_runs).
  set (r' := <["correct" := VNum (let x := to_numeric_cell (get_cell r "correct") in
                                  if F64.isnan x then Fin 0 else x)]> r).
  assert (Hr' : In r' (rows runs)).
  { unfold runs. rewrite rows_coerce_fill_col. unfold r'.
    apply in_map_iff. exists r. split; [reflexivity | exact Hr]. }
  assert (Hcat' : get_cell r' "category" = VStr category)
    by (unfold r'; now rewrite get_cell_insert_ne).
  assert (Hmod' : get_cell r' "model_id" = VStr s)
    by (unfold r'; now rewrite get_cell_insert_ne).
  assert (Hsel : IGraphStats.truthy (Some sel) = true).
  { apply truthy_nonempty. intros ->. destruct Hs. }
  set (data := rows (IGraphStats.df_category_data runs category (Some sel))).
  assert (Hdata : In r' data).
  { unfold data, IGraphStats.df_category_data, IGraphStats.select_models.
    rewrite Hsel. cbn [rows df_filter IGraphStats.selection].
    apply filter_In. split.
    - apply filter_In. split; [exact Hr'|]. rewrite Hcat'. simpl. apply String.eqb_refl.
    - rewrite Hmod'. now apply isin_text. }
  assert (Hnn : forall x, In x data -> F64.isnan (num_at "correct" x) = false).
  { intros x Hx. apply (coerce_fill_no_missing "correct" 0%Q df_runs); [reflexivity|].
    unfold data, IGraphStats.df_category_data, IGraphStats.select_models in Hx.
    rewrite Hsel in Hx. cbn [rows df_filter] in Hx.
    apply filter_In in Hx. destruct Hx as [Hx _]. now apply filter_In in Hx. }
  exists (aggregate (VStr s) (group_rows "model_id" (VStr s) data)).
  split; [|reflexivity].
  unfold IGraphStats.category_df_sorted. rewrite Hsel. cbn [negb].
  apply (Permutation_in _ (Permutation_sym (sort_desc_perm _ _))).
  unfold IGraphStats.model_agg. fold data. apply filter_In. split.
  - apply groupby_agg_text. rewrite <- Hmod'.
    now apply (in_map (fun r => get_cell r "model_id")).
  - apply Nat.leb_le. rewrite aggregate_count_all.
    + assert (Hg : In r' (group_rows "model_id" (VStr s) data)).
      { unfold group_rows. apply filter_In. split; [exact Hdata|].
        rewrite Hmod'. simpl. apply String.eqb_refl. }
      destruct (group_rows "model_id" (VStr s) data); [destruct Hg | simpl; unfold IGraphStats.MIN_QUESTIONS_FOR_CATEGORY_PLOT; lia].
    + intros x Hx. apply Hnn. unfold group_rows in Hx. now apply filter_In in Hx.
Qed.


End Selection.

(** Three models are selected and [top_n] is 2: all three are drawn. *)
Example selection_beyond_top_n :
  @IGraphStats.plot_overall_model_correctness_bar stable_sort abc_stats 2 (Some ["A"; "B"; "C"])
  = returned [ShowPlot (BarChart "overall_model_correctness_bar"
                [ {| bar_label := VStr "C"; bar_value := 90%Q; bar_counts := None |};
                  {| bar_label := VStr "A"; bar_value := 80%Q; bar_counts := None |};
                  {| bar_label := VStr "B"; bar_value := 60%Q; bar_counts := None |} ])].
Proof. vm_compute. reflexivity. Qed.

Example no_selection_top_n :
  @IGraphStats.plot_overall_model_correctness_bar stable_sort abc_stats 2 None
  = returned [ShowPlot (BarChart "overall_model_correctness_bar"
                [ {| bar_label := VStr "C"; bar_value := 90%Q; bar_counts := None |};
                  {| bar_label := VStr "A"; bar_value := 80%Q; bar_counts := None |} ])].
Proof. vm_compute. reflexivity. Qed.

(** ** Quantile buckets *)

Lemma eqb_refl_fin (x : f64) : F64.isnan x = false -> F64.eqb x x = true.
Proof. destruct x; simpl; try congruence; intros _. apply Qeq_bool_refl. Qed.

Lemma eqb_trans x y z : F64.eqb x y = true -> F64.eqb y z = true -> F64.eqb x z = true.
Proof.
  destruct x, y, z; simpl; try discriminate; auto. apply Qeq_bool_trans.
Qed.

Lemma eqb_not_nan_l x y : F64.eqb x y = true -> F64.isnan x = false.
Proof. destruct x, y; simpl; congruence. Qed.

Lemma eqb_not_nan_r x y : F64.eqb x y = true -> F64.isnan y = false.
Proof. destruct x, y; simpl; congruence. Qed.

Lemma le_not_nan_l x y : F64.le x y = true -> F64.isnan x = false.
Proof. unfold F64.le. destruct x, y; simpl; congruence. Qed.

Lemma le_not_nan_r x y : F64.le x y = true -> F64.isnan y = false.
Proof. unfold F64.le. destruct x, y; simpl; congruence. Qed.

Lemma eqb_lt_l x x' y : F64.eqb x x' = true -> F64.lt x y = F64.lt x' y.
Proof.
  destruct x, x', y; simpl; try discriminate; auto. intros He. f64_bool.
  now apply Qlt_bool_proper.
Qed.

Lemma eqb_lt_r x y y' : F64.eqb y y' = true -> F64.lt x y = F64.lt x y'.
Proof.
  destruct x, y, y'; simpl; try discriminate; auto. intros He. f64_bool.
  now apply Qlt_bool_proper.
Qed.

Lemma le_lt_or_eqb x y : F64.le x y = true -> F64.lt x y = true \/ F64.eqb x y = true.
Proof. unfold F64.le. intros Hle. now apply orb_true_iff in Hle. Qed.

Lemma lt_irrefl x : F64.lt x x = false.
Proof.
  destruct x; simpl; try reflexivity. apply Qlt_bool_false_iff. apply Qle_refl.
Qed.

(** *** The sort behind the quantiles *)

Lemma insert_num_perm (x : f64) (l : list f64) : Permutation (insert_num x l) (x :: l).
Proof.
  induction l as [|y l IH]; simpl; [reflexivity|].
  destruct (F64.le x y); [reflexivity|]. rewrite IH. apply perm_swap.
Qed.

Lemma sort_nums_perm (l : list f64) : Permutation (sort_nums l) l.
Proof.
  unfold sort_nums. induction l as [|x l IH]; simpl; [reflexivity|].
  rewrite insert_num_perm. now constructor.
Qed.

Lemma insert_num_sorted (x : f64) (l : list f64) :
  F64.isnan x = false -> no_nan l ->
  StronglySorted (fun a b => F64.le a b = true) l ->
  StronglySorted (fun a b => F64.le a b = true) (insert_num x l).
Proof.
  intros Hx Hnn Hs. induction Hs as [|y l Hl IH Hy]; simpl.
  - repeat constructor.
  - assert (Hyn : F64.isnan y = false) by now inversion Hnn.
    assert (Hnl : no_nan l) by now inversion Hnn.
    destruct (F64.le x y) eqn:E.
    + constructor; [now constructor|]. constructor; [exact E|].
      rewrite List.Forall_forall in Hy |- *. intros z Hz.
      eapply le_trans; [exact E | now apply Hy].
    + constructor; [now apply IH|].
      apply List.Forall_forall. intros z Hz.
      apply (Permutation_in _ (insert_num_perm x l)) in Hz.
      destruct Hz as [<-|Hz].
      * destruct (le_total x y Hx Hyn) as [Hl'|Hl']; [congruence | exact Hl'].
      * rewrite List.Forall_forall in Hy. now apply Hy.
Qed.

Lemma sort_nums_sorted (l : list f64) :
  no_nan l -> StronglySorted (fun a b => F64.le a b = true) (sort_nums l).
Proof.
  unfold sort_nums. induction 1 as [|x l Hx Hl IH]; simpl; [constructor|].
  apply insert_num_sorted; [exact Hx | | exact IH].
  apply List.Forall_forall. intros z Hz.
  apply (Permutation_in _ (sort_nums_perm l)) in Hz.
  unfold no_nan in Hl. rewrite List.Forall_forall in Hl. now apply Hl.
Qed.

(** *** Finite values *)

Lemma finite_not_nan (x : f64) : finite x -> F64.isnan x = false.
Proof. intros [q ->]. reflexivity. Qed.

Lemma all_finite_no_nan (l : list f64) : List.Forall finite l -> no_nan l.
Proof. apply List.Forall_impl. apply finite_not_nan. Qed.

Lemma interpolate_between (a b f : Q) :
  exists r : Q,
    F64.add (Fin a) (F64.mul (F64.sub (Fin b) (Fin a)) (Fin f)) = Fin r
    /\ (r == a + (b - a) * f)%Q.
Proof.
  eexists. split; [reflexivity|]. simpl.
  rewrite !Qred_correct. ring.
Qed.

(** *** Distinct edges *)

Lemma unique_nums_incl (l : list f64) (x : f64) : In x (unique_nums l) -> In x l.
Proof.
  revert x. induction l as [|y l IH]; intros x; simpl; [auto|].
  intros [<-|Hx]; [now left|]. right. apply IH. now apply filter_In in Hx.
Qed.

Lemma unique_nums_length (l : list f64) : (length (unique_nums l) <= length l)%nat.
Proof.
  induction l as [|y l IH]; simpl; [lia|].
  pose proof (filter_length_le (fun y0 => negb (F64.eqb y0 y)) (unique_nums l)). lia.
Qed.

Lemma unique_nums_keeps (l : list f64) (x : f64) :
  In x l -> F64.isnan x = false ->
  exists y, In y (unique_nums l) /\ F64.eqb y x = true.
Proof.
  induction l as [|z l IH]; simpl; [intros []|].
  intros [->|Hx] Hnn.
  - exists x. split; [now left | now apply eqb_refl_fin].
  - destruct (IH Hx Hnn) as (y & Hy & Hyx).
    destruct (F64.eqb y z) eqn:E.
    + exists z. split; [now left|].
      apply eqb_trans with y; [now apply eqb_sym | exact Hyx].
    + exists y. split; [|exact Hyx]. right. apply filter_In. split; [exact Hy|].
      now rewrite E.
Qed.

Lemma unique_nums_head (l : list f64) (d : f64) : nth 0 (unique_nums l) d = nth 0 l d.
Proof. destruct l; reflexivity. Qed.

Lemma unique_nums_all_equal (x : f64) (l : list f64) :
  List.Forall (fun y => F64.eqb y x = true) l -> unique_nums (x :: l) = [x].
Proof.
  intros Hall. simpl. f_equal.
  assert (Hnone : forall l', List.Forall (fun y => F64.eqb y x = true) l' ->
             List.filter (fun y => negb (F64.eqb y x)) l' = []).
  { induction 1 as [|y l' Hy Hl' IH]; simpl; [reflexivity|]. now rewrite Hy. }
  apply Hnone. apply List.Forall_forall. intros y Hy.
  apply unique_nums_incl in Hy. rewrite List.Forall_forall in Hall. now apply Hall.
Qed.

(** *** The quantiles of a sorted series of finite values *)

Lemma nth_finite (s : list f64) (i : nat) (d : f64) :
  List.Forall finite s -> finite d -> finite (nth i s d).
Proof.
  intros Hs Hd. destruct (nth_in_or_default i s d) as [Hin| ->]; [|exact Hd].
  rewrite List.Forall_forall in Hs. now apply Hs.
Qed.

Lemma quantile_index_bound (n k q : nat) :
  (1 <= q)%nat -> (k <= q)%nat ->
  (Z.to_nat (Qfloor (inject_Z (Z.of_nat ((n - 1) * k)) / inject_Z (Z.of_nat q))) <= n - 1)%nat.
Proof.
  intros Hq Hk.
  set (h := (inject_Z (Z.of_nat ((n - 1) * k)) / inject_Z (Z.of_nat q))%Q).
  assert (Hqpos : (0 < inject_Z (Z.of_nat q))%Q).
  { rewrite <- (Zlt_Qlt 0). lia. }
  assert (Hh : (h <= inject_Z (Z.of_nat (n - 1)))%Q).
  { unfold h. apply Qle_shift_div_r; [exact Hqpos|].
    rewrite <- inject_Z_mult, <- Zle_Qle. nia. }
  apply Qfloor_resp_le in Hh. rewrite Qfloor_Z in Hh. lia.
Qed.

Lemma quantile_shape (s : list f64) (k q : nat) :
  List.Forall finite s -> s <> [] -> (1 <= q)%nat -> (k <= q)%nat ->
  exists a b f r : Q,
    In (Fin a) s /\ In (Fin b) s
    /\ quantile s k q = Fin r /\ (r == a + (b - a) * f)%Q.
Proof.
  intros Hfin Hne Hq Hk. unfold quantile.
  assert (Hn : (1 <= length s)%nat) by (destruct s; [congruence | simpl; lia]).
  set (n := length s) in *.
  set (h := (inject_Z (Z.of_nat ((n - 1) * k)) / inject_Z (Z.of_nat q))%Q).
  set (lo := Z.to_nat (Qfloor h)).
  assert (Hlo : (lo < n)%nat).
  { pose proof (quantile_index_bound n k q Hq Hk). fold h in H. fold lo in H. lia. }
  assert (Ha : In (nth lo s NaN) s) by now apply nth_In.
  assert (Hfa : finite (nth lo s NaN)).
  { rewrite List.Forall_forall in Hfin. now apply Hfin. }
  destruct Hfa as [a Ea]. rewrite Ea in Ha |- *.
  assert (Hb : In (nth (lo + 1) s (Fin a)) s).
  { destruct (nth_in_or_default (lo + 1) s (Fin a)) as [Hin| ->]; [exact Hin | exact Ha]. }
  assert (Hfb : finite (nth (lo + 1) s (Fin a))).
  { rewrite List.Forall_forall in Hfin. now apply Hfin. }
  destruct Hfb as [b Eb]. rewrite Eb in Hb |- *.
  destruct (interpolate_between a b (h - inject_Z (Qfloor h))) as (r & Er & Hr).
  exists a, b, (h - inject_Z (Qfloor h))%Q, r. auto.
Qed.

Lemma quantile_first (s : list f64) (q : nat) (a : Q) :
  List.Forall finite s -> nth 0 s NaN = Fin a ->
  exists r : Q, quantile s 0 q = Fin r /\ (r == a)%Q.
Proof.
  intros Hfin Ha. unfold quantile.
  rewrite Nat.mul_0_r.
  set (h := (inject_Z (Z.of_nat 0) / inject_Z (Z.of_nat q))%Q).
  assert (Hh : (h == 0)%Q) by (unfold h, Qdiv; apply Qmult_0_l).
  assert (Hf : Qfloor h = 0%Z) by (rewrite (Qfloor_comp _ _ Hh); reflexivity).
  rewrite Hf. change (Z.to_nat 0) with 0%nat.
  rewrite Ha.
  assert (Hfb : finite (nth (0 + 1) s (Fin a))).
  { apply nth_finite; [exact Hfin | now exists a]. }
  destruct Hfb as [b Eb]. rewrite Eb.
  destruct (interpolate_between a b (h - inject_Z 0)) as (r & Er & Hr).
  exists r. split; [exact Er|]. rewrite Hr, Hh. ring.
Qed.

Lemma quantile_last (s : list f64) (q : nat) (a : Q) :
  (1 <= q)%nat -> s <> [] -> nth (length s - 1) s NaN = Fin a ->
  exists r : Q, quantile s q q = Fin r /\ (r == a)%Q.
Proof.
  intros Hq Hne Ha. unfold quantile.
  assert (Hn : (1 <= length s)%nat) by (destruct s; [congruence | simpl; lia]).
  set (n := length s) in *.
  assert (Hh : (inject_Z (Z.of_nat ((n - 1) * q)) / inject_Z (Z.of_nat q)
                == inject_Z (Z.of_nat (n - 1)))%Q).
  { rewrite Nat2Z.inj_mul, inject_Z_mult. field.
    intros Hz. apply (inject_Z_injective (Z.of_nat q) 0) in Hz. lia. }
  rewrite (Qfloor_comp _ _ Hh), Qfloor_Z, Nat2Z.id, Ha.
  replace (nth (n - 1 + 1) s (Fin a)) with (Fin a).
  2:{ symmetry. apply nth_overflow. fold n. lia. }
  destruct (interpolate_between a a
              (inject_Z (Z.of_nat ((n - 1) * q)) / inject_Z (Z.of_nat q)
               - inject_Z (Z.of_nat (n - 1)))) as (r & Er & Hr).
  exists r. split; [exact Er|]. rewrite Hr. ring.
Qed.

(** The edges over a series whose values are all equal are all that
    value. *)
Lemma quantile_all_equal (s : list f64) (k q : nat) (v : Q) :
  List.Forall finite s -> s <> [] -> (1 <= q)%nat -> (k <= q)%nat ->
  (forall y, In y s -> F64.eqb y (Fin v) = true) ->
  F64.eqb (quantile s k q) (Fin v) = true.
Proof.
  intros Hfin Hne Hq Hk Hall.
  destruct (quantile_shape s k q Hfin Hne Hq Hk) as (a & b & f & r & Ha & Hb & -> & Hr).
  pose proof (Hall _ Ha) as Ea. pose proof (Hall _ Hb) as Eb. simpl in *.
  apply Qeq_bool_iff in Ea, Eb. apply Qeq_bool_iff.
  rewrite Hr, Ea, Eb. ring.
Qed.

(** The least and the greatest element of the sorted values. *)
Lemma sorted_first_least (s : list f64) (x : f64) :
  StronglySorted (fun a b => F64.le a b = true) s -> no_nan s -> In x s ->
  F64.le (nth 0 s NaN) x = true.
Proof.
  intros Hs Hnn Hx. destruct Hs as [|y l Hl Hy]; [destruct Hx|]. simpl.
  destruct Hx as [<-|Hx].
  - apply le_refl. now inversion Hnn.
  - rewrite List.Forall_forall in Hy. now apply Hy.
Qed.

Lemma sorted_last_greatest (s : list f64) (x : f64) :
  StronglySorted (fun a b => F64.le a b = true) s -> no_nan s -> In x s ->
  F64.le x (nth (length s - 1) s NaN) = true.
Proof.
  intros Hs Hnn Hx.
  destruct (In_nth s x NaN Hx) as (i & Hi & <-).
  destruct (Nat.eq_dec i (length s - 1)) as [->|Hne].
  - apply le_refl. unfold no_nan in Hnn. rewrite List.Forall_forall in Hnn.
    apply Hnn. apply nth_In. lia.
  - apply (StronglySorted_nth _ NaN s i (length s - 1) Hs); lia.
Qed.

(** *** Buckets *)

Lemma filter_length_lt {A : Type} (p : A -> bool) (l : list A) (y : A) :
  In y l -> p y = false -> (length (List.filter p l) < length l)%nat.
Proof.
  induction l as [|z l IH]; simpl; [intros []|].
  intros [->|Hy] Hp.
  - rewrite Hp. pose proof (filter_length_le p l). lia.
  - specialize (IH Hy Hp). destruct (p z); simpl; lia.
Qed.

Lemma filter_length_pos {A : Type} (p : A -> bool) (l : list A) (y : A) :
  In y l -> p y = true -> (1 <= length (List.filter p l))%nat.
Proof.
  intros Hy Hp. assert (Hin : In y (List.filter p l)) by (apply filter_In; auto).
  destruct (List.filter p l); [destruct Hin | simpl; lia].
Qed.

Lemma filter_length_mono {A : Type} (p p' : A -> bool) (l : list A) :
  (forall y, In y l -> p y = true -> p' y = true) ->
  (length (List.filter p l) <= length (List.filter p' l))%nat.
Proof.
  induction l as [|z l IH]; simpl; [lia|]. intros Himp.
  assert (IH' : (length (List.filter p l) <= length (List.filter p' l))%nat).
  { apply IH. intros y Hy. apply Himp. now right. }
  destruct (p z) eqn:E.
  - rewrite (Himp z (or_introl eq_refl) E). simpl. lia.
  - destruct (p' z); simpl; lia.
Qed.

Lemma nunique_none (l : list (option nat)) :
  (forall o, In o l -> o = None) -> nunique l = 0%nat.
Proof.
  induction l as [|o l IH]; intros Hall; simpl; [reflexivity|].
  rewrite (Hall o (or_introl eq_refl)). apply IH. intros o' Ho'. apply Hall. now right.
Qed.

Lemma nonempty_has_element {A : Type} (l : list A) : l <> [] -> exists v, In v l.
Proof. destruct l as [|v l']; [congruence|]. intros _. exists v. now left. Qed.

Section Buckets.
Variable qs : list Q.
Variable q : nat.
Hypothesis qs_nonempty : qs <> [].
Hypothesis q_positive : (1 <= q)%nat.

Let x : list f64 := map Fin qs.
Let sorted : list f64 := sort_nums x.
Let edges : list f64 := map (fun k => quantile sorted k q) (seq 0 (q + 1)).
Let bins : list f64 := qcut_bins x q.

Lemma x_finite : List.Forall finite x.
Proof.
  apply List.Forall_forall. intros v Hv. apply in_map_iff in Hv.
  destruct Hv as (r & <- & _). now exists r.
Qed.

Lemma x_no_nan : no_nan x.
Proof. apply all_finite_no_nan, x_finite. Qed.

Lemma sorted_perm : Permutation sorted x.
Proof. apply sort_nums_perm. Qed.

Lemma sorted_finite : List.Forall finite sorted.
Proof.
  apply List.Forall_forall. intros v Hv.
  apply (Permutation_in _ sorted_perm) in Hv.
  pose proof x_finite as Hx. rewrite List.Forall_forall in Hx. now apply Hx.
Qed.

Lemma sorted_nonempty : sorted <> [].
Proof.
  intros He. pose proof sorted_perm as Hp. rewrite He in Hp.
  apply Permutation_nil in Hp. unfold x in Hp. destruct qs; [congruence | discriminate].
Qed.

Lemma sorted_ascending : StronglySorted (fun a b => F64.le a b = true) sorted.
Proof. apply sort_nums_sorted, x_no_nan. Qed.

Lemma bins_unfold :
  bins = if (length (unique_nums edges) <? length edges)%nat && negb (length edges =? 2)%nat
         then unique_nums edges else edges.
Proof.
  unfold bins, qcut_bins. rewrite (filter_no_nan x x_no_nan). reflexivity.
Qed.

Lemma edges_length : length edges = (q + 1)%nat.
Proof. unfold edges. now rewrite length_map, length_seq. Qed.

Lemma bins_length : (length bins <= q + 1)%nat.
Proof.
  rewrite bins_unfold, <- edges_length.
  destruct (_ && _); [apply unique_nums_length | lia].
Qed.

Lemma bins_incl (b : f64) : In b bins -> In b edges.
Proof.
  rewrite bins_unfold. destruct (_ && _); [apply unique_nums_incl | auto].
Qed.

Lemma bins_keep (e : f64) :
  In e edges -> F64.isnan e = false -> exists b, In b bins /\ F64.eqb b e = true.
Proof.
  intros He Hn. rewrite bins_unfold. destruct (_ && _).
  - now apply unique_nums_keeps.
  - exists e. split; [exact He | now apply eqb_refl_fin].
Qed.

Lemma bins_head : nth 0 bins NaN = quantile sorted 0 q.
Proof.
  rewrite bins_unfold.
  assert (He : nth 0 edges NaN = quantile sorted 0 q).
  { unfold edges. rewrite Nat.add_1_r. reflexivity. }
  destruct (_ && _); [now rewrite unique_nums_head | exact He].
Qed.

Lemma bins_head_in : In (nth 0 bins NaN) bins.
Proof.
  apply nth_In.
  assert (Hq0 : In (quantile sorted 0 q) edges).
  { unfold edges. apply in_map_iff. exists 0%nat. split; [reflexivity|]. apply in_seq. lia. }
  destruct (quantile_first sorted q) with (a := match nth 0 sorted NaN with Fin a => a | _ => 0%Q end)
    as (r & Er & _).
  - apply sorted_finite.
  - pose proof sorted_finite as Hf. pose proof sorted_nonempty as Hne.
    destruct sorted as [|s0 rest]; [congruence|]. simpl.
    inversion Hf as [|? ? [a ->] _]. reflexivity.
  - destruct (bins_keep _ Hq0) as (b & Hb & _); [now rewrite Er|].
    destruct bins; [destruct Hb | simpl; lia].
Qed.

Lemma least_is_head (m : f64) :
  is_least x m -> F64.eqb m (nth 0 bins NaN) = true.
Proof.
  intros [Hm Hleast]. rewrite bins_head.
  pose proof sorted_finite as Hf. pose proof sorted_nonempty as Hne.
  pose proof sorted_ascending as Hs.
  assert (Hnn : no_nan sorted) by now apply all_finite_no_nan.
  assert (H0 : In (nth 0 sorted NaN) sorted) by (apply nth_In; destruct sorted; [congruence | simpl; lia]).
  assert (Hfa : finite (nth 0 sorted NaN)).
  { rewrite List.Forall_forall in Hf. now apply Hf. }
  destruct Hfa as [a Ea].
  destruct (quantile_first sorted q a Hf Ea) as (r & -> & Hr).
  assert (Hma : F64.eqb m (Fin a) = true).
  { rewrite <- Ea. apply le_antisym.
    - apply Hleast. now apply (Permutation_in _ sorted_perm).
    - apply sorted_first_least; auto.
      now apply (Permutation_in _ (Permutation_sym sorted_perm)). }
  apply eqb_trans with (Fin a); [exact Hma|]. simpl. apply Qeq_bool_iff. now symmetry.
Qed.

Lemma greatest_in_bins (M : f64) :
  is_greatest x M -> exists b, In b bins /\ F64.eqb b M = true.
Proof.
  intros [HM Hgreatest].
  pose proof sorted_finite as Hf. pose proof sorted_nonempty as Hne.
  pose proof sorted_ascending as Hs.
  assert (Hnn : no_nan sorted) by now apply all_finite_no_nan.
  assert (Hl : In (nth (length sorted - 1) sorted NaN) sorted).
  { apply nth_In. destruct sorted; [congruence | simpl; lia]. }
  assert (Hfa : finite (nth (length sorted - 1) sorted NaN)).
  { rewrite List.Forall_forall in Hf. now apply Hf. }
  destruct Hfa as [a Ea].
  destruct (quantile_last sorted q a q_positive Hne Ea) as (r & Er & Hr).
  assert (HaM : F64.eqb (Fin a) M = true).
  { rewrite <- Ea. apply le_antisym.
    - apply Hgreatest. now apply (Permutation_in _ sorted_perm).
    - apply sorted_last_greatest; auto.
      now apply (Permutation_in _ (Permutation_sym sorted_perm)). }
  assert (Hq : In (quantile sorted q q) edges).
  { unfold edges. apply in_map_iff. exists q. split; [reflexivity|]. apply in_seq. lia. }
  destruct (bins_keep _ Hq) as (b & Hb & Hbe); [now rewrite Er|].
  exists b. split; [exact Hb|].
  apply eqb_trans with (quantile sorted q q); [exact Hbe|].
  rewrite Er. apply eqb_trans with (Fin a); [|exact HaM].
  simpl. now apply Qeq_bool_iff.
Qed.

(** Every bucket index is below the number of buckets asked for. *)
Lemma bucket_range (w : f64) (b : nat) :
  bucket_of bins w = Some b -> (b <= q - 1)%nat.
Proof.
  unfold bucket_of. pose proof bins_length as HL.
  set (ids := if F64.eqb w (nth 0 bins NaN) then 1%nat else searchsorted_left bins w).
  destruct (F64.isnan w) eqn:En; [discriminate|]. simpl.
  destruct (ids =? length bins)%nat eqn:E1; [discriminate|]. simpl.
  destruct (ids =? 0)%nat eqn:E0; [discriminate|].
  intros [= <-]. apply Nat.eqb_neq in E1, E0.
  assert (Hids : (ids <= length bins)%nat).
  { unfold ids. destruct (F64.eqb w _).
    - pose proof bins_head_in as Hin. destruct bins; [destruct Hin | simpl; lia].
    - unfold searchsorted_left. rewrite En. apply filter_length_le. }
  lia.
Qed.

Section Spread.
Variables m M : f64.
Hypothesis m_least : is_least x m.
Hypothesis M_greatest : is_greatest x M.
Hypothesis spread : F64.lt m M = true.

Lemma two_bins : (2 <= length bins)%nat.
Proof.
  pose proof bins_head_in as H0. pose proof (least_is_head m m_least) as Hm.
  destruct (greatest_in_bins M M_greatest) as (bM & HbM & HeM).
  destruct bins as [|b0 [|b1 rest]] eqn:E; [destruct H0 | | simpl; lia].
  simpl in Hm. destruct HbM as [<-|[]].
  assert (HmM : F64.eqb m M = true) by (eapply eqb_trans; eauto).
  apply eqb_sym in HmM. rewrite (lt_eqb_false _ _ spread) in HmM. discriminate.
Qed.

Lemma count_below_top (w : f64) :
  In w x -> (length (List.filter (fun b => F64.lt b w) bins) < length bins)%nat.
Proof.
  intros Hw. destruct (greatest_in_bins M M_greatest) as (bM & HbM & HeM).
  apply (filter_length_lt _ _ bM HbM).
  rewrite (eqb_lt_l _ _ _ HeM). apply le_lt_false. now apply M_greatest.
Qed.

Lemma count_above_head (w : f64) :
  In w x -> F64.eqb w (nth 0 bins NaN) = false ->
  (1 <= length (List.filter (fun b => F64.lt b w) bins))%nat.
Proof.
  intros Hw Hne. apply (filter_length_pos _ _ (nth 0 bins NaN) bins_head_in).
  pose proof (least_is_head m m_least) as Hm.
  rewrite <- (eqb_lt_l _ _ _ Hm).
  destruct (le_lt_or_eqb _ _ (proj2 m_least w Hw)) as [Hlt|He]; [exact Hlt|].
  assert (Hw0 : F64.eqb w (nth 0 bins NaN) = true).
  { apply eqb_trans with m; [now apply eqb_sym | exact Hm]. }
  congruence.
Qed.

Lemma bucket_of_value (w : f64) :
  In w x ->
  bucket_of bins w
  = Some (if F64.eqb w (nth 0 bins NaN) then 0%nat
          else (length (List.filter (fun b => F64.lt b w) bins) - 1)%nat).
Proof.
  intros Hw. unfold bucket_of, searchsorted_left.
  assert (Hn : F64.isnan w = false).
  { pose proof x_no_nan as Hx. unfold no_nan in Hx. rewrite List.Forall_forall in Hx. now apply Hx. }
  rewrite Hn. simpl. pose proof two_bins as H2.
  destruct (F64.eqb w (nth 0 bins NaN)) eqn:E.
  - replace (1 =? length bins)%nat with false by (symmetry; apply Nat.eqb_neq; lia).
    reflexivity.
  - pose proof (count_below_top w Hw) as Htop.
    pose proof (count_above_head w Hw E) as Hhead.
    replace (_ =? length bins)%nat with false by (symmetry; apply Nat.eqb_neq; lia).
    replace (_ =? 0)%nat with false by (symmetry; apply Nat.eqb_neq; lia).
    reflexivity.
Qed.

Lemma least_bucket : bucket_of bins m = Some 0%nat.
Proof.
  rewrite (bucket_of_value m (proj1 m_least)).
  now rewrite (least_is_head m m_least).
Qed.

Lemma greatest_bucket :
  bucket_of bins M = Some (length (List.filter (fun b => F64.lt b M) bins) - 1)%nat.
Proof.
  rewrite (bucket_of_value M (proj1 M_greatest)).
  destruct (F64.eqb M (nth 0 bins NaN)) eqn:E; [|reflexivity].
  pose proof (least_is_head m m_least) as Hm.
  assert (HmM : F64.eqb M m = true) by (apply eqb_trans with (nth 0 bins NaN); [exact E | now apply eqb_sym]).
  rewrite (lt_eqb_false _ _ spread) in HmM. discriminate.
Qed.

Lemma bucket_below_greatest (w : f64) :
  In w x ->
  exists b, bucket_of bins w = Some b
            /\ (b <= length (List.filter (fun b => F64.lt b M) bins) - 1)%nat.
Proof.
  intros Hw. rewrite (bucket_of_value w Hw). eexists. split; [reflexivity|].
  destruct (F64.eqb w (nth 0 bins NaN)); [lia|].
  apply Nat.sub_le_mono_r. apply filter_length_mono.
  intros b _ Hb. eapply lt_trans_le; [exact Hb|]. now apply M_greatest.
Qed.

End Spread.

Section AllEqual.
Hypothesis all_equal : forall w w', In w x -> In w' x -> F64.eqb w w' = true.
Hypothesis two_buckets : (2 <= q)%nat.

Lemma bins_single : exists b0, bins = [b0] /\ forall w, In w x -> F64.eqb w b0 = true.
Proof.
  pose proof sorted_finite as Hf. pose proof sorted_nonempty as Hne.
  destruct (nonempty_has_element qs qs_nonempty) as [v0 Hq0].
  assert (Hv0 : In (Fin v0) x) by (unfold x; now apply in_map).
  assert (Hedge : forall k, (k <= q)%nat -> F64.eqb (quantile sorted k q) (Fin v0) = true).
  { intros k Hk. apply quantile_all_equal; auto.
    intros y Hy. apply all_equal; [|exact Hv0].
    now apply (Permutation_in _ sorted_perm). }
  rewrite bins_unfold. unfold edges. rewrite Nat.add_1_r. simpl seq. simpl map.
  set (e0 := quantile sorted 0 q).
  set (tl := map (fun k => quantile sorted k q) (seq 1 q)).
  assert (Htl : List.Forall (fun y => F64.eqb y e0 = true) tl).
  { apply List.Forall_forall. intros y Hy. unfold tl in Hy. apply in_map_iff in Hy.
    destruct Hy as (k & <- & Hk). apply in_seq in Hk.
    apply eqb_trans with (Fin v0); [apply Hedge; lia|].
    apply eqb_sym. apply Hedge. lia. }
  rewrite (unique_nums_all_equal e0 tl Htl).
  assert (Hlen : length tl = q) by (unfold tl; now rewrite length_map, length_seq).
  simpl length. rewrite Hlen.
  replace (1 <? S q)%nat with true by (symmetry; apply Nat.ltb_lt; lia).
  replace (S q =? 2)%nat with false by (symmetry; apply Nat.eqb_neq; lia).
  simpl. exists e0. split; [reflexivity|].
  intros w Hw. apply eqb_trans with (Fin v0); [now apply all_equal|].
  apply eqb_sym. apply Hedge. lia.
Qed.

Lemma no_bucket (w : f64) : In w x -> bucket_of bins w = None.
Proof.
  intros Hw. destruct bins_single as (b0 & -> & Hall).
  unfold bucket_of. simpl. rewrite (Hall w Hw). simpl.
  now rewrite orb_true_r.
Qed.

End AllEqual.

End Buckets.

(** ** C7: quantile buckets *)




(** Five values, five buckets: one value per bucket, least first. *)
Example five_buckets :
  qcut (map Fin [80; 60; 90; 70; 100]%Q) 5 = [Some 2; Some 0; Some 3; Some 1; Some 4]%nat.
Proof. vm_compute. reflexivity. Qed.

(** Repeated edges are dropped: three edges and two buckets are left. *)
Example collapsed_buckets :
  qcut (map Fin [1; 2; 2; 2; 2; 3]%Q) 5 = [Some 0; Some 0; Some 0; Some 0; Some 0; Some 1]%nat.
Proof. vm_compute. reflexivity. Qed.

Example equal_values_no_bucket :
  qcut (map Fin [80; 80]%Q) 5 = [None; None].
Proof. vm_compute. reflexivity. Qed.

(** The batch chart of speed against quality on two models of equal
    quality: a warning, no hue, and the chart is saved all the same. *)
Example equal_quality_chart :
  @GraphStats.plot_speed_vs_quality no_text_numbers same_quality
     "avg_tokens_per_second" "Token Generation Speed"
  = returned
      [ Print "Warning: Could not form quantiles for hue in Token Generation Speed vs Quality plot.";
        SavePlot (ScatterChart "avg_tokens_per_second_vs_quality_labeled"
                    [ {| point_label := VStr "A"; point_x := 20%Q; point_y := 80%Q |};
                      {| point_label := VStr "B"; point_x := 40%Q; point_y := 80%Q |} ]
                    None false false) ].
Proof. vm_compute. reflexivity. Qed.

(** ** C2: a failed load *)

Ltac py_unfold :=
  unfold mbind, mret, Py_bind, Py_ret, bind, ret, throw, try_except, emit, emit_all,
         alloc, read, write, copy, get_globals, set_globals, IGraphStats.modify;
  cbn [fst snd globals heap log].

Section FailedLoad.
Context `{PyConv}.

Lemma fresh_not_in_heap (h : gmap loc DataFrame) : h !! fresh (dom h) = None.
Proof. apply not_elem_of_dom. apply is_fresh. Qed.

Lemma fresh_after_insert (h : gmap loc DataFrame) (l : loc) (df : DataFrame) :
  fresh (dom (<[l := df]> h)) <> l.
Proof.
  intros He. pose proof (fresh_not_in_heap (<[l := df]> h)) as Hf.
  rewrite He, lookup_insert_eq in Hf. discriminate.
Qed.

(** The handler leaves both dataset variables on new empty tables. *)
Lemma load_db_except_dataset (e : string) (s : py_state IGraphStats.app) :
  IGraphStats.dataset (snd (IGraphStats.load_db_except e s))
  = (Some empty_frame, Some empty_frame).
Proof.
  unfold IGraphStats.dataset, IGraphStats.load_db_except. py_unfold.
  cbn [IGraphStats.df_model_stats_global IGraphStats.df_benchmark_runs_global].
  rewrite lookup_insert_eq.
  rewrite lookup_insert_ne by apply fresh_after_insert.
  now rewrite lookup_insert_eq.
Qed.

Lemma load_db_failed (fs : filesystem) (filepath : string) (s : py_state IGraphStats.app) :
  filepath <> "" -> IGraphStats.load_fails fs filepath s ->
  IGraphStats.dataset (snd (IGraphStats.load_db fs filepath s))
  = (Some empty_frame, Some empty_frame).
Proof.
  intros Hp (e & s' & Hfail). unfold IGraphStats.load_db.
  destruct (String.eqb filepath "") eqn:E; [apply String.eqb_eq in E; congruence|].
  unfold mbind, Py_bind, bind, try_except.
  replace (IGraphStats.set_db_path filepath s)
    with (Ok tt, snd (IGraphStats.set_db_path filepath s)) by reflexivity.
  rewrite Hfail. apply load_db_except_dataset.
Qed.

Lemma load_db_cancelled (fs : filesystem) (s : py_state IGraphStats.app) :
  IGraphStats.load_db fs "" s = (Ok tt, s).
Proof. reflexivity. Qed.

(** The ways a load fails: the file cannot be opened, is not a database,
    or lacks one of the two tables (a path with no file is opened as a new,
    empty database and lacks both). *)
Lemma load_fails_on (fs : filesystem) (filepath : string) (s : py_state IGraphStats.app) :
  match fs filepath with
  | None | Some Unopenable | Some Malformed
  | Some (Sqlite None _) | Some (Sqlite (Some _) None) => True
  | Some (Sqlite (Some _) (Some _)) => False
  end ->
  IGraphStats.load_fails fs filepath s.
Proof.
  unfold IGraphStats.load_fails, IGraphStats.load_db_try, IGraphStats.connect.
  destruct (fs filepath) as [[| |[ms|] [br|]]|]; intros Hc; try destruct Hc;
    py_unfold; unfold IGraphStats.read_table; cbn [read_sql_query String.eqb Ascii.eqb Bool.eqb];
    py_unfold; eauto.
Qed.

End FailedLoad.

(** C2, as stated, fails: with a dataset loaded, a load from a file that is
    not a database fails, and afterwards the dataset variables hold empty
    tables, not the tables loaded before. *)
Lemma failed_load_counterexample :
  ~ (forall (conv : PyConv) (fs : filesystem) (filepath : string) (s : py_state IGraphStats.app),
       IGraphStats.load_fails fs filepath s ->
       IGraphStats.dataset (snd (IGraphStats.load_db fs filepath s)) = IGraphStats.dataset s).
Proof.
  intros Hall.
  specialize (Hall no_text_numbers broken_file "broken.db" loaded_session).
  assert (Hf : @IGraphStats.load_fails no_text_numbers broken_file "broken.db" loaded_session).
  { apply load_fails_on. exact I. }
  specialize (Hall Hf). vm_compute in Hall. discriminate.
Qed.

(** C2, amended.  When [load_db] fails (the body of its [try] raises,
    which it does when the file cannot be opened, is not a database or
    lacks a table), the handler binds both dataset variables to new empty
    tables: the dataset loaded before is discarded.  Only a cancelled file
    dialog leaves the state as it was. *)
Theorem failed_load_resets_dataset :
  (forall (conv : PyConv) (fs : filesystem) (filepath : string) (s : py_state IGraphStats.app),
     filepath <> "" -> IGraphStats.load_fails fs filepath s ->
     IGraphStats.dataset (snd (IGraphStats.load_db fs filepath s))
     = (Some empty_frame, Some empty_frame))
  /\ (forall (conv : PyConv) (fs : filesystem) (filepath : string) (s : py_state IGraphStats.app),
        match fs filepath with
        | None | Some Unopenable | Some Malformed
        | Some (Sqlite None _) | Some (Sqlite (Some _) None) => True
        | Some (Sqlite (Some _) (Some _)) => False
        end ->
        IGraphStats.load_fails fs filepath s)
  /\ (forall (conv : PyConv) (fs : filesystem) (s : py_state IGraphStats.app),
        IGraphStats.load_db fs "" s = (Ok tt, s)).
Proof.
  split; [|split].
  - intros conv. apply load_db_failed.
  - intros conv. apply load_fails_on.
  - intros conv. apply load_db_cancelled.
Qed.

(** ** Objects that a computation leaves alone *)

Section Preservation.
Context {G : Type}.

Lemma fresh_other (h : gmap loc DataFrame) (g : loc) (df : DataFrame) :
  h !! g = Some df -> fresh (dom h) <> g.
Proof.
  intros Hg He. pose proof (fresh_not_in_heap h) as Hf. rewrite He in Hf. congruence.
Qed.

Lemma preserves_ret {A : Type} (g : loc) (a : A) : preserves g (ret a : Py G A).
Proof. intros s df Hg. exact Hg. Qed.

Lemma preserves_throw {A : Type} (g : loc) (e : string) : preserves g (throw e : Py G A).
Proof. intros s df Hg. exact Hg. Qed.

Lemma preserves_bind {A B : Type} (g : loc) (m : Py G A) (k : A -> Py G B) :
  preserves g m -> (forall a, preserves g (k a)) -> preserves g (m ≫= k).
Proof.
  intros Hm Hk s df Hg. unfold mbind, Py_bind, bind.
  specialize (Hm s df Hg). destruct (m s) as [[a|e] s']; simpl in *.
  - now apply Hk.
  - exact Hm.
Qed.

Lemma preserves_emit (g : loc) (e : event) : preserves g (emit e : Py G unit).
Proof. intros s df Hg. exact Hg. Qed.

Lemma preserves_emit_all (g : loc) (evs : list event) : preserves g (emit_all evs : Py G unit).
Proof. intros s df Hg. exact Hg. Qed.

Lemma preserves_read (g l : loc) : preserves g (read l : Py G DataFrame).
Proof. intros s df Hg. unfold read. now destruct (heap s !! l). Qed.

Lemma preserves_write (g l : loc) (v : DataFrame) :
  l <> g -> preserves g (write l v : Py G unit).
Proof. intros Hne s df Hg. unfold write. simpl. now rewrite lookup_insert_ne. Qed.

Lemma preserves_get_globals (g : loc) : preserves g (get_globals : Py G G).
Proof. intros s df Hg. exact Hg. Qed.

Lemma preserves_replay (g : loc) (o : outcome) : preserves g (replay o : Py G unit).
Proof.
  unfold replay. apply preserves_bind; [apply preserves_emit_all|].
  intros _. destruct (uncaught o); [apply preserves_throw | apply preserves_ret].
Qed.

Lemma preserves_call (g l : loc) (f : DataFrame -> outcome) : preserves g (call f l : Py G unit).
Proof.
  unfold call. apply preserves_bind; [apply preserves_read|].
  intros df. apply preserves_replay.
Qed.

Lemma preserves_call_runs (g l_runs l_stats : loc)
  (f : DataFrame -> DataFrame -> DataFrame * outcome) :
  l_runs <> g -> preserves g (call_runs f l_runs l_stats : Py G unit).
Proof.
  intros Hne. unfold call_runs.
  apply preserves_bind; [apply preserves_read|]. intros df_runs.
  apply preserves_bind; [apply preserves_read|]. intros df_stats.
  apply preserves_bind; [now apply preserves_write|]. intros _.
  apply preserves_replay.
Qed.

(** The copy is a new object: whatever is done to it next cannot touch
    an object that was there before. *)
Lemma preserves_copy_bind {A : Type} (g l : loc) (k : loc -> Py G A) :
  (forall c, c <> g -> preserves g (k c)) -> preserves g (copy l ≫= k).
Proof.
  intros Hk s df Hg. unfold copy, mbind, Py_bind, bind, read, alloc.
  destruct (heap s !! l) as [d|] eqn:El; simpl; [|exact Hg].
  apply (Hk (fresh (dom (heap s)))); [now apply (fresh_other _ _ df)|].
  simpl. rewrite lookup_insert_ne; [exact Hg | now apply (fresh_other _ _ df)].
Qed.

Lemma keeps_globals_ret {A : Type} (a : A) : keeps_globals (ret a : Py G A).
Proof. intros s. reflexivity. Qed.

Lemma keeps_globals_bind {A B : Type} (m : Py G A) (k : A -> Py G B) :
  keeps_globals m -> (forall a, keeps_globals (k a)) -> keeps_globals (m ≫= k).
Proof.
  intros Hm Hk s. unfold mbind, Py_bind, bind.
  specialize (Hm s). destruct (m s) as [[a|e] s']; simpl in *.
  - now rewrite Hk.
  - exact Hm.
Qed.

Lemma keeps_globals_emit (e : event) : keeps_globals (emit e : Py G unit).
Proof. intros s. reflexivity. Qed.

Lemma keeps_globals_read (l : loc) : keeps_globals (read l : Py G DataFrame).
Proof. intros s. unfold read. now destruct (heap s !! l). Qed.

Lemma keeps_globals_get : keeps_globals (get_globals : Py G G).
Proof. intros s. reflexivity. Qed.

Lemma keeps_globals_copy (l : loc) : keeps_globals (copy l : Py G loc).
Proof.
  intros s. unfold copy, mbind, Py_bind, bind, read, alloc.
  now destruct (heap s !! l).
Qed.

Lemma keeps_globals_replay (o : outcome) : keeps_globals (replay o : Py G unit).
Proof.
  intros s. unfold replay, mbind, Py_bind, bind, emit_all. simpl.
  now destruct (uncaught o).
Qed.

Lemma keeps_globals_call (l : loc) (f : DataFrame -> outcome) :
  keeps_globals (call f l : Py G unit).
Proof.
  unfold call. apply keeps_globals_bind; [apply keeps_globals_read|].
  intros df. apply keeps_globals_replay.
Qed.

Lemma keeps_globals_call_runs (l_runs l_stats : loc)
  (f : DataFrame -> DataFrame -> DataFrame * outcome) :
  keeps_globals (call_runs f l_runs l_stats : Py G unit).
Proof.
  unfold call_runs.
  apply keeps_globals_bind; [apply keeps_globals_read|]. intros df_runs.
  apply keeps_globals_bind; [apply keeps_globals_read|]. intros df_stats.
  apply keeps_globals_bind; [intros s; reflexivity|]. intros _.
  apply keeps_globals_replay.
Qed.

End Preservation.

Ltac preserve :=
  repeat first
    [ apply preserves_call | apply preserves_replay
    | apply preserves_call_runs; assumption
    | apply preserves_emit | apply preserves_read | apply preserves_get_globals
    | apply preserves_ret
    | apply preserves_copy_bind; intros ? ?
    | apply preserves_bind; [|intros ?]
    | match goal with |- preserves _ (if ?b then _ else _) => destruct b end ].

Ltac keep_globals :=
  repeat first
    [ apply keeps_globals_call | apply keeps_globals_call_runs | apply keeps_globals_replay
    | apply keeps_globals_emit | apply keeps_globals_read | apply keeps_globals_get
    | apply keeps_globals_copy | apply keeps_globals_ret
    | apply keeps_globals_bind; [|intros ?]
    | match goal with |- keeps_globals (if ?b then _ else _) => destruct b end ].

Section Callbacks.
Context `{PyConv} `{ArgSort}.

Lemma callbacks_preserve (g : loc) (cb : Py IGraphStats.app unit) :
  In cb IGraphStats.chart_callbacks -> preserves g cb /\ keeps_globals cb.
Proof.
  unfold IGraphStats.chart_callbacks. intros [<-|[<-|[<-|[<-|[<-|[<-|[]]]]]]];
    (split;
     [ unfold IGraphStats.plot_overall_correctness_gui, IGraphStats.plot_speeds_scatter_gui,
              IGraphStats.plot_prompt_speed_quality_gui, IGraphStats.plot_gen_speed_quality_gui,
              IGraphStats.plot_category_heatmap_gui, IGraphStats.plot_category_bar_gui,
              IGraphStats.stats_guard; preserve
     | unfold IGraphStats.plot_overall_correctness_gui, IGraphStats.plot_speeds_scatter_gui,
              IGraphStats.plot_prompt_speed_quality_gui, IGraphStats.plot_gen_speed_quality_gui,
              IGraphStats.plot_category_heatmap_gui, IGraphStats.plot_category_bar_gui,
              IGraphStats.stats_guard; keep_globals ]).
Qed.

Lemma batch_overall_preserves (g l_stats : loc) :
  preserves g (GraphStats.main_overall_plots l_stats).
Proof. unfold GraphStats.main_overall_plots. preserve. Qed.

End Callbacks.

(** ** C9: the dataset after a chart call *)

Lemma bind_ok {G A B : Type} (m : Py G A) (k : A -> Py G B) (s s1 : py_state G) (a : A) :
  m s = (Ok a, s1) -> (m ≫= k) s = k a s1.
Proof. intros Hm. unfold mbind, Py_bind, bind. now rewrite Hm. Qed.

Lemma read_ok {G : Type} (l : loc) (s : py_state G) (df : DataFrame) :
  heap s !! l = Some df -> read l s = (Ok df, s).
Proof. intros Hl. unfold read. now rewrite Hl. Qed.

Section BatchDataset.
Context `{PyConv} `{ArgSort}.

Lemma batch_category_preserves_stats (l_stats l_runs : loc) :
  l_runs <> l_stats ->
  preserves l_stats (GraphStats.main_category_plots l_stats l_runs).
Proof.
  intros Hne. unfold GraphStats.main_category_plots.
  repeat first
    [ apply preserves_call | apply preserves_replay
    | apply preserves_call_runs; assumption
    | apply preserves_write; assumption
    | apply preserves_emit | apply preserves_read | apply preserves_ret
    | apply preserves_copy_bind; intros ? ?
    | apply preserves_bind; [|intros ?]
    | match goal with |- preserves _ (if ?b then _ else _) => destruct b end ].
Qed.

Lemma batch_category_runs (l_stats l_runs : loc) (s : py_state unit) (stats runs : DataFrame) :
  heap s !! l_stats = Some stats -> heap s !! l_runs = Some runs -> l_stats <> l_runs ->
  heap (snd (GraphStats.main_category_plots l_stats l_runs s)) !! l_runs
  = Some (if negb (df_empty runs) && negb (df_empty stats) && has_col runs "category"
          then fill_category runs else runs).
Proof.
  intros Hs Hr Hne. unfold GraphStats.main_category_plots.
  rewrite (bind_ok (emit _) _ s (mkState (globals s) (heap s) (log s ++ [_])) tt) by reflexivity.
  set (s0 := mkState (globals s) (heap s) _).
  rewrite (bind_ok (read l_runs) _ s0 s0 runs) by (now apply read_ok).
  rewrite (bind_ok (read l_stats) _ s0 s0 stats) by (now apply read_ok).
  destruct (negb (df_empty runs) && negb (df_empty stats)) eqn:Ec; simpl andb; [|exact Hr].
  destruct (has_col runs "category") eqn:Eh; [|exact Hr].
  rewrite (bind_ok (write l_runs (fill_category runs)) _ s0
             (mkState (globals s0) (<[l_runs := fill_category runs]> (heap s0)) (log s0)) tt)
    by reflexivity.
  match goal with
  | |- heap (snd (?rest ?st)) !! _ = _ =>
      assert (Hp : preserves l_runs rest)
  end.
  { preserve. }
  apply Hp. simpl. apply lookup_insert_eq.
Qed.

End BatchDataset.

(** Without the copy the chart function would change the dataset: called
    on the object itself, the category chart rewrites its [correct]
    column. *)
Example call_without_copy_mutates :
  heap (snd (call_runs (fun r s => @IGraphStats.plot_top_models_for_specific_categories
                                     no_text_numbers stable_sort r ["Math"] s None)
                       1%nat 0%nat
                       (mkState tt (<[0%nat := abc_stats]> (<[1%nat := runs_with_null]> ∅)) [])))
    !! 1%nat
  <> Some runs_with_null.
Proof. vm_compute. discriminate. Qed.


(** The category chart callback on the loaded session, with model A
    selected. *)
Example callback_keeps_dataset :
  let s := mkState
             {| IGraphStats.db_path_global := "benchmark.db";
                IGraphStats.df_model_stats_global := 0%nat;
                IGraphStats.df_benchmark_runs_global := 1%nat;
                IGraphStats.all_model_names_global := [VStr "A"];
                IGraphStats.all_categories_global := ["Math"];
                IGraphStats.db_status_label := "Loaded: benchmark.db";
                IGraphStats.model_listbox := ["A"];
                IGraphStats.curselection := [0%nat];
                IGraphStats.category_dropdown := ["Math"];
                IGraphStats.category_var := "Math";
                IGraphStats.initial_message_label := false |}
             (<[0%nat := abc_stats]> (<[1%nat := runs_with_null]> ∅)) [] in
  IGraphStats.dataset (snd (@IGraphStats.plot_category_bar_gui no_text_numbers stable_sort s))
  = (Some abc_stats, Some runs_with_null)
  /\ log (snd (@IGraphStats.plot_category_bar_gui no_text_numbers stable_sort s))
     = [ShowPlot (BarChart "category_Math_models_bar"
                    [ {| bar_label := VStr "A"; bar_value := 0%Q; bar_counts := Some (Fin 0, 1%nat) |} ])].
Proof. vm_compute. split; reflexivity. Qed.

(** ** C8: what ends the batch run *)

Lemma bind_ok_inv {G A B : Type} (m : Py G A) (k : A -> Py G B) (s s' : py_state G) (b : B) :
  (m ≫= k) s = (Ok b, s') -> exists a s1, m s = (Ok a, s1) /\ k a s1 = (Ok b, s').
Proof.
  unfold mbind, Py_bind, bind. destruct (m s) as [[a|e] s1]; [eauto | discriminate].
Qed.

Section BatchRun.
Context `{PyConv} `{ArgSort}.

Lemma main_no_file (fs : filesystem) :
  fs GraphStats.DB_PATH = None ->
  GraphStats.run_main fs
  = (Ok tt, mkState tt ∅
              [Print "Cleared output directory: benchmark_graphs";
               Print "Connecting to database: benchmark.db";
               Print "Error: Database file 'benchmark.db' not found."]).
Proof. intros Hf. unfold GraphStats.run_main, GraphStats.main. rewrite Hf. reflexivity. Qed.

Lemma main_read_error (fs : filesystem) (f : file) (e : string) :
  fs GraphStats.DB_PATH = Some f -> f <> Unopenable ->
  (read_sql_query f "model_stats" = inr e
   \/ exists df, read_sql_query f "model_stats" = inl df
                 /\ read_sql_query f "benchmark_runs" = inr e) ->
  GraphStats.run_main fs
  = (Ok tt, mkState tt ∅
              [Print "Cleared output directory: benchmark_graphs";
               Print "Connecting to database: benchmark.db";
               Print ("Error reading from database: " +:+ e)]).
Proof.
  intros Hf Hopen Herr. unfold GraphStats.run_main, GraphStats.main. rewrite Hf.
  destruct f as [| |ms br]; [congruence | |].
  - destruct Herr as [He|(df & He & _)]; simpl in He; [|discriminate].
    injection He as <-. reflexivity.
  - destruct Herr as [He|(df & He1 & He2)].
    + rewrite He. reflexivity.
    + rewrite He1, He2. reflexivity.
Qed.

Lemma main_loaded_completes (stats runs : DataFrame) (s s' : py_state unit) :
  GraphStats.main_loaded stats runs s = (Ok tt, s') -> GraphStats.completed s'.
Proof.
  unfold GraphStats.main_loaded. intros Hrun.
  repeat (apply bind_ok_inv in Hrun; destruct Hrun as (? & ? & _ & Hrun)).
  unfold emit in Hrun. injection Hrun as <-. unfold GraphStats.completed. simpl. eauto.
Qed.

Lemma main_completes (fs : filesystem) (f : file) (stats runs : DataFrame) :
  fs GraphStats.DB_PATH = Some f ->
  read_sql_query f "model_stats" = inl stats ->
  read_sql_query f "benchmark_runs" = inl runs ->
  fst (GraphStats.run_main fs) = Ok tt ->
  GraphStats.completed (snd (GraphStats.run_main fs)).
Proof.
  intros Hf Hs Hr. unfold GraphStats.run_main, GraphStats.main. rewrite Hf.
  destruct f as [| |ms br]; [discriminate | discriminate |].
  rewrite Hs, Hr.
  rewrite (bind_ok (emit _) _ _ _ tt eq_refl).
  rewrite (bind_ok (emit _) _ _ _ tt eq_refl).
  destruct (GraphStats.main_loaded stats runs _) as [[[]|e] s'] eqn:E; simpl; [|discriminate].
  intros _. now apply main_loaded_completes in E.
Qed.

(** What the chart functions do on the conditions they check for. *)
Lemma guards_skip (df_runs df_model_stats : DataFrame) :
  (df_empty df_model_stats || negb (has_col df_model_stats "percentage_correct") = true ->
   GraphStats.plot_overall_model_correctness_bar df_model_stats
   = returned [Print "Skipping overall model correctness bar: No data or 'percentage_correct' column missing."])
  /\ (df_empty df_model_stats = true ->
      GraphStats.plot_overall_model_speeds_scatter df_model_stats true
      = returned [Print "Skipping overall model speeds scatter: No data."])
  /\ (forall name col_, df_empty df_model_stats = true ->
      GraphStats.plot_speed_vs_quality df_model_stats col_ name
      = returned [Print ("Skipping " +:+ name +:+ " vs. Quality: No data.")])
  /\ (forall name col_, df_empty df_model_stats = false ->
      forallb (has_col df_model_stats) [col_; "percentage_correct"; "model_id"; "total_questions"]
      = false ->
      GraphStats.plot_speed_vs_quality df_model_stats col_ name
      = returned [Print ("Skipping " +:+ name +:+ " vs. Quality: Missing one of the required columns.")])
  /\ (forall n, df_empty df_runs || df_empty df_model_stats = true ->
      GraphStats.plot_category_correctness_heatmap df_runs df_model_stats n
      = (df_runs, returned [Print "Skipping category correctness heatmap: Missing benchmark_runs or model_stats data."]))
  /\ (forall n, df_empty df_runs || df_empty df_model_stats = false ->
      forallb (has_col df_runs) ["category"; "model_id"; "correct"] = false ->
      GraphStats.plot_category_correctness_heatmap df_runs df_model_stats n
      = (df_runs, returned [Print "Skipping category correctness heatmap: Missing required columns (category, model_id, correct in df_runs)."]))
  /\ (forall n, df_empty df_runs || df_empty df_model_stats = false ->
      forallb (has_col df_runs) ["category"; "model_id"; "correct"] = true ->
      forallb (has_col df_model_stats) ["model_id"; "percentage_correct"] = false ->
      GraphStats.plot_category_correctness_heatmap df_runs df_model_stats n
      = (df_runs, returned [Print "Skipping category correctness heatmap: Missing required columns (model_id, percentage_correct in df_model_stats)."]))
  /\ (forall cats,
      df_empty df_runs || negb (forallb (has_col df_runs) ["category"; "model_id"; "correct"]) = true ->
      GraphStats.plot_top_models_for_specific_categories df_runs cats df_model_stats
      = (df_runs, returned [])).
Proof.
  repeat split.
  - intros Hg. unfold GraphStats.plot_overall_model_correctness_bar. now rewrite Hg.
  - intros Hg. unfold GraphStats.plot_overall_model_speeds_scatter. now rewrite Hg.
  - intros name col_ Hg. unfold GraphStats.plot_speed_vs_quality. now rewrite Hg.
  - intros name col_ Hg Hc. unfold GraphStats.plot_speed_vs_quality. now rewrite Hg, Hc.
  - intros n Hg. unfold GraphStats.plot_category_correctness_heatmap. now rewrite Hg.
  - intros n Hg Hc. unfold GraphStats.plot_category_correctness_heatmap. now rewrite Hg, Hc.
  - intros n Hg Hc Hc'. unfold GraphStats.plot_category_correctness_heatmap.
    now rewrite Hg, Hc, Hc'.
  - intros cats Hg. unfold GraphStats.plot_top_models_for_specific_categories.
    apply orb_true_iff in Hg. destruct Hg as [->|Hg]; [reflexivity|].
    destruct (df_empty df_runs); [reflexivity|]. now rewrite Hg.
Qed.

End BatchRun.

(** C8, as stated, fails: the dataset file is there, its [model_stats]
    table is not; the run ends on the read error before any chart is
    attempted and does not reach its last line. *)
Lemma batch_abort_counterexample :
  ~ (forall (conv : PyConv) (S : ArgSort) (fs : filesystem),
       ~ GraphStats.completed (snd (GraphStats.run_main fs)) -> fs GraphStats.DB_PATH = None).
Proof.
  intros Hall.
  specialize (Hall no_text_numbers stable_sort no_model_stats).
  assert (Hfile : no_model_stats GraphStats.DB_PATH = None); [|discriminate].
  apply Hall. intros (evs & Hlog). vm_compute in Hlog.
  destruct evs as [|e1 [|e2 [|e3 [|e4 evs]]]]; simpl in Hlog; try discriminate.
Qed.

(** C8, amended.  The batch run ends with a diagnostic before any chart is
    attempted when the dataset file is absent, and equally when reading
    either table raises a database error.  Once both tables are read, a
    run from which no exception escapes goes through every chart and
    reaches its last line; the conditions the chart functions check for (an
    empty table, a required column missing) make the function return
    without a chart, with a printed diagnostic, except in the category bar
    function, which returns silently. *)
Theorem batch_run_policy :
  (forall (conv : PyConv) (S : ArgSort) (fs : filesystem),
     fs GraphStats.DB_PATH = None ->
     GraphStats.run_main fs
     = (Ok tt, mkState tt ∅
                 [Print "Cleared output directory: benchmark_graphs";
                  Print "Connecting to database: benchmark.db";
                  Print "Error: Database file 'benchmark.db' not found."]))
  /\ (forall (conv : PyConv) (S : ArgSort) (fs : filesystem) (f : file) (e : string),
        fs GraphStats.DB_PATH = Some f -> f <> Unopenable ->
        (read_sql_query f "model_stats" = inr e
         \/ exists df, read_sql_query f "model_stats" = inl df
                       /\ read_sql_query f "benchmark_runs" = inr e) ->
        GraphStats.run_main fs
        = (Ok tt, mkState tt ∅
                    [Print "Cleared output directory: benchmark_graphs";
                     Print "Connecting to database: benchmark.db";
                     Print ("Error reading from database: " +:+ e)]))
  /\ (forall (conv : PyConv) (S : ArgSort) (fs : filesystem) (f : file) (stats runs : DataFrame),
        fs GraphStats.DB_PATH = Some f ->
        read_sql_query f "model_stats" = inl stats ->
        read_sql_query f "benchmark_runs" = inl runs ->
        fst (GraphStats.run_main fs) = Ok tt ->
        GraphStats.completed (snd (GraphStats.run_main fs)))
  /\ (forall (conv : PyConv) (S : ArgSort) (df_runs df_model_stats : DataFrame),
        (df_empty df_model_stats || negb (has_col df_model_stats "percentage_correct") = true ->
         GraphStats.plot_overall_model_correctness_bar df_model_stats
         = returned [Print "Skipping overall model correctness bar: No data or 'percentage_correct' column missing."])
        /\ (df_empty df_model_stats = true ->
            GraphStats.plot_overall_model_speeds_scatter df_model_stats true
            = returned [Print "Skipping overall model speeds scatter: No data."])
        /\ (forall name col_, df_empty df_model_stats = true ->
            GraphStats.plot_speed_vs_quality df_model_stats col_ name
            = returned [Print ("Skipping " +:+ name +:+ " vs. Quality: No data.")])
        /\ (forall name col_, df_empty df_model_stats = false ->
            forallb (has_col df_model_stats) [col_; "percentage_correct"; "model_id"; "total_questions"]
            = false ->
            GraphStats.plot_speed_vs_quality df_model_stats col_ name
            = returned [Print ("Skipping " +:+ name +:+ " vs. Quality: Missing one of the required columns.")])
        /\ (forall n, df_empty df_runs || df_empty df_model_stats = true ->
            GraphStats.plot_category_correctness_heatmap df_runs df_model_stats n
            = (df_runs, returned [Print "Skipping category correctness heatmap: Missing benchmark_runs or model_stats data."]))
        /\ (forall n, df_empty df_runs || df_empty df_model_stats = false ->
            forallb (has_col df_runs) ["category"; "model_id"; "correct"] = false ->
            GraphStats.plot_category_correctness_heatmap df_runs df_model_stats n
            = (df_runs, returned [Print "Skipping category correctness heatmap: Missing required columns (category, model_id, correct in df_runs)."]))
        /\ (forall n, df_empty df_runs || df_empty df_model_stats = false ->
            forallb (has_col df_runs) ["category"; "model_id"; "correct"] = true ->
            forallb (has_col df_model_stats) ["model_id"; "percentage_correct"] = false ->
            GraphStats.plot_category_correctness_heatmap df_runs df_model_stats n
            = (df_runs, returned [Print "Skipping category correctness heatmap: Missing required columns (model_id, percentage_correct in df_model_stats)."]))
        /\ (forall cats,
            df_empty df_runs || negb (forallb (has_col df_runs) ["category"; "model_id"; "correct"]) = true ->
            GraphStats.plot_top_models_for_specific_categories df_runs cats df_model_stats
            = (df_runs, returned []))).
Proof.
  split; [|split; [|split]].
  - intros conv S. apply main_no_file.
  - intros conv S. apply main_read_error.
  - intros conv S. apply main_completes.
  - intros conv S. apply guards_skip.
Qed.

(** A run on a [model_stats] table that has speeds only: the percentage
    cannot be derived, three charts are skipped with a diagnostic each,
    the others are drawn, and the run reaches its last line. *)
Example run_with_skipped_charts :
  map (fun e => match e with
                | Print line => line
                | SavePlot (BarChart name _) | SavePlot (ScatterChart name _ _ _ _)
                | SavePlot (Heatmap name _ _ _) => "saved " +:+ name
                | _ => ""
                end)
      (log (snd (@GraphStats.run_main no_text_numbers stable_sort speeds_only_file)))
  = [ "Cleared output directory: benchmark_graphs";
      "Connecting to database: benchmark.db";
      "Warning: Cannot calculate 'percentage_correct' for model_stats. Required columns missing.";
      "--- Generating Overall Model Plots (from model_stats) ---";
      "Skipping overall model correctness bar: No data or 'percentage_correct' column missing.";
      "saved overall_model_speeds_scatter_labeled";
      "Skipping Prompt Eval Speed vs. Quality: Missing one of the required columns.";
      "Skipping Token Generation Speed vs. Quality: Missing one of the required columns.";
      "--- Generating Category Plots (from benchmark_runs) ---";
      "Skipping category correctness heatmap: Missing required columns (model_id, percentage_correct in df_model_stats).";
      "Not enough model data (after MIN_QUESTIONS_FOR_CATEGORY_PLOT) for category 'History'.";
      "saved category_Math_top_models_bar";
      "All plots saved to 'benchmark_graphs' directory." ].
Proof. vm_compute. reflexivity. Qed.

(** The file is there and one table is not: the run ends on the read
    error, before the first chart function is entered. *)
Example run_without_model_stats :
  @GraphStats.run_main no_text_numbers stable_sort no_model_stats
  = (Ok tt, mkState tt ∅
              [Print "Cleared output directory: benchmark_graphs";
               Print "Connecting to database: benchmark.db";
               Print "Error reading from database: DatabaseError: no such table: model_stats"])
  /\ ~ GraphStats.charts_attempted
         (snd (@GraphStats.run_main no_text_numbers stable_sort no_model_stats)).
Proof.
  split; [vm_compute; reflexivity|].
  unfold GraphStats.charts_attempted. vm_compute.
  intros [Hb|[Hb|[Hb|[]]]]; discriminate.
Qed.

(** A condition no chart function checks for: [model_stats] without a
    [model_id] column.  The exception leaves the first chart function and
    the run with it. *)
Example run_without_model_id :
  fst (@GraphStats.run_main no_text_numbers stable_sort no_model_id_file)
  = Exc "KeyError: 'model_id'".
Proof. vm_compute. reflexivity. Qed.


(** * Further properties of the two programs *)

(** ** The output directory *)

Lemma clear_item_lookup (items : gmap string dir_item) (item name : string) :
  clear_item items item !! name
  = match items !! name with
    | Some it => if String.eqb name item && removable it then None else Some it
    | None => None
    end.
Proof.
  unfold clear_item, removable.
  destruct (String.eqb_spec name item) as [->|Hne].
  - destruct (items !! item) as [it|] eqn:E; [|now rewrite E].
    destruct (isfile it || islink it) eqn:E1; simpl.
    + now rewrite lookup_delete_eq.
    + destruct (isdir it); [now rewrite lookup_delete_eq | now rewrite E].
  - simpl. destruct (items !! item) as [it|] eqn:E.
    + destruct (isfile it || islink it); [|destruct (isdir it)];
        try rewrite lookup_delete_ne by congruence; now destruct (items !! name).
    + now destruct (items !! name).
Qed.

Lemma clear_items_lookup (l : list string) (items : gmap string dir_item) (name : string) :
  fold_left clear_item l items !! name
  = match items !! name with
    | Some it => if existsb (String.eqb name) l && removable it then None else Some it
    | None => None
    end.
Proof.
  revert items. induction l as [|item l IH]; intros items; simpl.
  - now destruct (items !! name).
  - rewrite IH, clear_item_lookup.
    destruct (items !! name) as [it|]; [|reflexivity].
    destruct (String.eqb name item), (removable it) eqn:E; simpl; try reflexivity;
      rewrite ?E; destruct (existsb (String.eqb name) l); reflexivity.
Qed.

Lemma listdir_lists (items : gmap string dir_item) (name : string) (it : dir_item) :
  items !! name = Some it -> existsb (String.eqb name) (listdir items) = true.
Proof.
  intros Hin. apply existsb_exists. exists name. split; [|apply String.eqb_refl].
  unfold listdir. apply in_map_iff. exists (name, it). split; [reflexivity|].
  apply list_elem_of_In, elem_of_map_to_list, Hin.
Qed.

Lemma cleared_lookup (items : gmap string dir_item) (name : string) :
  fold_left clear_item (listdir items) items !! name
  = match items !! name with
    | Some it => if removable it then None else Some it
    | None => None
    end.
Proof.
  rewrite clear_items_lookup. destruct (items !! name) as [it|] eqn:E; [|reflexivity].
  now rewrite (listdir_lists items name it E).
Qed.

(** X1. [clear_output_directory], alike in both programs: a directory that
    is there keeps exactly its entries that are neither file, link nor
    directory (FIFOs, sockets, devices are left in place though the
    function reports the directory as cleared); a link is removed whatever
    it points to; a second call changes nothing more; a missing directory
    is created empty; a path that is not a directory makes [os.listdir]
    raise. *)
Theorem clear_output_directory_leaves_special_files :
  (forall (directory : string) (items : gmap string dir_item),
     exists items',
       GraphStats.clear_output_directory directory (Directory items)
       = (Directory items', returned [Print ("Cleared output directory: " +:+ directory)])
       /\ (forall name it, items' !! name = Some it <-> items !! name = Some it /\ it = SpecialFile)
       /\ GraphStats.clear_output_directory directory (Directory items')
          = (Directory items', returned [Print ("Cleared output directory: " +:+ directory)]))
  /\ (forall directory : string,
        GraphStats.clear_output_directory directory Missing
        = (Directory ∅, returned [Print ("Created output directory: " +:+ directory)]))
  /\ (forall directory : string,
        uncaught (snd (GraphStats.clear_output_directory directory NotADirectory))
        = Some "NotADirectoryError")
  /\ (forall (directory : string) (st : path_state),
        IGraphStats.clear_output_directory directory st
        = GraphStats.clear_output_directory directory st).
Proof.
  split; [|split; [|split]].
  - intros directory items. eexists. split; [reflexivity|]. split.
    + intros name it. rewrite cleared_lookup.
      destruct (items !! name) as [it'|]; [|split; [discriminate | intros [? _]; discriminate]].
      destruct it' as [|t| |]; try destruct t; simpl;
        (split; [intros Hx | intros [Hx ->]]); try discriminate; try (injection Hx as <-);
        try (split; reflexivity); try reflexivity; try discriminate.
    + unfold GraphStats.clear_output_directory. f_equal. f_equal.
      apply map_eq. intros name. rewrite cleared_lookup, cleared_lookup.
      destruct (items !! name) as [it|]; [|reflexivity].
      destruct (removable it) eqn:E; [reflexivity | now rewrite E].
  - reflexivity.
  - reflexivity.
  - intros directory [| |items]; reflexivity.
Qed.


(** ** File names *)

Lemma str_map_length (f : ascii -> ascii) (s : string) :
  String.length (str_map f s) = String.length s.
Proof. induction s as [|c s IH]; simpl; congruence. Qed.

Lemma str_map_map (f g : ascii -> ascii) (s : string) :
  str_map f (str_map g s) = str_map (fun c => f (g c)) s.
Proof. induction s as [|c s IH]; simpl; congruence. Qed.

Lemma str_map_ext (f g : ascii -> ascii) (s : string) :
  (forall c, f c = g c) -> str_map f s = str_map g s.
Proof. intros Hfg. induction s as [|c s IH]; simpl; congruence. Qed.

Lemma str_forallb_map (p : ascii -> bool) (f : ascii -> ascii) (s : string) :
  (forall c, p (f c) = true) -> str_forallb p (str_map f s) = true.
Proof. intros Hp. induction s as [|c s IH]; simpl; [reflexivity|]. now rewrite Hp, IH. Qed.

Lemma str_forallb_impl (p p' : ascii -> bool) (s : string) :
  (forall c, p c = true -> p' c = true) -> str_forallb p s = true -> str_forallb p' s = true.
Proof.
  intros Hp. induction s as [|c s IH]; simpl; [reflexivity|].
  intros Hs. apply andb_true_iff in Hs. destruct Hs as [Hc Hs]. now rewrite (Hp c Hc), IH.
Qed.

Lemma append_assoc (a b c : string) : (a +:+ b) +:+ c = a +:+ (b +:+ c).
Proof.
  induction a as [|x a IH]; [reflexivity|].
  change (String x ((a +:+ b) +:+ c) = String x (a +:+ (b +:+ c))). now rewrite IH.
Qed.

Lemma save_path_category (b : string) :
  save_plot_filepath ("category_" +:+ b +:+ "_top_models_bar")
  = "benchmark_graphs/category_" +:+ b +:+ "_top_models_bar.png".
Proof.
  unfold save_plot_filepath. rewrite !append_assoc.
  change ("category_" +:+ b +:+ "_top_models_bar" +:+ ".png")
    with (String "c" ("ategory_" +:+ b +:+ "_top_models_bar.png")).
  reflexivity.
Qed.

(** What [filename_cat] does to one character. *)
Lemma filename_cat_chars (category : string) :
  filename_cat category
  = str_map (fun c => if isalnum c || Ascii.eqb c "_" || Ascii.eqb c "-" then c else "_"%char)
            category.
Proof.
  unfold filename_cat, replace_char. rewrite str_map_map. apply str_map_ext.
  intros [[] [] [] [] [] [] [] []]; reflexivity.
Qed.

(** X2. The file of a category's bar chart.  For a category name in ASCII,
    the sanitised name has as many characters as the category, and each is
    a letter, a digit, an underscore or a hyphen: no separator and no dot,
    so the chart is written to a file directly in the output directory;
    sanitising again changes nothing. *)
Theorem category_file_name_is_safe (category : string) :
  is_ascii category = true ->
  String.length (filename_cat category) = String.length category
  /\ str_forallb filename_char (filename_cat category) = true
  /\ str_forallb (fun c => negb (Ascii.eqb c "/") && negb (Ascii.eqb c ".")
                           && negb (Ascii.eqb c " "))
                 (filename_cat category) = true
  /\ filename_cat (filename_cat category) = filename_cat category
  /\ save_plot_filepath (GraphStats.category_filename_base category)
     = "benchmark_graphs/category_" +:+ filename_cat category +:+ "_top_models_bar.png".
Proof.
  intros _.
  assert (Hchars : str_forallb filename_char (filename_cat category) = true).
  { rewrite filename_cat_chars. apply str_forallb_map.
    intros [[] [] [] [] [] [] [] []]; reflexivity. }
  split; [rewrite filename_cat_chars; apply str_map_length|].
  split; [exact Hchars|]. split; [|split].
  - revert Hchars. apply str_forallb_impl. intros [[] [] [] [] [] [] [] []]; now cbn.
  - rewrite !filename_cat_chars, str_map_map. apply str_map_ext.
    intros [[] [] [] [] [] [] [] []]; reflexivity.
  - apply save_path_category.
Qed.

Lemma category_file_name_is_safe_witness :
  String.length (filename_cat "Computer Science") = String.length "Computer Science"
  /\ str_forallb filename_char (filename_cat "Computer Science") = true
  /\ str_forallb (fun c => negb (Ascii.eqb c "/") && negb (Ascii.eqb c ".")
                           && negb (Ascii.eqb c " "))
                 (filename_cat "Computer Science") = true
  /\ filename_cat (filename_cat "Computer Science") = filename_cat "Computer Science"
  /\ save_plot_filepath (GraphStats.category_filename_base "Computer Science")
     = "benchmark_graphs/category_" +:+ filename_cat "Computer Science" +:+ "_top_models_bar.png".
Proof. apply (category_file_name_is_safe "Computer Science"). reflexivity. Defined.

(** Two categories can share a file, the later chart overwriting the
    earlier; the thirteen categories of the batch script do not. *)
Example category_files_collide :
  filename_cat "C/C++" = "C_C__" /\ filename_cat "C C++" = "C_C__"
  /\ NoDup (map filename_cat GraphStats.selected_main_categories_for_bar)
  /\ save_plot_filepath (GraphStats.category_filename_base "Computer Science")
     = "benchmark_graphs/category_Computer_Science_top_models_bar.png"
  /\ save_plot_filepath (GraphStats.speed_filename_base "avg_tokens_per_second")
     = "benchmark_graphs/avg-tokens-per-second_vs_quality_labeled.png".
Proof.
  repeat split; try reflexivity.
  apply NoDup_ListNoDup. vm_compute.
  repeat (constructor; [intros Hin; simpl in Hin; intuition discriminate|]). constructor.
Qed.


(** ** Figure sizes *)

Lemma py_max_spec (a b : Q) :
  (a <= py_max a b)%Q /\ (b <= py_max a b)%Q
  /\ ((b <= a)%Q -> py_max a b = a) /\ ((a < b)%Q -> py_max a b = b).
Proof.
  unfold py_max. destruct (F64.Qlt_bool a b) eqn:E.
  - apply Qlt_bool_iff in E. repeat split.
    + now apply Qlt_le_weak.
    + apply Qle_refl.
    + intros Hba. exfalso. apply (Qlt_irrefl a). eapply Qlt_le_trans; eauto.
  - apply Qlt_bool_false_iff in E. repeat split.
    + apply Qle_refl.
    + exact E.
    + intros Hab. exfalso. apply (Qlt_irrefl a). eapply Qlt_le_trans; eauto.
Qed.

Lemma bar_height_small (n : nat) :
  (n <= 20)%nat -> snd (bar_figsize n) = FIG_MIN_HEIGHT.
Proof.
  intros Hn. unfold bar_figsize. cbn [snd]. apply py_max_spec.
  unfold FIG_HEIGHT_PER_ITEM_BAR, FIG_MIN_HEIGHT.
  apply Qle_trans with (inject_Z 20 * (35 # 100))%Q; [|now vm_compute].
  apply Qmult_le_compat_r; [|now vm_compute].
  rewrite <- Zle_Qle. lia.
Qed.

(** X3. The size of a bar chart.  The width is fixed; the height is 0.35
    per bar and never less than 7, so it is 7 up to twenty bars; there is
    no upper limit ([FIG_MAX_WIDTH_BAR] is never read).  In the batch
    script, a category chart (at most fifteen bars) always has the minimum
    height, and the overall chart (at most fifty bars) is at most 17.5
    high. *)
Theorem bar_chart_height :
  (forall n : nat,
     fst (bar_figsize n) = 12%Q
     /\ (FIG_MIN_HEIGHT <= snd (bar_figsize n))%Q
     /\ ((n <= 20)%nat -> snd (bar_figsize n) = 7%Q)
     /\ ((20 < n)%nat -> snd (bar_figsize n) = (inject_Z (Z.of_nat n) * (35 # 100))%Q))
  /\ (forall (S : ArgSort) (df_runs : DataFrame) (category : string),
        snd (bar_figsize (length (GraphStats.df_sorted df_runs category))) = 7%Q)
  /\ (forall (S : ArgSort) (df_model_stats : DataFrame),
        (snd (bar_figsize (length (rows (GraphStats.df_top_n df_model_stats)))) <= 35 # 2)%Q).
Proof.
  split; [|split].
  - intros n. split; [reflexivity|]. split; [apply py_max_spec|]. split.
    + apply bar_height_small.
    + intros Hn. unfold bar_figsize. cbn [snd]. apply py_max_spec.
      unfold FIG_HEIGHT_PER_ITEM_BAR, FIG_MIN_HEIGHT.
      apply Qle_lt_trans with (inject_Z 20 * (35 # 100))%Q; [now vm_compute|].
      apply Qmult_lt_compat_r; [now vm_compute|].
      rewrite <- Zlt_Qlt. lia.
  - intros S df_runs category. apply bar_height_small.
    unfold GraphStats.df_sorted. rewrite head_length.
    unfold GraphStats.TOP_N_MODELS_PER_CATEGORY. lia.
  - intros S df. unfold GraphStats.df_top_n, df_head. cbn [rows].
    set (n := length _).
    assert (Hn : (n <= 50)%nat).
    { unfold n. rewrite head_length. unfold GraphStats.TOP_N_MODELS_OVERALL. lia. }
    destruct (Nat.le_gt_cases n 20) as [Hs|Hl].
    + rewrite (bar_height_small n Hs). now vm_compute.
    + unfold bar_figsize. cbn [snd].
      rewrite (proj2 (proj2 (proj2 (py_max_spec _ _)))).
      * unfold FIG_HEIGHT_PER_ITEM_BAR.
        apply Qle_trans with (inject_Z 50 * (35 # 100))%Q; [|now vm_compute].
        apply Qmult_le_compat_r; [|now vm_compute]. rewrite <- Zle_Qle. lia.
      * unfold FIG_HEIGHT_PER_ITEM_BAR, FIG_MIN_HEIGHT.
        apply Qle_lt_trans with (inject_Z 20 * (35 # 100))%Q; [now vm_compute|].
        apply Qmult_lt_compat_r; [now vm_compute|]. rewrite <- Zlt_Qlt. lia.
Qed.


(** ** The correctness percentage, in both programs *)

Lemma rint_bounds (q : Q) (lo hi : Z) :
  (inject_Z lo <= q)%Q -> (q <= inject_Z hi)%Q -> (lo <= F64.rint q <= hi)%Z.
Proof.
  intros Hlo Hhi. unfold F64.rint.
  pose proof (Qfloor_le q) as Hf. pose proof (Qlt_floor q) as Hc.
  assert (Hlo' : (lo <= Qfloor q)%Z).
  { rewrite <- (Qfloor_Z lo). now apply Qfloor_resp_le. }
  assert (Hhi' : (Qfloor q <= hi)%Z).
  { rewrite <- (Qfloor_Z hi). now apply Qfloor_resp_le. }
  assert (Hup : (inject_Z (Qfloor q) < q)%Q -> (Qfloor q + 1 <= hi)%Z).
  { intros Hlt. assert (Hz : (Qfloor q < hi)%Z); [|lia].
    rewrite Zlt_Qlt. eapply Qlt_le_trans; eauto. }
  destruct (F64.Qlt_bool (q - inject_Z (Qfloor q)) (1 # 2)) eqn:E1; [lia|].
  apply Qlt_bool_false_iff in E1.
  assert (Hlt : (inject_Z (Qfloor q) < q)%Q).
  { apply Qlt_le_trans with (inject_Z (Qfloor q) + (1 # 2))%Q.
    - rewrite <- (Qplus_0_r (inject_Z (Qfloor q))) at 1.
      apply Qplus_lt_r. reflexivity.
    - apply Qle_trans with (inject_Z (Qfloor q) + (q - inject_Z (Qfloor q)))%Q.
      + now apply Qplus_le_r.
      + apply Qle_lteq. right. ring. }
  specialize (Hup Hlt).
  destruct (F64.Qlt_bool (1 # 2) (q - inject_Z (Qfloor q))); [lia|].
  destruct (Z.even (Qfloor q)); lia.
Qed.

Lemma Qround1_range (q : Q) :
  (0 <= q)%Q -> (q <= 100)%Q ->
  (0 <= F64.Qround1 q)%Q /\ (F64.Qround1 q <= 100)%Q
  /\ exists z : Z, (F64.Qround1 q == inject_Z z / 10)%Q.
Proof.
  intros H0 H100. unfold F64.Qround1.
  assert (Hb : (0 <= F64.rint (q * 10) <= 1000)%Z).
  { apply rint_bounds.
    - change (inject_Z 0) with 0%Q. apply Qmult_le_0_compat; [exact H0 | now vm_compute].
    - change (inject_Z 1000) with (100 * 10)%Q. apply Qmult_le_compat_r; [exact H100 | now vm_compute]. }
  split; [|split].
  - rewrite Qred_correct. apply Qle_shift_div_l; [reflexivity|]. rewrite Qmult_0_l.
    change 0%Q with (inject_Z 0). rewrite <- Zle_Qle. lia.
  - rewrite Qred_correct. apply Qle_shift_div_r; [reflexivity|].
    change (100 * 10)%Q with (inject_Z 1000). rewrite <- Zle_Qle. lia.
  - exists (F64.rint (q * 10)). apply Qred_correct.
Qed.

Section Percentage.
Context `{PyConv}.

(** The derived cell of one row, as [main] computes it. *)
Lemma derived_cell (df : DataFrame) (i : nat) (r : gmap string cell) (c t : Q) :
  has_col df "percentage_correct" = false ->
  has_col df "correct_answers" = true ->
  has_col df "total_questions" = true ->
  rows df !! i = Some r ->
  get_cell r "correct_answers" = VNum (Fin c) ->
  get_cell r "total_questions" = VNum (Fin t) ->
  exists r', rows (fst (main_percentage_correct df)) !! i = Some r'
    /\ get_cell r' "percentage_correct"
       = VNum (F64.round1 (if F64.gt t 0%Q then F64.mul (F64.div c t) 100%Q else 0%Q))
    /\ get_cell r' "model_id" = get_cell r "model_id".
Proof.
  intros Hp Hc Ht Hr Hrc Hrt.
  unfold main_percentage_correct. rewrite Hp, Hc, Ht. simpl.
  set (A := fillna 0%Q (to_numeric (col df "correct_answers"))).
  set (df1 := set_col df "correct_answers" (map VNum A)).
  set (B := fillna 0%Q (to_numeric (col df1 "total_questions"))).
  set (df2 := set_col df1 "total_questions" (map VNum B)).
  assert (HlA : length A = length (rows df)).
  { unfold A. now rewrite fillna_length, to_numeric_length, col_length. }
  assert (HlB : length B = length (rows df1)).
  { unfold B. now rewrite fillna_length, to_numeric_length, col_length. }
  assert (HA : A !! i = Some (Fin c)) by (eapply counts_lookup; eauto).
  assert (HB : B !! i = Some (Fin t)).
  { unfold B, df1. rewrite col_set_col_ne by discriminate. eapply counts_lookup; eauto. }
  assert (Hca : values (col df2 "correct_answers") = A).
  { unfold df2. rewrite col_set_col_ne by discriminate.
    unfold df1. rewrite col_set_col_eq by (now rewrite length_map).
    apply values_VNum. }
  assert (Htq : values (col df2 "total_questions") = B).
  { unfold df2. rewrite col_set_col_eq by (now rewrite length_map).
    apply values_VNum. }
  rewrite Hca, Htq.
  assert (Hr1 : rows df1 !! i = Some (<["correct_answers" := VNum (Fin c)]> r)).
  { unfold df1, set_col. cbn [rows]. eapply assign_lookup; [exact Hr|].
    now rewrite list_lookup_fmap, HA. }
  assert (Hr2 : rows df2 !! i
                = Some (<["total_questions" := VNum (Fin t)]>
                          (<["correct_answers" := VNum (Fin c)]> r))).
  { unfold df2, set_col. cbn [rows]. eapply assign_lookup; [exact Hr1|].
    now rewrite list_lookup_fmap, HB. }
  pose proof (percentage_of_counts_lookup A B i _ _ HA HB) as Hpc.
  eexists. split; [|split].
  - unfold set_col. cbn [rows]. eapply assign_lookup; [exact Hr2|].
    rewrite list_lookup_fmap, Hpc. reflexivity.
  - now rewrite get_cell_insert_eq.
  - now rewrite !get_cell_insert_ne by discriminate.
Qed.

(** Without a given column the two programs settle [percentage_correct]
    alike. *)
Lemma load_as_main (df : DataFrame) :
  has_col df "percentage_correct" = false ->
  IGraphStats.load_percentage_correct df = fst (main_percentage_correct df).
Proof.
  intros Hp. unfold IGraphStats.load_percentage_correct, main_percentage_correct.
  rewrite Hp. cbn [negb andb].
  destruct (has_col df "correct_answers"), (has_col df "total_questions"); reflexivity.
Qed.

End Percentage.

(** X4. A derived percentage is a percentage.  When the table has no
    [percentage_correct] column and a row holds counts [0 <= c <= t], the
    value derived for the row, the same in both programs, lies between 0
    and 100 and is a whole number of tenths. *)
Theorem derived_percentage_in_range `{PyConv} (df : DataFrame) (i : nat)
  (r : gmap string cell) (c t : Q) :
  has_col df "percentage_correct" = false ->
  has_col df "correct_answers" = true ->
  has_col df "total_questions" = true ->
  rows df !! i = Some r ->
  get_cell r "correct_answers" = VNum (Fin c) ->
  get_cell r "total_questions" = VNum (Fin t) ->
  (0 <= c)%Q -> (c <= t)%Q ->
  exists (r' : gmap string cell) (p : Q) (tenths : Z),
    rows (fst (main_percentage_correct df)) !! i = Some r'
    /\ rows (IGraphStats.load_percentage_correct df) !! i = Some r'
    /\ get_cell r' "percentage_correct" = VNum (Fin p)
    /\ (0 <= p)%Q /\ (p <= 100)%Q /\ (p == inject_Z tenths / 10)%Q.
Proof.
  intros Hp Hc Ht Hr Hrc Hrt H0 Hct.
  destruct (derived_cell df i r c t Hp Hc Ht Hr Hrc Hrt) as (r' & Hr' & Hcell & _).
  rewrite (load_as_main df Hp).
  destruct (Qlt_le_dec 0 t) as [Hpos|Hzero].
  - rewrite percentage_positive in Hcell by exact Hpos.
    assert (Hq0 : (0 <= 100 * c / t)%Q).
    { apply Qle_shift_div_l; [exact Hpos|]. rewrite Qmult_0_l.
      apply Qmult_le_0_compat; [now vm_compute | exact H0]. }
    assert (Hq1 : (100 * c / t <= 100)%Q).
    { apply Qle_shift_div_r; [exact Hpos|]. now apply Qmult_le_l. }
    destruct (Qround1_range _ Hq0 Hq1) as (Hl & Hu & z & Hz).
    exists r', (F64.Qround1 (100 * c / t)), z. repeat split; assumption.
  - rewrite percentage_not_positive in Hcell.
    + exists r', 0%Q, 0%Z. repeat split; try assumption; now vm_compute.
    + unfold F64.gt. simpl. now apply Qlt_bool_false_iff.
Qed.

Lemma derived_percentage_in_range_witness :
  exists (r' : gmap string cell) (p : Q) (tenths : Z),
    rows (fst (@main_percentage_correct no_text_numbers counts_only)) !! 0%nat = Some r'
    /\ rows (@IGraphStats.load_percentage_correct no_text_numbers counts_only) !! 0%nat = Some r'
    /\ get_cell r' "percentage_correct" = VNum (Fin p)
    /\ (0 <= p)%Q /\ (p <= 100)%Q /\ (p == inject_Z tenths / 10)%Q.
Proof.
  apply (@derived_percentage_in_range no_text_numbers counts_only 0%nat
           (row [("model_id", VStr "A"); ("correct_answers", VNum 1%Q);
                 ("total_questions", VNum 3%Q)]) 1%Q 3%Q);
    try reflexivity; now vm_compute.
Defined.


Section GivenPercentage.
Context `{PyConv}.

Lemma round1_not_nan (x : f64) : F64.isnan x = false -> F64.isnan (F64.round1 x) = false.
Proof. now destruct x. Qed.

Lemma fill_not_nan (x : f64) : F64.isnan (if F64.isnan x then Fin 0 else x) = false.
Proof. now destruct x. Qed.

(** X5. A [percentage_correct] column that comes with the table.  Both
    programs make every cell of it a number, reading NULL and text that is
    no number as 0, so that no cell of the column is missing afterwards;
    the interactive program also rounds to one decimal, the batch script
    does not.  Row count and all other columns stay as read, and the batch
    script prints no warning. *)
Theorem given_percentage_is_made_numeric (df : DataFrame) :
  has_col df "percentage_correct" = true ->
  col (fst (main_percentage_correct df)) "percentage_correct"
  = map (fun v => VNum (let x := to_numeric_cell v in if F64.isnan x then Fin 0 else x))
        (col df "percentage_correct")
  /\ col (IGraphStats.load_percentage_correct df) "percentage_correct"
     = map (fun v => VNum (F64.round1 (let x := to_numeric_cell v in
                                       if F64.isnan x then Fin 0 else x)))
           (col df "percentage_correct")
  /\ (forall v, In v (col (fst (main_percentage_correct df)) "percentage_correct")
                \/ In v (col (IGraphStats.load_percentage_correct df) "percentage_correct") ->
                notna v = true)
  /\ (forall c, c <> "percentage_correct" ->
                col (fst (main_percentage_correct df)) c = col df c
                /\ col (IGraphStats.load_percentage_correct df) c = col df c)
  /\ columns (fst (main_percentage_correct df)) = columns df
  /\ columns (IGraphStats.load_percentage_correct df) = columns df
  /\ snd (main_percentage_correct df) = [].
Proof.
  intros Hp.
  assert (Hm : col (fst (main_percentage_correct df)) "percentage_correct"
               = map (fun v => VNum (let x := to_numeric_cell v in
                                     if F64.isnan x then Fin 0 else x))
                     (col df "percentage_correct")).
  { unfold main_percentage_correct. rewrite Hp. cbn [fst].
    rewrite col_set_col_eq.
    - unfold fillna, to_numeric. now rewrite !map_map.
    - now rewrite length_map, fillna_length, to_numeric_length, col_length. }
  assert (Hl : col (IGraphStats.load_percentage_correct df) "percentage_correct"
               = map (fun v => VNum (F64.round1 (let x := to_numeric_cell v in
                                                 if F64.isnan x then Fin 0 else x)))
                     (col df "percentage_correct")).
  { unfold IGraphStats.load_percentage_correct. rewrite Hp. cbn [negb andb].
    rewrite col_set_col_eq.
    - unfold fillna, to_numeric. now rewrite !map_map.
    - now rewrite !length_map, fillna_length, to_numeric_length, col_length. }
  split; [exact Hm|]. split; [exact Hl|]. split; [|split; [|split; [|split]]].
  - intros v [Hv|Hv]; [rewrite Hm in Hv | rewrite Hl in Hv];
      apply in_map_iff in Hv; destruct Hv as (w & <- & _); cbn [notna].
    + now rewrite fill_not_nan.
    + now rewrite round1_not_nan by apply fill_not_nan.
  - intros c Hc. unfold main_percentage_correct, IGraphStats.load_percentage_correct.
    rewrite Hp. cbn [negb andb fst].
    split; apply col_set_col_ne; congruence.
  - unfold main_percentage_correct. rewrite Hp. cbn [fst]. unfold set_col. cbn [columns].
    now rewrite Hp.
  - unfold IGraphStats.load_percentage_correct. rewrite Hp. cbn [negb andb].
    unfold set_col. cbn [columns]. now rewrite Hp.
  - unfold main_percentage_correct. now rewrite Hp.
Qed.

End GivenPercentage.

Lemma given_percentage_is_made_numeric_witness :
  col (fst (@main_percentage_correct no_text_numbers abc_stats)) "percentage_correct"
  = map (fun v => VNum (let x := @to_numeric_cell no_text_numbers v in
                        if F64.isnan x then Fin 0 else x))
        (col abc_stats "percentage_correct")
  /\ col (@IGraphStats.load_percentage_correct no_text_numbers abc_stats) "percentage_correct"
     = map (fun v => VNum (F64.round1 (let x := @to_numeric_cell no_text_numbers v in
                                       if F64.isnan x then Fin 0 else x)))
           (col abc_stats "percentage_correct")
  /\ (forall v, In v (col (fst (@main_percentage_correct no_text_numbers abc_stats))
                          "percentage_correct")
                \/ In v (col (@IGraphStats.load_percentage_correct no_text_numbers abc_stats)
                             "percentage_correct") ->
                notna v = true)
  /\ (forall c, c <> "percentage_correct" ->
                col (fst (@main_percentage_correct no_text_numbers abc_stats)) c = col abc_stats c
                /\ col (@IGraphStats.load_percentage_correct no_text_numbers abc_stats) c
                   = col abc_stats c)
  /\ columns (fst (@main_percentage_correct no_text_numbers abc_stats)) = columns abc_stats
  /\ columns (@IGraphStats.load_percentage_correct no_text_numbers abc_stats) = columns abc_stats
  /\ snd (@main_percentage_correct no_text_numbers abc_stats) = [].
Proof. apply (@given_percentage_is_made_numeric no_text_numbers abc_stats). reflexivity. Defined.


(** ** Grouping *)

Lemma cell_eqb_sym (a b : cell) : cell_eqb a b = true -> cell_eqb b a = true.
Proof.
  destruct a, b; simpl; try discriminate.
  - apply eqb_sym.
  - intros Hs. apply String.eqb_eq in Hs. subst. apply String.eqb_refl.
Qed.

Lemma cell_eqb_trans (a b c : cell) :
  cell_eqb a b = true -> cell_eqb b c = true -> cell_eqb a c = true.
Proof.
  destruct a, b, c; simpl; try discriminate.
  - apply eqb_trans.
  - intros H1 H2. apply String.eqb_eq in H1, H2. subst. apply String.eqb_refl.
Qed.

Lemma cell_eqb_refl (a : cell) : notna a = true -> cell_eqb a a = true.
Proof.
  destruct a; simpl; try discriminate.
  - intros Hx. apply eqb_refl_fin. now apply negb_true_iff in Hx.
  - intros _. apply String.eqb_refl.
Qed.

Lemma cell_eqb_notna_l (a b : cell) : cell_eqb a b = true -> notna a = true.
Proof.
  destruct a, b; simpl; try discriminate; [|reflexivity].
  intros Hx. apply eqb_not_nan_l in Hx. now rewrite Hx.
Qed.

Lemma filter_none {A : Type} (p : A -> bool) (l : list A) :
  (forall x, In x l -> p x = false) -> List.filter p l = [].
Proof.
  induction l as [|x l IH]; intros Hp; simpl; [reflexivity|].
  rewrite (Hp x) by now left. apply IH. intros y Hy. apply Hp. now right.
Qed.

Lemma filter_filter_same {A : Type} (p q : A -> bool) (l : list A) :
  (forall x, In x l -> p x = true -> q x = true) ->
  List.filter p (List.filter q l) = List.filter p l.
Proof.
  induction l as [|x l IH]; intros Hpq; simpl; [reflexivity|].
  destruct (q x) eqn:Eq, (p x) eqn:Ep; simpl; rewrite ?Ep;
    try (rewrite IH by (intros y Hy; apply Hpq; now right); reflexivity).
  rewrite (Hpq x) in Eq by (now left || assumption). discriminate.
Qed.

(** How many of the distinct values equal [v]: one, if [v] occurs. *)
Lemma unique_cells_matches (v : cell) (l : list cell) :
  length (List.filter (cell_eqb v) (unique_cells l))
  = if existsb (cell_eqb v) l then 1%nat else 0%nat.
Proof.
  induction l as [|k l IH]; [reflexivity|].
  cbn [unique_cells List.filter existsb].
  destruct (cell_eqb v k) eqn:E; cbn [orb].
  - rewrite filter_none; [reflexivity|].
    intros x Hx. apply filter_In in Hx. destruct Hx as [_ Hx].
    apply negb_true_iff in Hx.
    destruct (cell_eqb v x) eqn:Evx; [|reflexivity].
    rewrite (cell_eqb_trans x v k) in Hx; [discriminate | now apply cell_eqb_sym | exact E].
  - rewrite filter_filter_same; [exact IH|].
    intros x _ Hvx. apply negb_true_iff.
    destruct (cell_eqb x k) eqn:Exk; [|reflexivity].
    rewrite (cell_eqb_trans v x k Hvx Exk) in E. discriminate.
Qed.

Lemma filter_length_perm {A : Type} (p : A -> bool) (l l' : list A) :
  Permutation l l' -> length (List.filter p l) = length (List.filter p l').
Proof.
  intros Hp. apply Permutation_length.
  induction Hp; simpl.
  - constructor.
  - destruct (p x); [now constructor | assumption].
  - destruct (p x), (p y); try apply perm_swap; try apply Permutation_refl.
  - etransitivity; eassumption.
Qed.

(** Each value that is not missing equals exactly one group key; a missing
    value equals none. *)
Lemma group_keys_matches (ks : list cell) (v : cell) :
  In v ks ->
  length (List.filter (cell_eqb v) (group_keys ks)) = if notna v then 1%nat else 0%nat.
Proof.
  intros Hv. unfold group_keys.
  rewrite (filter_length_perm _ _ _ (sort_cells_perm _)), unique_cells_matches.
  destruct (notna v) eqn:E.
  - replace (existsb (cell_eqb v) (List.filter notna ks)) with true; [reflexivity|].
    symmetry. apply existsb_exists. exists v. split; [|now apply cell_eqb_refl].
    apply filter_In. now split.
  - replace (existsb (cell_eqb v) (List.filter notna ks)) with false; [reflexivity|].
    symmetry. apply not_true_is_false. intros Hex. apply existsb_exists in Hex.
    destruct Hex as (k & _ & Hk). apply cell_eqb_notna_l in Hk. congruence.
Qed.

(** Counting the pairs of a relation by rows or by columns. *)
Lemma double_count {A B : Type} (f : A -> B -> bool) (xs : list A) (ys : list B) :
  list_sum (map (fun y => length (List.filter (fun x => f x y) xs)) ys)
  = list_sum (map (fun x => length (List.filter (f x) ys)) xs).
Proof.
  induction xs as [|x xs IH]; simpl.
  - induction ys as [|y ys IHy]; simpl; [reflexivity | exact IHy].
  - rewrite <- IH. clear IH. induction ys as [|y ys IHy]; simpl; [reflexivity|].
    destruct (f x y); simpl; rewrite IHy; lia.
Qed.

Lemma list_sum_indicator {A : Type} (p : A -> bool) (l : list A) :
  list_sum (map (fun x => if p x then 1%nat else 0%nat) l) = length (List.filter p l).
Proof. induction l as [|x l IH]; simpl; [reflexivity|]. destruct (p x); simpl; lia. Qed.

Lemma list_sum_ext_in {A : Type} (f g : A -> nat) (l : list A) :
  (forall x, In x l -> f x = g x) -> list_sum (map f l) = list_sum (map g l).
Proof.
  induction l as [|x l IH]; intros Hfg; simpl; [reflexivity|].
  rewrite (Hfg x) by now left. rewrite IH; [reflexivity|]. intros y Hy. apply Hfg. now right.
Qed.

(** The groups partition the rows whose key is not missing. *)
Lemma groups_partition (key : string) (rs : list (gmap string cell)) :
  list_sum (map (fun k => length (group_rows key k rs))
                (group_keys (map (fun r => get_cell r key) rs)))
  = length (List.filter (fun r => notna (get_cell r key)) rs).
Proof.
  unfold group_rows.
  rewrite (double_count (fun r k => cell_eqb (get_cell r key) k)).
  rewrite <- list_sum_indicator. apply list_sum_ext_in.
  intros r Hr. apply group_keys_matches.
  now apply (in_map (fun r => get_cell r key)).
Qed.

Lemma groupby_agg_keys (key : string) (rs : list (gmap string cell)) :
  map agg_key (groupby_agg key rs) = group_keys (map (fun r => get_cell r key) rs).
Proof. unfold groupby_agg. rewrite map_map. cbn [agg_key aggregate]. apply map_id. Qed.

Section Partition.
Context `{PyConv}.

(** X6. Grouping loses no sample and counts none twice.  Of any rows taken
    from the runs after [correct] is made numeric (the rows of a category,
    or of a category and a selection of models), the sample counts of the
    per-model groups add up to the number of rows that have a model id: a
    run whose [model_id] is NULL is in no group, every other run, whether
    its [correct] was NULL or not, is counted in exactly one group. *)
Theorem groups_count_every_run_once (df_runs : DataFrame) (rs : list (gmap string cell)) :
  (forall r, In r rs -> In r (rows (coerce_fill_col "correct" 0%Q df_runs))) ->
  list_sum (map agg_total_questions (groupby_agg "model_id" rs))
  = length (List.filter (fun r => notna (get_cell r "model_id")) rs)
  /\ (forall r, In r rs ->
        length (List.filter (fun a => cell_eqb (get_cell r "model_id") (agg_key a))
                            (groupby_agg "model_id" rs))
        = if notna (get_cell r "model_id") then 1%nat else 0%nat).
Proof.
  intros Hrs. split.
  - rewrite <- groups_partition. unfold groupby_agg. rewrite map_map.
    apply list_sum_ext_in. intros k _.
    apply aggregate_count_all. intros r Hr.
    apply (coerce_fill_no_missing "correct" 0%Q df_runs); [reflexivity|].
    unfold group_rows in Hr. apply filter_In in Hr. destruct Hr as [Hr _].
    now apply Hrs.
  - intros r Hr.
    transitivity (length (List.filter (cell_eqb (get_cell r "model_id"))
                                      (map agg_key (groupby_agg "model_id" rs)))).
    + clear Hr. induction (groupby_agg "model_id" rs) as [|a l IH]; simpl; [reflexivity|].
      destruct (cell_eqb _ _); simpl; now rewrite IH.
    + rewrite groupby_agg_keys. apply group_keys_matches.
      now apply (in_map (fun r => get_cell r "model_id")).
Qed.

End Partition.

Lemma groups_count_every_run_once_witness :
  let rs := rows (@IGraphStats.df_category_data
                    (@coerce_fill_col no_text_numbers "correct" 0%Q math_runs) "Math"
                    (Some ["A"; "C"])) in
  list_sum (map agg_total_questions (groupby_agg "model_id" rs))
  = length (List.filter (fun r => notna (get_cell r "model_id")) rs)
  /\ (forall r, In r rs ->
        length (List.filter (fun a => cell_eqb (get_cell r "model_id") (agg_key a))
                            (groupby_agg "model_id" rs))
        = if notna (get_cell r "model_id") then 1%nat else 0%nat).
Proof.
  apply (@groups_count_every_run_once no_text_numbers math_runs).
  intros r Hr. unfold IGraphStats.df_category_data, IGraphStats.select_models in Hr.
  cbn [IGraphStats.truthy rows df_filter] in Hr.
  apply filter_In in Hr. destruct Hr as [Hr _]. now apply filter_In in Hr.
Defined.


(** ** The bars of a category chart *)

Lemma inject_nat_succ (n : nat) :
  (inject_Z (Z.of_nat (S n)) == inject_Z (Z.of_nat n) + 1)%Q.
Proof. rewrite Nat2Z.inj_succ. unfold Z.succ. now rewrite inject_Z_plus. Qed.

(** The sum of answers that are each 0 or 1 lies between 0 and their
    number. *)
Lemma fold_add_bounds (l : list f64) (a : Q) :
  (forall x, In x l -> F64.eqb x 0%Q = true \/ F64.eqb x 1%Q = true) ->
  exists q : Q, fold_left F64.add l (Fin a) = Fin q
    /\ (a <= q)%Q /\ (q <= a + inject_Z (Z.of_nat (length l)))%Q.
Proof.
  revert a. induction l as [|x l IH]; intros a Hl.
  - exists a. split; [reflexivity|]. split; [apply Qle_refl|].
    cbn [length Z.of_nat]. rewrite Qplus_0_r. apply Qle_refl.
  - assert (Hx : exists b : Q, x = Fin b /\ (0 <= b)%Q /\ (b <= 1)%Q).
    { destruct (Hl x (or_introl eq_refl)) as [Hx|Hx]; destruct x as [b| | |]; try discriminate;
        simpl in Hx; apply Qeq_bool_iff in Hx; exists b;
        (split; [reflexivity|]); rewrite Hx; split; now vm_compute. }
    destruct Hx as (b & -> & Hb0 & Hb1).
    destruct (IH (Qred (a + b)) (fun y Hy => Hl y (or_intror Hy))) as (q & Hq & Hlo & Hhi).
    exists q. split; [exact Hq|]. rewrite Qred_correct in Hlo, Hhi.
    cbn [length]. rewrite inject_nat_succ. split.
    + apply Qle_trans with (a + b)%Q; [|exact Hlo].
      rewrite <- (Qplus_0_r a) at 1. now apply Qplus_le_r.
    + apply Qle_trans with (a + b + inject_Z (Z.of_nat (length l)))%Q; [exact Hhi|].
      rewrite <- Qplus_assoc. apply Qplus_le_r.
      rewrite (Qplus_comm (inject_Z _)). now apply Qplus_le_l.
Qed.

Lemma aggregate_bounds (k : cell) (group : list (gmap string cell)) :
  (forall r, In r group ->
             F64.eqb (num_at "correct" r) 0%Q = true \/ F64.eqb (num_at "correct" r) 1%Q = true) ->
  exists c : Q,
    agg_correct_answers (aggregate k group) = Fin c
    /\ (0 <= c)%Q /\ (c <= inject_Z (Z.of_nat (agg_total_questions (aggregate k group))))%Q.
Proof.
  intros Hg. cbn [aggregate agg_correct_answers agg_total_questions].
  unfold series_sum, series_count.
  destruct (fold_add_bounds (List.filter (fun x => negb (F64.isnan x))
                                         (map (num_at "correct") group)) 0%Q)
    as (q & Hq & Hlo & Hhi).
  - intros x Hx. apply filter_In in Hx. destruct Hx as [Hx _].
    apply in_map_iff in Hx. destruct Hx as (r & <- & Hr). now apply Hg.
  - exists q. split; [exact Hq|]. split; [exact Hlo|]. now rewrite Qplus_0_l in Hhi.
Qed.

Lemma percentage_bounds (a : agg_row) (c : Q) :
  agg_correct_answers a = Fin c -> (0 <= c)%Q ->
  (c <= inject_Z (Z.of_nat (agg_total_questions a)))%Q ->
  (1 <= agg_total_questions a)%nat ->
  exists p : Q,
    agg_percentage_correct a = Fin p /\ (0 <= p)%Q /\ (p <= 100)%Q
    /\ (p == 100 * c / inject_Z (Z.of_nat (agg_total_questions a)))%Q.
Proof.
  intros Hc H0 Hle Hn. unfold agg_percentage_correct, F64.of_nat. rewrite Hc.
  set (n := inject_Z (Z.of_nat (agg_total_questions a))) in *.
  assert (Hpos : (0 < n)%Q).
  { unfold n. change 0%Q with (inject_Z 0). rewrite <- Zlt_Qlt. lia. }
  cbn [F64.div F64.mul].
  destruct (Qeq_bool n 0) eqn:E.
  { apply Qeq_bool_iff in E. rewrite E in Hpos. now apply Qlt_irrefl in Hpos. }
  eexists. split; [reflexivity|]. rewrite !Qred_correct.
  assert (Hq0 : (0 <= c / n)%Q).
  { apply Qle_shift_div_l; [exact Hpos|]. now rewrite Qmult_0_l. }
  assert (Hq1 : (c / n <= 1)%Q).
  { apply Qle_shift_div_r; [exact Hpos|]. now rewrite Qmult_1_l. }
  split; [|split].
  - apply Qmult_le_0_compat; [exact Hq0 | now vm_compute].
  - change 100%Q with (1 * 100)%Q at 2. apply Qmult_le_compat_r; [exact Hq1 | now vm_compute].
  - field. intros Hz. rewrite Hz in Hpos. now apply Qlt_irrefl in Hpos.
Qed.

Section CategoryBars.
Context `{PyConv} `{ArgSort}.

Lemma coerced_marks (df_runs : DataFrame) (r : gmap string cell) :
  answers_are_marks df_runs ->
  In r (rows (coerce_fill_col "correct" 0%Q df_runs)) ->
  F64.eqb (num_at "correct" r) 0%Q = true \/ F64.eqb (num_at "correct" r) 1%Q = true.
Proof.
  intros Hm Hr. rewrite rows_coerce_fill_col in Hr. apply in_map_iff in Hr.
  destruct Hr as (r0 & <- & Hr0). unfold num_at. rewrite get_cell_insert_eq. cbn [num_of_cell].
  specialize (Hm r0 Hr0). cbn zeta in Hm.
  destruct (F64.isnan (to_numeric_cell (get_cell r0 "correct"))) eqn:E.
  - now left.
  - destruct Hm as [Hm|Hm]; [discriminate | exact Hm].
Qed.

Lemma group_bar_bounds (df_runs : DataFrame) (rs : list (gmap string cell)) (a : agg_row) :
  answers_are_marks df_runs ->
  (forall r, In r rs -> In r (rows (coerce_fill_col "correct" 0%Q df_runs))) ->
  In a (groupby_agg "model_id" rs) ->
  (1 <= agg_total_questions a)%nat ->
  exists p c : Q,
    agg_percentage_correct a = Fin p /\ (0 <= p)%Q /\ (p <= 100)%Q
    /\ agg_correct_answers a = Fin c /\ (0 <= c)%Q
    /\ (c <= inject_Z (Z.of_nat (agg_total_questions a)))%Q
    /\ (p == 100 * c / inject_Z (Z.of_nat (agg_total_questions a)))%Q.
Proof.
  intros Hm Hrs Ha Hn. apply groupby_agg_in in Ha. destruct Ha as [Ha _].
  destruct (aggregate_bounds (agg_key a) (group_rows "model_id" (agg_key a) rs))
    as (c & Hc & Hc0 & Hle).
  - intros r Hr. unfold group_rows in Hr. apply filter_In in Hr. destruct Hr as [Hr _].
    apply (coerced_marks df_runs); [exact Hm | now apply Hrs].
  - rewrite <- Ha in Hc, Hle.
    destruct (percentage_bounds a c Hc Hc0 Hle Hn) as (p & Hp & Hp0 & Hp1 & Hpe).
    exists p, c. repeat split; assumption.
Qed.

Lemma batch_chart_rows (df_runs df_model_stats : DataFrame) (categories_to_plot : list string)
  (name : string) (bars : list bar) :
  In (SavePlot (BarChart name bars))
     (emitted (snd (GraphStats.plot_top_models_for_specific_categories
                      df_runs categories_to_plot df_model_stats))) ->
  exists category,
    In category categories_to_plot
    /\ name = "category_" +:+ category +:+ "_top_models_bar"
    /\ bars = bars_of_agg (GraphStats.df_sorted (coerce_fill_col "correct" 0%Q df_runs) category).
Proof.
  intros Hev. unfold GraphStats.plot_top_models_for_specific_categories in Hev.
  destruct (df_empty df_runs); [destruct Hev|].
  destruct (negb (forallb _ _)); [destruct Hev|].
  cbn [snd emitted returned] in Hev.
  apply in_flat_map in Hev. destruct Hev as (category & Hcat & Hev).
  unfold GraphStats.plot_one_category in Hev.
  repeat match type of Hev with
         | In _ (if ?c then _ else _) => destruct c
         end;
    try (destruct Hev as [Hev|[]]; discriminate).
  destruct Hev as [Hev|[]]. injection Hev as <- <-.
  exists category. repeat split; [exact Hcat].
Qed.

(** X7. The bars of a category chart are percentages.  When every answer
    in [correct] reads as 0, as 1 or as no number (which is counted as 0),
    each bar of a category chart of either program shows a value between
    0 and 100, and its label [c/n] carries counts [0 <= c <= n] with
    [n >= 1] of which that value is the percentage. *)
Theorem category_bars_are_percentages (df_runs df_model_stats : DataFrame)
  (categories : list string) (selected_models : option (list string))
  (name : string) (bars : list bar) (b : bar) :
  answers_are_marks df_runs ->
  In (SavePlot (BarChart name bars))
     (emitted (snd (GraphStats.plot_top_models_for_specific_categories
                      df_runs categories df_model_stats)))
  \/ In (ShowPlot (BarChart name bars))
        (emitted (snd (IGraphStats.plot_top_models_for_specific_categories
                         df_runs categories df_model_stats selected_models))) ->
  In b bars ->
  exists (p c : Q) (n : nat),
    bar_value b = Fin p /\ (0 <= p)%Q /\ (p <= 100)%Q
    /\ bar_counts b = Some (Fin c, n) /\ (1 <= n)%nat
    /\ (0 <= c)%Q /\ (c <= inject_Z (Z.of_nat n))%Q
    /\ (p == 100 * c / inject_Z (Z.of_nat n))%Q.
Proof.
  intros Hm Hev Hb.
  assert (Ha : exists (a : agg_row) (rs : list (gmap string cell)),
             b = {| bar_label := agg_key a; bar_value := agg_percentage_correct a;
                    bar_counts := Some (agg_correct_answers a, agg_total_questions a) |}
             /\ In a (groupby_agg "model_id" rs)
             /\ (1 <= agg_total_questions a)%nat
             /\ (forall r, In r rs -> In r (rows (coerce_fill_col "correct" 0%Q df_runs)))).
  { destruct Hev as [Hev|Hev].
    - apply batch_chart_rows in Hev. destruct Hev as (category & _ & _ & ->).
      unfold bars_of_agg in Hb. apply in_map_iff in Hb. destruct Hb as (a & <- & Ha).
      unfold GraphStats.df_sorted in Ha. apply ranked_head_incl in Ha.
      unfold GraphStats.model_agg in Ha. apply filter_In in Ha. destruct Ha as [Ha Hmin].
      apply Nat.leb_le in Hmin. unfold GraphStats.MIN_QUESTIONS_FOR_CATEGORY_PLOT in Hmin.
      eexists a, _. split; [reflexivity|]. split; [exact Ha|]. split; [lia|].
      intros r Hr. cbn [rows df_filter] in Hr. now apply filter_In in Hr.
    - apply category_chart_bars in Hev. destruct Hev as (category & rest & _ & Hc).
      injection Hc as _ ->.
      unfold bars_of_agg in Hb. apply in_map_iff in Hb. destruct Hb as (a & <- & Ha).
      assert (Ha' : In a (IGraphStats.model_agg (coerce_fill_col "correct" 0%Q df_runs)
                                               category selected_models)).
      { unfold IGraphStats.category_df_sorted in Ha.
        destruct (negb (IGraphStats.truthy selected_models)).
        - now apply ranked_head_incl in Ha.
        - now apply (Permutation_in _ (sort_desc_perm _ _)) in Ha. }
      unfold IGraphStats.model_agg in Ha'. apply filter_In in Ha'. destruct Ha' as [Ha' Hmin].
      apply Nat.leb_le in Hmin. unfold IGraphStats.MIN_QUESTIONS_FOR_CATEGORY_PLOT in Hmin.
      eexists a, _. split; [reflexivity|]. split; [exact Ha'|]. split; [exact Hmin|].
      intros r Hr. unfold IGraphStats.df_category_data, IGraphStats.select_models in Hr.
      destruct (IGraphStats.truthy selected_models); cbn [rows df_filter] in Hr.
      + apply filter_In in Hr. destruct Hr as [Hr _]. now apply filter_In in Hr.
      + now apply filter_In in Hr. }
  destruct Ha as (a & rs & -> & Ha & Hn & Hrs).
  destruct (group_bar_bounds df_runs rs a Hm Hrs Ha Hn)
    as (p & c & Hp & Hp0 & Hp1 & Hc & Hc0 & Hc1 & Hpe).
  exists p, c, (agg_total_questions a). cbn [bar_value bar_counts].
  rewrite Hc. repeat split; assumption.
Qed.

End CategoryBars.

Lemma category_bars_are_percentages_witness :
  exists (p c : Q) (n : nat),
    bar_value {| bar_label := VStr "A"; bar_value := Fin (200 # 3);
                 bar_counts := Some (Fin 2, 3%nat) |} = Fin p
    /\ (0 <= p)%Q /\ (p <= 100)%Q
    /\ bar_counts {| bar_label := VStr "A"; bar_value := Fin (200 # 3);
                     bar_counts := Some (Fin 2, 3%nat) |} = Some (Fin c, n)
    /\ (1 <= n)%nat
    /\ (0 <= c)%Q /\ (c <= inject_Z (Z.of_nat n))%Q
    /\ (p == 100 * c / inject_Z (Z.of_nat n))%Q.
Proof.
  apply (@category_bars_are_percentages no_text_numbers stable_sort math_runs abc_stats
           ["Math"] None "category_Math_top_models_bar"
           [ {| bar_label := VStr "A"; bar_value := Fin (200 # 3);
                bar_counts := Some (Fin 2, 3%nat) |};
             {| bar_label := VStr "B"; bar_value := Fin (200 # 3);
                bar_counts := Some (Fin 2, 3%nat) |} ]).
  - intros r Hr. cbn in Hr.
    repeat (destruct Hr as [<-|Hr]; [vm_compute; tauto|]). destruct Hr.
  - left. vm_compute. left. reflexivity.
  - left. reflexivity.
Defined.

Example math_chart_bars :
  emitted (snd (@GraphStats.plot_top_models_for_specific_categories
                  no_text_numbers stable_sort math_runs ["Math"] abc_stats))
  = [SavePlot (BarChart "category_Math_top_models_bar"
       [ {| bar_label := VStr "A"; bar_value := Fin (200 # 3);
            bar_counts := Some (Fin 2, 3%nat) |};
         {| bar_label := VStr "B"; bar_value := Fin (200 # 3);
            bar_counts := Some (Fin 2, 3%nat) |} ])].
Proof. vm_compute. reflexivity. Qed.


(** ** A list of categories, in the two programs *)

Section CategoryLists.
Context `{PyConv} `{ArgSort}.

Lemma plot_one_category_single (df_runs : DataFrame) (category : string) :
  exists e, GraphStats.plot_one_category df_runs category = [e].
Proof.
  unfold GraphStats.plot_one_category.
  repeat match goal with |- context [if ?c then _ else _] => destruct c end; eauto.
Qed.

Lemma flat_map_singletons {A B : Type} (f : A -> list B) (l : list A) (i : nat) (x : A) :
  (forall y, exists e, f y = [e]) ->
  length (flat_map f l) = length l
  /\ (l !! i = Some x -> flat_map f l !! i = f x !! 0%nat).
Proof.
  intros Hf. revert i. induction l as [|y l IH]; intros i; [split; [reflexivity | discriminate]|].
  cbn [flat_map]. destruct (Hf y) as [e He]. rewrite He. cbn [app length]. split.
  - f_equal. apply (IH 0%nat).
  - destruct i as [|i]; cbn.
    + intros Hx. injection Hx as <-. now rewrite He.
    + apply IH.
Qed.


End CategoryLists.


(** ** The interactive application: loading *)

Ltac py_steps :=
  do 3 (unfold mbind, mret, Py_bind, Py_ret, bind, ret, throw, try_except, emit, emit_all,
               alloc, read, write, copy, get_globals, set_globals, IGraphStats.modify;
        cbn [fst snd globals heap log
             IGraphStats.db_path_global IGraphStats.df_model_stats_global
             IGraphStats.df_benchmark_runs_global IGraphStats.all_model_names_global
             IGraphStats.all_categories_global IGraphStats.db_status_label
             IGraphStats.model_listbox IGraphStats.curselection IGraphStats.category_dropdown
             IGraphStats.category_var IGraphStats.initial_message_label
             read_sql_query String.eqb Ascii.eqb Bool.eqb]).

Ltac app_fields :=
  cbn [widgets globals heap log fst snd
       IGraphStats.db_path_global IGraphStats.df_model_stats_global
       IGraphStats.df_benchmark_runs_global IGraphStats.all_model_names_global
       IGraphStats.all_categories_global IGraphStats.db_status_label
       IGraphStats.model_listbox IGraphStats.curselection IGraphStats.category_dropdown
       IGraphStats.category_var IGraphStats.initial_message_label].

Section Loading.
Context `{PyConv}.

Lemma has_col_set_col (df : DataFrame) (c c' : string) (vals : list cell) :
  has_col df c' = true -> has_col (set_col df c vals) c' = true.
Proof.
  intros Hc. unfold set_col, has_col at 1. cbn [columns].
  destruct (has_col df c); [exact Hc|].
  rewrite existsb_app. unfold has_col in Hc. now rewrite Hc.
Qed.

Lemma has_col_set_col_ne (df : DataFrame) (c c' : string) (vals : list cell) :
  c <> c' -> has_col (set_col df c vals) c' = has_col df c'.
Proof.
  intros Hc. unfold set_col, has_col at 1. cbn [columns].
  destruct (has_col df c); [reflexivity|].
  rewrite existsb_app. cbn. rewrite orb_false_r.
  destruct (String.eqb_spec c' c); [congruence | apply orb_false_r].
Qed.

Lemma load_percentage_has_model_id (df : DataFrame) :
  has_col (IGraphStats.load_percentage_correct df) "model_id" = has_col df "model_id".
Proof.
  unfold IGraphStats.load_percentage_correct, coerce_fill_col.
  repeat match goal with |- context [if ?c then _ else _] => destruct c end;
    rewrite ?has_col_set_col_ne by discriminate; reflexivity.
Qed.

Lemma load_percentage_model_ids (df : DataFrame) :
  col (IGraphStats.load_percentage_correct df) "model_id" = col df "model_id".
Proof.
  unfold IGraphStats.load_percentage_correct, coerce_fill_col.
  repeat match goal with |- context [if ?c then _ else _] => destruct c end;
    rewrite ?col_set_col_ne by discriminate; reflexivity.
Qed.

(** A failing [try] body has filled no widget; it raised before the
    success box or right after it. *)
Lemma load_db_try_failure (fs : filesystem) (filepath : string)
  (s s' : py_state IGraphStats.app) (e : string) :
  IGraphStats.load_db_try fs filepath s = (Exc e, s') ->
  widgets (globals s') = widgets (globals s)
  /\ IGraphStats.db_path_global (globals s') = IGraphStats.db_path_global (globals s)
  /\ (log s' = log s
      \/ (log s' = log s ++ [MessageBox "info" "Database loaded successfully!"]
          /\ exists stats runs, fs filepath = Some (Sqlite (Some stats) (Some runs)))).
Proof.
  unfold IGraphStats.load_db_try, IGraphStats.connect, IGraphStats.read_table,
    IGraphStats.sorted_names.
  destruct (fs filepath) as [[| |[ms|] [br|]]|]; py_steps.
  1-2: intros Hx; injection Hx as <- <-; app_fields; repeat split; left; reflexivity.
  2-5: intros Hx; injection Hx as <- <-; app_fields; repeat split; left; reflexivity.
  destruct (negb (has_col (IGraphStats.load_percentage_correct ms) "model_id")); py_steps.
  { intros Hx. injection Hx as <- <-. app_fields. repeat split. right. split; [reflexivity | eauto]. }
  destruct (_ || _ || _); py_steps.
  - destruct (negb (df_empty br) && has_col br "category"); py_steps. all: discriminate.
  - intros Hx. injection Hx as <- <-. app_fields. repeat split. right. split; [reflexivity | eauto].
Qed.

Lemma set_db_path_state (filepath : string) (s : py_state IGraphStats.app) :
  widgets (globals (snd (IGraphStats.set_db_path filepath s))) = widgets (globals s)
  /\ IGraphStats.db_path_global (globals (snd (IGraphStats.set_db_path filepath s))) = filepath
  /\ log (snd (IGraphStats.set_db_path filepath s)) = log s.
Proof. unfold IGraphStats.set_db_path. py_unfold. app_fields. repeat split. Qed.

Lemma load_db_except_state (e : string) (s : py_state IGraphStats.app) :
  fst (IGraphStats.load_db_except e s) = Ok tt
  /\ widgets (globals (snd (IGraphStats.load_db_except e s))) = widgets (globals s)
  /\ IGraphStats.db_path_global (globals (snd (IGraphStats.load_db_except e s)))
     = IGraphStats.db_path_global (globals s)
  /\ IGraphStats.db_status_label (globals (snd (IGraphStats.load_db_except e s)))
     = "Error loading DB."
  /\ log (snd (IGraphStats.load_db_except e s))
     = log s ++ [MessageBox "error" ("Failed to load database: " +:+ e)].
Proof. unfold IGraphStats.load_db_except. py_unfold. app_fields. repeat split. Qed.

Lemma load_db_on_failure (fs : filesystem) (filepath : string)
  (s s' : py_state IGraphStats.app) (e : string) :
  filepath <> "" ->
  IGraphStats.load_db_try fs filepath (snd (IGraphStats.set_db_path filepath s)) = (Exc e, s') ->
  IGraphStats.load_db fs filepath s = IGraphStats.load_db_except e s'.
Proof.
  intros Hp Hfail. unfold IGraphStats.load_db.
  destruct (String.eqb filepath "") eqn:E; [apply String.eqb_eq in E; congruence|].
  unfold mbind, Py_bind, bind, try_except.
  replace (IGraphStats.set_db_path filepath s)
    with (Ok tt, snd (IGraphStats.set_db_path filepath s)) by reflexivity.
  now rewrite Hfail.
Qed.

(** X9. What a failed load leaves on the screen.  The exception is caught;
    the path of the file that failed is kept in [db_path_global] and the
    status label reads "Error loading DB."; both tables are empty; but the
    list box of models, its selection, the category dropdown and the chosen
    category still show the dataset loaded before.  The error box is the
    last message, and when both tables could be read it comes right after
    the box that reports success. *)
Theorem failed_load_leaves_lists_stale (fs : filesystem) (filepath : string)
  (s : py_state IGraphStats.app) :
  filepath <> "" -> IGraphStats.load_fails fs filepath s ->
  fst (IGraphStats.load_db fs filepath s) = Ok tt
  /\ widgets (globals (snd (IGraphStats.load_db fs filepath s))) = widgets (globals s)
  /\ IGraphStats.db_path_global (globals (snd (IGraphStats.load_db fs filepath s))) = filepath
  /\ IGraphStats.db_status_label (globals (snd (IGraphStats.load_db fs filepath s)))
     = "Error loading DB."
  /\ IGraphStats.dataset (snd (IGraphStats.load_db fs filepath s))
     = (Some empty_frame, Some empty_frame)
  /\ exists e,
       log (snd (IGraphStats.load_db fs filepath s))
       = log s ++ [MessageBox "error" ("Failed to load database: " +:+ e)]
       \/ (log (snd (IGraphStats.load_db fs filepath s))
           = log s ++ [MessageBox "info" "Database loaded successfully!";
                       MessageBox "error" ("Failed to load database: " +:+ e)]
           /\ exists stats runs, fs filepath = Some (Sqlite (Some stats) (Some runs))).
Proof.
  intros Hp Hfails. pose proof (load_db_failed fs filepath s Hp Hfails) as Hdata.
  destruct Hfails as (e & s' & Hfail).
  rewrite (load_db_on_failure fs filepath s s' e Hp Hfail) in *.
  destruct (load_db_try_failure fs filepath _ s' e Hfail) as (Hw & Hpath & Hlog).
  destruct (set_db_path_state filepath s) as (Hw0 & Hpath0 & Hlog0).
  destruct (load_db_except_state e s') as (Hok & Hw1 & Hpath1 & Hstatus & Hlog1).
  split; [exact Hok|]. split; [congruence|]. split; [congruence|].
  split; [exact Hstatus|]. split; [exact Hdata|].
  exists e. rewrite Hlog1. destruct Hlog as [Hl|[Hl Hfs]].
  - left. congruence.
  - right. split; [|exact Hfs]. rewrite Hl, Hlog0, <- app_assoc. reflexivity.
Qed.

(** X10. A database whose [model_stats] has no [model_id] column.  Both
    tables are read, the box "Database loaded successfully!" is shown, and
    then filling the list box fails: an error box follows, and the dataset
    that was just read is thrown away. *)
Theorem load_without_model_id_reports_success_then_error (fs : filesystem)
  (filepath : string) (s : py_state IGraphStats.app) (stats runs : DataFrame) :
  filepath <> "" ->
  fs filepath = Some (Sqlite (Some stats) (Some runs)) ->
  has_col stats "model_id" = false ->
  (exists e,
     log (snd (IGraphStats.load_db fs filepath s))
     = log s ++ [MessageBox "info" "Database loaded successfully!";
                 MessageBox "error" ("Failed to load database: " +:+ e)])
  /\ IGraphStats.dataset (snd (IGraphStats.load_db fs filepath s))
     = (Some empty_frame, Some empty_frame)
  /\ widgets (globals (snd (IGraphStats.load_db fs filepath s))) = widgets (globals s).
Proof.
  intros Hp Hfs Hid.
  assert (Hfail : exists s',
             IGraphStats.load_db_try fs filepath (snd (IGraphStats.set_db_path filepath s))
             = (Exc "KeyError: 'model_id'", s')
             /\ log s' = log s ++ [MessageBox "info" "Database loaded successfully!"]).
  { unfold IGraphStats.load_db_try, IGraphStats.connect, IGraphStats.read_table,
      IGraphStats.sorted_names.
    rewrite Hfs. py_steps. rewrite load_percentage_has_model_id, Hid. py_steps.
    eexists. split; reflexivity. }
  destruct Hfail as (s' & Hfail & Hlog).
  assert (Hfails : IGraphStats.load_fails fs filepath s) by (red; eauto).
  pose proof (load_db_failed fs filepath s Hp Hfails) as Hdata.
  destruct (load_db_try_failure fs filepath _ s' _ Hfail) as (Hw & _ & _).
  rewrite (load_db_on_failure fs filepath s s' _ Hp Hfail) in *.
  destruct (load_db_except_state "KeyError: 'model_id'" s') as (_ & Hw1 & _ & _ & Hlog1).
  split; [|split; [exact Hdata|]].
  - eexists. rewrite Hlog1, Hlog, <- app_assoc. reflexivity.
  - rewrite Hw1, Hw. reflexivity.
Qed.

End Loading.

Lemma failed_load_leaves_lists_stale_witness :
  fst (@IGraphStats.load_db no_text_numbers broken_file "broken.db" loaded_session) = Ok tt
  /\ widgets (globals (snd (@IGraphStats.load_db no_text_numbers broken_file "broken.db"
                             loaded_session)))
     = widgets (globals loaded_session)
  /\ IGraphStats.db_path_global
       (globals (snd (@IGraphStats.load_db no_text_numbers broken_file "broken.db"
                        loaded_session))) = "broken.db"
  /\ IGraphStats.db_status_label
       (globals (snd (@IGraphStats.load_db no_text_numbers broken_file "broken.db"
                        loaded_session))) = "Error loading DB."
  /\ IGraphStats.dataset (snd (@IGraphStats.load_db no_text_numbers broken_file "broken.db"
                                 loaded_session))
     = (Some empty_frame, Some empty_frame)
  /\ exists e,
       log (snd (@IGraphStats.load_db no_text_numbers broken_file "broken.db" loaded_session))
       = log loaded_session ++ [MessageBox "error" ("Failed to load database: " +:+ e)]
       \/ (log (snd (@IGraphStats.load_db no_text_numbers broken_file "broken.db"
                       loaded_session))
           = log loaded_session ++ [MessageBox "info" "Database loaded successfully!";
                                    MessageBox "error" ("Failed to load database: " +:+ e)]
           /\ exists stats runs, broken_file "broken.db" = Some (Sqlite (Some stats) (Some runs))).
Proof.
  apply (@failed_load_leaves_lists_stale no_text_numbers broken_file "broken.db" loaded_session).
  - discriminate.
  - apply load_fails_on. exact I.
Defined.

Lemma load_without_model_id_reports_success_then_error_witness :
  (exists e,
     log (snd (@IGraphStats.load_db no_text_numbers no_model_id_file "benchmark.db"
                 loaded_session))
     = log loaded_session
       ++ [MessageBox "info" "Database loaded successfully!";
           MessageBox "error" ("Failed to load database: " +:+ e)])
  /\ IGraphStats.dataset (snd (@IGraphStats.load_db no_text_numbers no_model_id_file
                                 "benchmark.db" loaded_session))
     = (Some empty_frame, Some empty_frame)
  /\ widgets (globals (snd (@IGraphStats.load_db no_text_numbers no_model_id_file
                             "benchmark.db" loaded_session)))
     = widgets (globals loaded_session).
Proof.
  apply (@load_without_model_id_reports_success_then_error no_text_numbers no_model_id_file
           "benchmark.db" loaded_session no_model_id math_runs).
  - discriminate.
  - reflexivity.
  - reflexivity.
Defined.


(** ** The interactive application: the chart buttons without data *)

Section Buttons.
Context `{PyConv} `{ArgSort}.

Lemma callbacks_warn (s : py_state IGraphStats.app) (stats runs : DataFrame)
  (cb : Py IGraphStats.app unit) :
  IGraphStats.dataset s = (Some stats, Some runs) ->
  df_empty stats = true -> df_empty runs = true ->
  In cb IGraphStats.chart_callbacks ->
  cb s = (Ok tt, mkState (globals s) (heap s)
                   (log s ++ [MessageBox "warning" "Please load a database first."])).
Proof.
  intros Hd Hs Hr Hcb. unfold IGraphStats.dataset in Hd. injection Hd as Hst Hru.
  unfold IGraphStats.chart_callbacks in Hcb.
  repeat (destruct Hcb as [<-|Hcb]);
    try destruct Hcb;
    unfold IGraphStats.plot_overall_correctness_gui, IGraphStats.plot_speeds_scatter_gui,
      IGraphStats.plot_prompt_speed_quality_gui, IGraphStats.plot_gen_speed_quality_gui,
      IGraphStats.plot_category_heatmap_gui, IGraphStats.plot_category_bar_gui,
      IGraphStats.stats_guard;
    py_unfold; rewrite ?Hst, ?Hru; py_unfold; rewrite ?Hst, ?Hru; py_unfold;
    rewrite ?Hs, ?Hr; reflexivity.
Qed.

(** X11. The chart buttons without data.  While both tables are empty, as
    they are before the first load and after every failed load, each of
    the six chart buttons shows the warning "Please load a database first."
    and does nothing else: no chart, no other message, no change to the
    tables or the widgets.  The category bar button does so as soon as the
    runs table is empty, whatever the model table holds. *)
Theorem chart_buttons_without_data :
  (forall (s : py_state IGraphStats.app) (stats runs : DataFrame)
          (cb : Py IGraphStats.app unit),
     IGraphStats.dataset s = (Some stats, Some runs) ->
     df_empty stats = true -> df_empty runs = true ->
     In cb IGraphStats.chart_callbacks ->
     cb s = (Ok tt, mkState (globals s) (heap s)
                      (log s ++ [MessageBox "warning" "Please load a database first."])))
  /\ (forall (fs : filesystem) (filepath : string) (s : py_state IGraphStats.app)
             (cb : Py IGraphStats.app unit),
        filepath <> "" -> IGraphStats.load_fails fs filepath s ->
        In cb IGraphStats.chart_callbacks ->
        cb (snd (IGraphStats.load_db fs filepath s))
        = (Ok tt, mkState (globals (snd (IGraphStats.load_db fs filepath s)))
                          (heap (snd (IGraphStats.load_db fs filepath s)))
                          (log (snd (IGraphStats.load_db fs filepath s))
                           ++ [MessageBox "warning" "Please load a database first."])))
  /\ (forall (s : py_state IGraphStats.app) (stats runs : DataFrame),
        IGraphStats.dataset s = (Some stats, Some runs) ->
        df_empty runs = true ->
        IGraphStats.plot_category_bar_gui s
        = (Ok tt, mkState (globals s) (heap s)
                          (log s ++ [MessageBox "warning" "Please load a database first."]))).
Proof.
  split; [|split].
  - apply callbacks_warn.
  - intros fs filepath s cb Hp Hfails Hcb.
    apply (callbacks_warn _ empty_frame empty_frame); try reflexivity; [|exact Hcb].
    now apply load_db_failed.
  - intros s stats runs Hd Hr. unfold IGraphStats.dataset in Hd. injection Hd as Hst Hru.
    unfold IGraphStats.plot_category_bar_gui. py_unfold. rewrite Hru. py_unfold.
    now rewrite Hr.
Qed.

End Buttons.


(** ** The category column *)

Section Categories.
Context `{PyConv}.

Lemma category_text_is_text (v : cell) : exists s, category_text v = VStr s.
Proof. destruct v as [|x|s]; simpl; [eauto | destruct (F64.isnan x); eauto | eauto]. Qed.

Lemma category_text_idem (v : cell) : category_text (category_text v) = category_text v.
Proof. destruct (category_text_is_text v) as [s ->]. reflexivity. Qed.

Lemma rows_fill_category (df : DataFrame) :
  rows (fill_category df)
  = map (fun r => <["category" := category_text (get_cell r "category")]> r) (rows df).
Proof.
  unfold fill_category, set_col, col. cbn [rows]. rewrite map_map. apply assign_map.
Qed.

Lemma col_fill_category (df : DataFrame) :
  col (fill_category df) "category" = map category_text (col df "category").
Proof.
  unfold col. rewrite rows_fill_category, !map_map. apply map_ext.
  intros r. apply get_cell_insert_eq.
Qed.

(** X12. The category column after [fillna('Uncategorized').astype(str)],
    which both programs apply before any category chart.  Every cell is
    text: a NULL has become "Uncategorized" and text is kept as it is, so
    the later test [category.notna()] drops no run and runs without a
    category are charted under "Uncategorized".  The other columns, the
    column labels and the number of rows are unchanged, and filling a
    second time changes nothing. *)
Theorem category_column_is_text_after_fill (df : DataFrame) :
  has_col df "category" = true ->
  (forall v, In v (col (fill_category df) "category") -> exists s, v = VStr s)
  /\ List.filter (fun r => notna (get_cell r "category")) (rows (fill_category df))
     = rows (fill_category df)
  /\ (forall (i : nat) (r : gmap string cell),
        rows df !! i = Some r ->
        exists r', rows (fill_category df) !! i = Some r'
          /\ (get_cell r "category" = VNone -> get_cell r' "category" = VStr "Uncategorized")
          /\ (forall s, get_cell r "category" = VStr s -> get_cell r' "category" = VStr s)
          /\ (forall c, c <> "category" -> get_cell r' c = get_cell r c))
  /\ columns (fill_category df) = columns df
  /\ length (rows (fill_category df)) = length (rows df)
  /\ fill_category (fill_category df) = fill_category df.
Proof.
  intros Hc.
  assert (Htext : forall v, In v (col (fill_category df) "category") -> exists s, v = VStr s).
  { intros v Hv. rewrite col_fill_category in Hv. apply in_map_iff in Hv.
    destruct Hv as (w & <- & _). apply category_text_is_text. }
  split; [exact Htext|]. split; [|split; [|split; [|split]]].
  - apply forallb_filter_id. apply forallb_forall. intros r Hr.
    destruct (Htext (get_cell r "category")) as [s ->]; [|reflexivity].
    now apply (in_map (fun r => get_cell r "category")).
  - intros i r Hr. rewrite rows_fill_category, list_lookup_fmap, Hr. cbn.
    eexists. split; [reflexivity|]. split; [|split].
    + intros Hn. now rewrite get_cell_insert_eq, Hn.
    + intros s Hs. now rewrite get_cell_insert_eq, Hs.
    + intros c Hne. now rewrite get_cell_insert_ne by congruence.
  - unfold fill_category, set_col. cbn [columns]. now rewrite Hc.
  - now rewrite rows_fill_category, length_map.
  - assert (Hcols : columns (fill_category df) = columns df).
    { unfold fill_category, set_col. cbn [columns]. now rewrite Hc. }
    assert (Hrows : rows (fill_category (fill_category df)) = rows (fill_category df)).
    { rewrite (rows_fill_category (fill_category df)), rows_fill_category, map_map.
      apply map_ext. intros r. rewrite get_cell_insert_eq, category_text_idem.
      apply insert_insert_eq. }
    assert (Hcols2 : columns (fill_category (fill_category df)) = columns (fill_category df)).
    { unfold fill_category at 1, set_col. cbn [columns].
      unfold has_col. rewrite Hcols. unfold has_col in Hc. now rewrite Hc. }
    destruct (fill_category (fill_category df)) as [c2 r2], (fill_category df) as [c1 r1].
    cbn in *. congruence.
Qed.

End Categories.

Lemma category_column_is_text_after_fill_witness :
  (forall v, In v (col (@fill_category no_text_numbers runs_with_null) "category") ->
             exists s, v = VStr s)
  /\ List.filter (fun r => notna (get_cell r "category"))
                 (rows (@fill_category no_text_numbers runs_with_null))
     = rows (@fill_category no_text_numbers runs_with_null)
  /\ (forall (i : nat) (r : gmap string cell),
        rows runs_with_null !! i = Some r ->
        exists r', rows (@fill_category no_text_numbers runs_with_null) !! i = Some r'
          /\ (get_cell r "category" = VNone -> get_cell r' "category" = VStr "Uncategorized")
          /\ (forall s, get_cell r "category" = VStr s -> get_cell r' "category" = VStr s)
          /\ (forall c, c <> "category" -> get_cell r' c = get_cell r c))
  /\ columns (@fill_category no_text_numbers runs_with_null) = columns runs_with_null
  /\ length (rows (@fill_category no_text_numbers runs_with_null))
     = length (rows runs_with_null)
  /\ @fill_category no_text_numbers (@fill_category no_text_numbers runs_with_null)
     = @fill_category no_text_numbers runs_with_null.
Proof.
  apply (@category_column_is_text_after_fill no_text_numbers runs_with_null). reflexivity.
Defined.


(** ** The interactive application: a successful load *)

Lemma all_text_forall (ks : list cell) :
  IGraphStats.all_text ks = true <-> forall k, In k ks -> is_text k = true.
Proof. unfold IGraphStats.all_text. rewrite forallb_forall. reflexivity. Qed.

Lemma cell_leb_total_text (a b : cell) :
  is_text a = true -> is_text b = true -> cell_leb a b = true \/ cell_leb b a = true.
Proof. destruct a, b; try discriminate. intros _ _. apply String.leb_total. Qed.

Lemma insert_cell_in (k x : cell) (l : list cell) : In x (insert_cell k l) <-> x = k \/ In x l.
Proof.
  split.
  - intros Hx. apply (Permutation_in _ (insert_cell_perm k l)) in Hx.
    destruct Hx as [<-|Hx]; auto.
  - intros Hx. apply (Permutation_in _ (Permutation_sym (insert_cell_perm k l))).
    destruct Hx as [->|Hx]; [now left | now right].
Qed.

Lemma insert_cell_sorted (k : cell) (l : list cell) :
  is_text k = true -> (forall x, In x l -> is_text x = true) ->
  Sorted (fun a b => cell_leb a b = true) l ->
  Sorted (fun a b => cell_leb a b = true) (insert_cell k l).
Proof.
  intros Hk Hl Hs. induction Hs as [|x l Hs IH Hhd]; simpl.
  - repeat constructor.
  - destruct (cell_leb k x) eqn:E.
    + constructor; [now constructor | now constructor].
    + assert (Hxk : cell_leb x k = true).
      { destruct (cell_leb_total_text k x Hk (Hl x (or_introl eq_refl))); congruence. }
      constructor.
      * apply IH. intros y Hy. apply Hl. now right.
      * destruct l as [|y l]; simpl; [now constructor|].
        destruct (cell_leb k y); constructor; [exact Hxk|].
        now inversion Hhd.
Qed.

Lemma sort_cells_sorted (l : list cell) :
  (forall x, In x l -> is_text x = true) ->
  Sorted (fun a b => cell_leb a b = true) (sort_cells l).
Proof.
  induction l as [|k l IH]; intros Hl; simpl; [constructor|].
  apply insert_cell_sorted.
  - apply Hl. now left.
  - intros x Hx. apply (Permutation_in _ (sort_cells_perm l)) in Hx. apply Hl. now right.
  - apply IH. intros x Hx. apply Hl. now right.
Qed.

Lemma unique_cells_NoDup (l : list cell) :
  (forall x, In x (unique_cells l) -> is_text x = true) -> List.NoDup (unique_cells l).
Proof.
  induction l as [|k l IH]; intros Hl; simpl; [constructor|].
  assert (Hk : is_text k = true) by (apply Hl; now left).
  constructor.
  - intros Hin. apply filter_In in Hin. destruct Hin as [_ Hin].
    destruct k as [| |s]; try discriminate.
    simpl in Hin. now rewrite String.eqb_refl in Hin.
  - apply List.NoDup_filter. apply IH. intros x Hx.
    destruct (cell_eqb x k) eqn:E.
    + destruct k as [| |s]; try discriminate. now destruct x.
    + apply Hl. right. apply filter_In. split; [exact Hx|]. now rewrite E.
Qed.

Lemma unique_cells_keeps_text (l : list cell) (k : cell) :
  is_text k = true -> In k l -> In k (unique_cells l).
Proof. destruct k as [| |s]; try discriminate. intros _. apply unique_cells_text. Qed.

Section SortedNames.
Context `{PyConv}.

Lemma item_text_sorted (names : list cell) :
  (forall x, In x names -> is_text x = true) ->
  Sorted (fun a b => cell_leb a b = true) names ->
  Sorted (fun s t => String.leb s t = true) (map IGraphStats.item_text names).
Proof.
  intros Ht Hs. induction Hs as [|x l Hs IH Hhd]; simpl; [constructor|].
  constructor.
  - apply IH. intros y Hy. apply Ht. now right.
  - destruct l as [|y l]; simpl; [constructor|]. constructor.
    inversion Hhd as [|? ? Hxy]; subst.
    pose proof (Ht x (or_introl eq_refl)) as Hx.
    pose proof (Ht y (or_intror (or_introl eq_refl))) as Hy.
    destruct x, y; try discriminate. exact Hxy.
Qed.

Lemma item_text_NoDup (names : list cell) :
  (forall x, In x names -> is_text x = true) ->
  List.NoDup names -> List.NoDup (map IGraphStats.item_text names).
Proof.
  intros Ht Hnd. induction Hnd as [|x l Hx Hnd IH]; simpl; [constructor|].
  constructor.
  - intros Hin. apply in_map_iff in Hin. destruct Hin as (y & Hy & Hyl).
    pose proof (Ht x (or_introl eq_refl)) as Htx.
    pose proof (Ht y (or_intror Hyl)) as Hty.
    destruct x, y; try discriminate. simpl in Hy. subst. contradiction.
  - apply IH. intros y Hy. apply Ht. now right.
Qed.

(** A list of names as the list box and the dropdown show it. *)
Lemma sorted_names_text (ks : list cell) :
  IGraphStats.all_text (unique_cells ks) = true ->
  let names := sort_cells (unique_cells ks) in
  Sorted (fun s t => String.leb s t = true) (map IGraphStats.item_text names)
  /\ List.NoDup (map IGraphStats.item_text names)
  /\ (forall s, In s (map IGraphStats.item_text names) <-> In (VStr s) ks).
Proof.
  intros Ht names. pose proof (proj1 (all_text_forall _) Ht) as Htext. clear Ht.
  rename Htext into Ht.
  assert (Hnames : forall x, In x names -> is_text x = true).
  { intros x Hx. apply Ht. now apply (Permutation_in _ (sort_cells_perm _)) in Hx. }
  split; [|split].
  - apply item_text_sorted; [exact Hnames|]. now apply sort_cells_sorted.
  - apply item_text_NoDup; [exact Hnames|].
    apply (Permutation_NoDup (Permutation_sym (sort_cells_perm _))).
    now apply unique_cells_NoDup.
  - intros s. split.
    + intros Hs. apply in_map_iff in Hs. destruct Hs as (k & Hk & Hin).
      pose proof (Hnames k Hin) as Hkt. destruct k; try discriminate. simpl in Hk. subst.
      apply unique_cells_incl. now apply (Permutation_in _ (sort_cells_perm _)) in Hin.
    + intros Hs. apply in_map_iff. exists (VStr s). split; [reflexivity|].
      apply (Permutation_in _ (Permutation_sym (sort_cells_perm _))).
      now apply unique_cells_text.
Qed.

Lemma omap_text (l : list cell) :
  (forall x, In x l -> is_text x = true) ->
  omap (fun v => match v with VStr s => Some s | _ => None end) l
  = map IGraphStats.item_text l.
Proof.
  induction l as [|k l IH]; intros Hl; [reflexivity|].
  pose proof (Hl k (or_introl eq_refl)) as Hk. destruct k; try discriminate.
  cbn. f_equal. apply IH. intros x Hx. apply Hl. now right.
Qed.

Lemma filled_categories_text (df : DataFrame) :
  IGraphStats.all_text (unique_cells (col (fill_category df) "category")) = true.
Proof.
  apply all_text_forall. intros k Hk. apply unique_cells_incl in Hk.
  rewrite col_fill_category in Hk. apply in_map_iff in Hk. destruct Hk as (v & <- & _).
  now destruct (category_text_is_text v) as [s ->].
Qed.

(** The state a successful [try] body leaves. *)
Lemma load_db_try_success (fs : filesystem) (filepath : string)
  (s : py_state IGraphStats.app) (stats runs : DataFrame) :
  fs filepath = Some (Sqlite (Some stats) (Some runs)) ->
  has_col stats "model_id" = true ->
  IGraphStats.all_text (unique_cells (col stats "model_id")) = true ->
  let names := sort_cells (unique_cells (col stats "model_id")) in
  let with_cats := negb (df_empty runs) && has_col runs "category" in
  let cats := omap (fun v => match v with VStr c => Some c | _ => None end)
                   (sort_cells (unique_cells (col (fill_category runs) "category"))) in
  exists s',
    IGraphStats.load_db_try fs filepath s = (Ok tt, s')
    /\ log s' = log s ++ [MessageBox "info" "Database loaded successfully!"]
    /\ IGraphStats.dataset s'
       = (Some (IGraphStats.load_percentage_correct stats),
          Some (if with_cats then fill_category runs else runs))
    /\ IGraphStats.db_path_global (globals s') = IGraphStats.db_path_global (globals s)
    /\ IGraphStats.all_model_names_global (globals s') = names
    /\ IGraphStats.model_listbox (globals s') = map IGraphStats.item_text names
    /\ IGraphStats.curselection (globals s') = []
    /\ IGraphStats.category_dropdown (globals s') = (if with_cats then cats else [])
    /\ IGraphStats.all_categories_global (globals s')
       = (if with_cats then cats else IGraphStats.all_categories_global (globals s))
    /\ IGraphStats.category_var (globals s')
       = (if with_cats then match cats with c :: _ => c | [] => IGraphStats.category_var (globals s) end
          else IGraphStats.category_var (globals s))
    /\ IGraphStats.initial_message_label (globals s') = false.
Proof.
  intros Hfs Hid Ht names with_cats cats.
  unfold IGraphStats.load_db_try, IGraphStats.connect, IGraphStats.read_table,
    IGraphStats.sorted_names.
  rewrite Hfs. py_steps.
  rewrite load_percentage_has_model_id, Hid, load_percentage_model_ids, Ht.
  py_steps. fold with_cats. fold names.
  assert (Hl : forall (h : gmap loc DataFrame) (a b : DataFrame),
             <[fresh (dom (<[fresh (dom h) := a]> h)) := b]> (<[fresh (dom h) := a]> h)
               !! fresh (dom h) = Some a).
  { intros h a b. rewrite lookup_insert_ne by apply fresh_after_insert.
    apply lookup_insert_eq. }
  destruct with_cats; py_steps; fold cats;
    (eexists; split; [reflexivity|]); unfold IGraphStats.dataset; app_fields;
    repeat split.
  - f_equal.
    + rewrite lookup_insert_ne by apply fresh_after_insert.
      rewrite lookup_insert_eq. reflexivity.
    + rewrite lookup_insert_eq. reflexivity.
  - f_equal.
    + rewrite lookup_insert_eq. reflexivity.
    + rewrite lookup_insert_ne by (intros He; symmetry in He; revert He; apply fresh_after_insert).
      rewrite lookup_insert_eq. reflexivity.
Qed.

End SortedNames.


Section SuccessfulLoad.
Context `{PyConv}.

Lemma load_db_on_success (fs : filesystem) (filepath : string)
  (s s' : py_state IGraphStats.app) :
  filepath <> "" ->
  IGraphStats.load_db_try fs filepath (snd (IGraphStats.set_db_path filepath s)) = (Ok tt, s') ->
  IGraphStats.load_db fs filepath s = (Ok tt, s').
Proof.
  intros Hp Hok. unfold IGraphStats.load_db.
  destruct (String.eqb filepath "") eqn:E; [apply String.eqb_eq in E; congruence|].
  unfold mbind, Py_bind, bind, try_except.
  replace (IGraphStats.set_db_path filepath s)
    with (Ok tt, snd (IGraphStats.set_db_path filepath s)) by reflexivity.
  now rewrite Hok.
Qed.

(** X13. What a successful load puts on the screen.  When both tables are
    read and [model_id] holds text, the load shows the success box and
    nothing else, keeps the two tables (with [percentage_correct] settled
    and the categories filled in), and fills the list box with the model
    ids of the table in ascending order, each once, with nothing selected.
    When the runs have a category column, the dropdown lists the
    categories in ascending order, each once, and the first is chosen;
    otherwise the dropdown is empty and the chosen category stays. *)
Theorem successful_load_fills_sorted_lists (fs : filesystem) (filepath : string)
  (s : py_state IGraphStats.app) (stats runs : DataFrame) :
  filepath <> "" ->
  fs filepath = Some (Sqlite (Some stats) (Some runs)) ->
  has_col stats "model_id" = true ->
  (forall v, In v (col stats "model_id") -> is_text v = true) ->
  let s' := snd (IGraphStats.load_db fs filepath s) in
  let with_cats := negb (df_empty runs) && has_col runs "category" in
  fst (IGraphStats.load_db fs filepath s) = Ok tt
  /\ log s' = log s ++ [MessageBox "info" "Database loaded successfully!"]
  /\ IGraphStats.dataset s'
     = (Some (IGraphStats.load_percentage_correct stats),
        Some (if with_cats then fill_category runs else runs))
  /\ IGraphStats.db_path_global (globals s') = filepath
  /\ IGraphStats.model_listbox (globals s')
     = map IGraphStats.item_text (IGraphStats.all_model_names_global (globals s'))
  /\ Sorted (fun a b => String.leb a b = true) (IGraphStats.model_listbox (globals s'))
  /\ List.NoDup (IGraphStats.model_listbox (globals s'))
  /\ (forall m, In m (IGraphStats.model_listbox (globals s'))
                <-> In (VStr m) (col stats "model_id"))
  /\ IGraphStats.curselection (globals s') = []
  /\ IGraphStats.get_selected_models (globals s') = None
  /\ (with_cats = true ->
      IGraphStats.category_dropdown (globals s') = IGraphStats.all_categories_global (globals s')
      /\ Sorted (fun a b => String.leb a b = true) (IGraphStats.category_dropdown (globals s'))
      /\ List.NoDup (IGraphStats.category_dropdown (globals s'))
      /\ (forall c, In c (IGraphStats.category_dropdown (globals s'))
                    <-> In (VStr c) (col (fill_category runs) "category"))
      /\ IGraphStats.category_dropdown (globals s') !! 0%nat
         = Some (IGraphStats.category_var (globals s')))
  /\ (with_cats = false ->
      IGraphStats.category_dropdown (globals s') = []
      /\ IGraphStats.category_var (globals s') = IGraphStats.category_var (globals s))
  /\ IGraphStats.initial_message_label (globals s') = false.
Proof.
  intros Hp Hfs Hid Htext s' with_cats.
  assert (Ht : IGraphStats.all_text (unique_cells (col stats "model_id")) = true).
  { apply all_text_forall. intros k Hk. apply Htext. now apply unique_cells_incl. }
  destruct (load_db_try_success fs filepath (snd (IGraphStats.set_db_path filepath s))
              stats runs Hfs Hid Ht)
    as (s1 & Hok & Hlog & Hdata & Hpath & Hnames & Hbox & Hsel & Hdrop & Hcats & Hvar & Hinit).
  pose proof (load_db_on_success fs filepath s s1 Hp Hok) as Hload.
  destruct (set_db_path_state filepath s) as (Hw0 & Hpath0 & Hlog0).
  assert (Hvar0 : IGraphStats.category_var (globals (snd (IGraphStats.set_db_path filepath s)))
                  = IGraphStats.category_var (globals s)) by reflexivity.
  subst s'. rewrite Hload. cbn [fst snd]. fold with_cats in Hdata, Hdrop, Hcats, Hvar.
  destruct (sorted_names_text (col stats "model_id") Ht) as (Hsorted & Hnodup & Hmem).
  split; [reflexivity|]. split; [now rewrite Hlog, Hlog0|]. split; [exact Hdata|].
  split; [congruence|]. split; [now rewrite Hbox, Hnames|].
  split; [now rewrite Hbox|]. split; [now rewrite Hbox|]. split; [now rewrite Hbox|].
  split; [exact Hsel|].
  split; [unfold IGraphStats.get_selected_models; now rewrite Hsel|].
  split; [|split; [|exact Hinit]].
  - intros Hwc. rewrite Hwc in *. rewrite Hdrop, Hcats.
    pose proof (filled_categories_text runs) as Hct.
    destruct (sorted_names_text (col (fill_category runs) "category") Hct)
      as (Hcs & Hcn & Hcm).
    assert (Hom : omap (fun v => match v with VStr c => Some c | _ => None end)
                       (sort_cells (unique_cells (col (fill_category runs) "category")))
                  = map IGraphStats.item_text
                        (sort_cells (unique_cells (col (fill_category runs) "category")))).
    { apply omap_text. intros x Hx.
      apply (Permutation_in _ (sort_cells_perm _)) in Hx.
      now apply (proj1 (all_text_forall _) Hct). }
    rewrite Hom in *.
    remember (map IGraphStats.item_text
                (sort_cells (unique_cells (col (fill_category runs) "category")))) as cs.
    split; [reflexivity|]. split; [exact Hcs|]. split; [exact Hcn|].
    split; [exact Hcm|].
    rewrite Hvar.
    destruct cs as [|c cats]; [|reflexivity].
    exfalso. apply andb_true_iff in Hwc. destruct Hwc as [Hne _].
    apply negb_true_iff in Hne. unfold df_empty in Hne.
    apply orb_false_iff in Hne. destruct Hne as [_ Hrows].
    apply Nat.eqb_neq in Hrows.
    destruct (rows runs) as [|r rs] eqn:Er; [now apply Hrows|].
    destruct (category_text_is_text (get_cell r "category")) as [c Hc].
    assert (Hin : In c []).
    { apply Hcm. rewrite col_fill_category. unfold col. rewrite Er. cbn. left. exact Hc. }
    destruct Hin.
  - intros Hwc. rewrite Hwc in *. split; [exact Hdrop|]. now rewrite Hvar.
Qed.

End SuccessfulLoad.

Lemma successful_load_fills_sorted_lists_witness :
  let s' := snd (@IGraphStats.load_db no_text_numbers good_file "benchmark.db" loaded_session) in
  let with_cats := negb (df_empty math_runs) && has_col math_runs "category" in
  fst (@IGraphStats.load_db no_text_numbers good_file "benchmark.db" loaded_session) = Ok tt
  /\ log s' = log loaded_session ++ [MessageBox "info" "Database loaded successfully!"]
  /\ IGraphStats.dataset s'
     = (Some (@IGraphStats.load_percentage_correct no_text_numbers abc_stats),
        Some (if with_cats then @fill_category no_text_numbers math_runs else math_runs))
  /\ IGraphStats.db_path_global (globals s') = "benchmark.db"
  /\ IGraphStats.model_listbox (globals s')
     = map (@IGraphStats.item_text no_text_numbers) (IGraphStats.all_model_names_global (globals s'))
  /\ Sorted (fun a b => String.leb a b = true) (IGraphStats.model_listbox (globals s'))
  /\ List.NoDup (IGraphStats.model_listbox (globals s'))
  /\ (forall m, In m (IGraphStats.model_listbox (globals s'))
                <-> In (VStr m) (col abc_stats "model_id"))
  /\ IGraphStats.curselection (globals s') = []
  /\ IGraphStats.get_selected_models (globals s') = None
  /\ (with_cats = true ->
      IGraphStats.category_dropdown (globals s') = IGraphStats.all_categories_global (globals s')
      /\ Sorted (fun a b => String.leb a b = true) (IGraphStats.category_dropdown (globals s'))
      /\ List.NoDup (IGraphStats.category_dropdown (globals s'))
      /\ (forall c, In c (IGraphStats.category_dropdown (globals s'))
                    <-> In (VStr c) (col (@fill_category no_text_numbers math_runs) "category"))
      /\ IGraphStats.category_dropdown (globals s') !! 0%nat
         = Some (IGraphStats.category_var (globals s')))
  /\ (with_cats = false ->
      IGraphStats.category_dropdown (globals s') = []
      /\ IGraphStats.category_var (globals s') = IGraphStats.category_var (globals loaded_session))
  /\ IGraphStats.initial_message_label (globals s') = false.
Proof.
  apply (@successful_load_fills_sorted_lists no_text_numbers good_file "benchmark.db"
           loaded_session abc_stats math_runs).
  - discriminate.
  - reflexivity.
  - reflexivity.
  - intros v Hv. cbn in Hv. repeat (destruct Hv as [<-|Hv]; [reflexivity|]). destruct Hv.
Defined.

Example loaded_lists :
  IGraphStats.model_listbox
    (globals (snd (@IGraphStats.load_db no_text_numbers good_file "benchmark.db" loaded_session)))
  = ["A"; "B"; "C"]
  /\ IGraphStats.category_dropdown
       (globals (snd (@IGraphStats.load_db no_text_numbers good_file "benchmark.db"
                        loaded_session)))
     = ["History"; "Math"]
  /\ IGraphStats.category_var
       (globals (snd (@IGraphStats.load_db no_text_numbers good_file "benchmark.db"
                        loaded_session)))
     = "History".
Proof. vm_compute. repeat split. Qed.


(** ** The speed scatter chart *)

Section SpeedColumns.
Context `{PyConv}.

Lemma rows_coerce_col (c : string) (df : DataFrame) :
  rows (coerce_col c df) = map (coerce_row c) (rows df).
Proof.
  unfold coerce_col, set_col, to_numeric, col. cbn [rows]. rewrite !map_map.
  apply (assign_map c (fun r => VNum (to_numeric_cell (get_cell r c)))).
Qed.

Lemma has_col_coerce_col (c c' : string) (df : DataFrame) :
  has_col df c' = true -> has_col (coerce_col c df) c' = true.
Proof. apply has_col_set_col. Qed.

Lemma has_col_coerce_col_eq (c c' : string) (df : DataFrame) :
  has_col df c = true -> has_col (coerce_col c df) c' = has_col df c'.
Proof.
  intros Hc. unfold coerce_col, set_col, has_col at 1. cbn [columns]. now rewrite Hc.
Qed.

Lemma columns_coerce_col (c : string) (df : DataFrame) :
  has_col df c = true -> columns (coerce_col c df) = columns df.
Proof. intros Hc. unfold coerce_col, set_col. cbn [columns]. now rewrite Hc. Qed.

Lemma check_speed_cols_passes (df : DataFrame) :
  has_col df "avg_prompt_eval_per_second" = true ->
  has_col df "avg_tokens_per_second" = true ->
  has_col df "model_id" = true ->
  GraphStats.check_speed_cols (GraphStats.speed_cols_check df) df = inl (coerced_speeds df)
  /\ IGraphStats.check_speed_cols (GraphStats.speed_cols_check df) df = inl (coerced_speeds df).
Proof.
  intros Hx Hy Hid. unfold GraphStats.speed_cols_check, coerced_speeds, coerce_optional.
  assert (H1 : has_col (coerce_col "avg_prompt_eval_per_second" df) "avg_tokens_per_second" = true)
    by now apply has_col_coerce_col.
  set (d1 := coerce_col "avg_prompt_eval_per_second" df) in *.
  set (d2 := coerce_col "avg_tokens_per_second" d1).
  assert (H2 : has_col d2 "model_id" = true) by now repeat apply has_col_coerce_col.
  assert (Hpc : has_col d2 "percentage_correct" = has_col df "percentage_correct").
  { unfold d2, d1. now rewrite !has_col_coerce_col_eq. }
  assert (Htq : has_col d2 "total_questions" = has_col df "total_questions").
  { unfold d2, d1. now rewrite !has_col_coerce_col_eq. }
  destruct (has_col df "percentage_correct") eqn:Epc,
           (has_col df "total_questions") eqn:Etq;
    cbn [app GraphStats.check_speed_cols IGraphStats.check_speed_cols];
    rewrite Hx; cbn [negb String.eqb Ascii.eqb Bool.eqb]; fold d1;
    rewrite H1; cbn [negb String.eqb Ascii.eqb Bool.eqb]; fold d2;
    rewrite H2; cbn [negb];
    rewrite ?Hpc; cbn [negb String.eqb Ascii.eqb Bool.eqb];
    rewrite ?has_col_coerce_col_eq by assumption; rewrite ?Htq;
    cbn [negb String.eqb Ascii.eqb Bool.eqb]; split; reflexivity.
Qed.

Lemma get_cell_coerce_row_eq (c : string) (r : gmap string cell) :
  get_cell (coerce_row c r) c = VNum (to_numeric_cell (get_cell r c)).
Proof. apply get_cell_insert_eq. Qed.

Lemma get_cell_coerce_row_ne (c c' : string) (r : gmap string cell) :
  c <> c' -> get_cell (coerce_row c r) c' = get_cell r c'.
Proof. apply get_cell_insert_ne. Qed.

Lemma rows_coerced_speeds (df : DataFrame) :
  rows (coerced_speeds df) = map (coerced_row df) (rows df).
Proof.
  unfold coerced_speeds, coerce_optional, coerced_row.
  destruct (has_col df "total_questions"), (has_col df "percentage_correct");
    rewrite ?rows_coerce_col, ?map_map; reflexivity.
Qed.

Lemma coerced_row_cells (df : DataFrame) (r : gmap string cell) :
  get_cell (coerced_row df r) "avg_prompt_eval_per_second" = VNum (speed_x r)
  /\ get_cell (coerced_row df r) "avg_tokens_per_second" = VNum (speed_y r)
  /\ get_cell (coerced_row df r) "model_id" = get_cell r "model_id"
  /\ (has_col df "percentage_correct" = true ->
      get_cell (coerced_row df r) "percentage_correct"
      = VNum (to_numeric_cell (get_cell r "percentage_correct"))).
Proof.
  unfold coerced_row, speed_x, speed_y.
  destruct (has_col df "total_questions"), (has_col df "percentage_correct"); unfold id;
    repeat split; try discriminate; intros;
    repeat first [ rewrite get_cell_coerce_row_eq
                 | rewrite get_cell_coerce_row_ne by discriminate ];
    reflexivity.
Qed.

Lemma filter_map_comm {A B : Type} (f : A -> B) (p : B -> bool) (l : list A) :
  List.filter p (map f l) = map f (List.filter (fun x => p (f x)) l).
Proof.
  induction l as [|x l IH]; simpl; [reflexivity|].
  destruct (p (f x)); simpl; now rewrite IH.
Qed.

(** The rows that are plotted, and their points. *)
Lemma plotted_rows (df : DataFrame) :
  rows (dropna ["avg_prompt_eval_per_second"; "avg_tokens_per_second"] (coerced_speeds df))
  = map (coerced_row df) (List.filter has_speeds (rows df)).
Proof.
  unfold dropna, df_filter. cbn [rows]. rewrite rows_coerced_speeds, filter_map_comm.
  f_equal. apply filter_ext. intros r. cbn [forallb].
  destruct (coerced_row_cells df r) as (-> & -> & _). cbn [notna].
  unfold has_speeds. now rewrite andb_true_r.
Qed.

Lemma plotted_points (df : DataFrame) (rs : list (gmap string cell)) :
  points_of_rows "avg_prompt_eval_per_second" "avg_tokens_per_second"
                 (map (coerced_row df) rs)
  = map (fun r => {| point_label := get_cell r "model_id";
                     point_x := speed_x r; point_y := speed_y r |}) rs.
Proof.
  unfold points_of_rows. rewrite map_map. apply map_ext. intros r.
  unfold num_at. destruct (coerced_row_cells df r) as (-> & -> & -> & _). reflexivity.
Qed.

End SpeedColumns.


Section SpeedScatter.
Context `{PyConv}.

Lemma check_speed_cols_fails (df : DataFrame) :
  has_col df "avg_prompt_eval_per_second" && has_col df "avg_tokens_per_second"
    && has_col df "model_id" = false ->
  (exists evs, GraphStats.check_speed_cols (GraphStats.speed_cols_check df) df = inr evs
               /\ forall e, In e evs -> is_chart e = false)
  /\ (exists evs, IGraphStats.check_speed_cols (GraphStats.speed_cols_check df) df = inr evs
                  /\ forall e, In e evs -> is_chart e = false).
Proof.
  intros Hmiss. unfold GraphStats.speed_cols_check.
  cbn [app GraphStats.check_speed_cols IGraphStats.check_speed_cols].
  destruct (has_col df "avg_prompt_eval_per_second") eqn:Ex; cbn [negb].
  2: { split; eexists; (split; [reflexivity|]); intros e He; event_cases He; now subst. }
  cbn [String.eqb Ascii.eqb Bool.eqb].
  rewrite has_col_coerce_col_eq by exact Ex.
  destruct (has_col df "avg_tokens_per_second") eqn:Ey; cbn [negb].
  2: { split; eexists; (split; [reflexivity|]); intros e He; event_cases He; now subst. }
  cbn [String.eqb Ascii.eqb Bool.eqb].
  rewrite !has_col_coerce_col_eq
    by (try exact Ey; rewrite ?has_col_coerce_col_eq by exact Ex; assumption).
  cbn [andb] in Hmiss. rewrite Hmiss. cbn [negb].
  split; eexists; (split; [reflexivity|]); intros e He; event_cases He; now subst.
Qed.

Lemma positive_inputs (df : DataFrame) (rs : list (gmap string cell)) :
  col (df_filter GraphStats.both_positive
         {| columns := columns (coerced_speeds df); rows := map (coerced_row df) rs |})
      "avg_prompt_eval_per_second"
  = map (fun p => VNum (point_x p))
        (positive_points (map (fun r => {| point_label := get_cell r "model_id";
                                           point_x := speed_x r; point_y := speed_y r |}) rs))
  /\ col (df_filter GraphStats.both_positive
            {| columns := columns (coerced_speeds df); rows := map (coerced_row df) rs |})
         "avg_tokens_per_second"
     = map (fun p => VNum (point_y p))
           (positive_points (map (fun r => {| point_label := get_cell r "model_id";
                                              point_x := speed_x r; point_y := speed_y r |}) rs)).
Proof.
  unfold col, df_filter, positive_points. cbn [rows].
  rewrite !filter_map_comm, !map_map. cbn [point_x point_y].
  assert (Hf : List.filter (fun x => GraphStats.both_positive (coerced_row df x)) rs
               = List.filter (fun x => F64.gt (speed_x x) 0%Q && F64.gt (speed_y x) 0%Q) rs).
  { apply filter_ext. intros r. unfold GraphStats.both_positive, num_at.
    now destruct (coerced_row_cells df r) as (-> & -> & _). }
  rewrite Hf. split; apply map_ext; intros r;
    destruct (coerced_row_cells df r) as (Hx & Hy & _); now rewrite ?Hx, ?Hy.
Qed.

Lemma dropna_coerced (df : DataFrame) :
  dropna ["avg_prompt_eval_per_second"; "avg_tokens_per_second"] (coerced_speeds df)
  = {| columns := columns (coerced_speeds df);
       rows := map (coerced_row df) (List.filter has_speeds (rows df)) |}.
Proof.
  rewrite <- plotted_rows. reflexivity.
Qed.

Lemma filter_comm {A : Type} (p q : A -> bool) (l : list A) :
  List.filter p (List.filter q l) = List.filter q (List.filter p l).
Proof.
  induction l as [|x l IH]; simpl; [reflexivity|].
  destruct (p x) eqn:Ep, (q x) eqn:Eq; simpl; rewrite ?Ep, ?Eq, IH; reflexivity.
Qed.

(** X14. What the speed scatter chart shows.  With the points labelled, as
    both programs call it, the chart has one point for every model of the
    table whose two speeds read as numbers, in the order of the table and
    with no limit on their number (in the interactive program: of the
    selected models, when some are selected); no point has a missing
    coordinate; no colouring by quality is applied; and each axis is
    logarithmic exactly when the scale test holds for the points that are
    positive in both coordinates. *)
Theorem speed_scatter_plots_models_with_both_speeds :
  (forall (df : DataFrame) (c : chart),
     In (SavePlot c) (emitted (GraphStats.plot_overall_model_speeds_scatter df true)) ->
     c = ScatterChart "overall_model_speeds_scatter_labeled"
           (speed_points (rows df)) None
           (apply_log_scale_if_needed
              (map (fun p => VNum (point_x p)) (positive_points (speed_points (rows df)))))
           (apply_log_scale_if_needed
              (map (fun p => VNum (point_y p)) (positive_points (speed_points (rows df))))))
  /\ (forall (df : DataFrame) (selected_models : option (list string)) (c : chart),
        In (ShowPlot c)
           (emitted (IGraphStats.plot_overall_model_speeds_scatter df true selected_models)) ->
        let pts := speed_points (rows (IGraphStats.select_models selected_models df)) in
        c = ScatterChart "overall_model_speeds_scatter_labeled" pts None
              (apply_log_scale_if_needed (map (fun p => VNum (point_x p)) (positive_points pts)))
              (apply_log_scale_if_needed (map (fun p => VNum (point_y p)) (positive_points pts))))
  /\ (forall (rs : list (gmap string cell)) (p : point),
        In p (speed_points rs) ->
        F64.isnan (point_x p) = false /\ F64.isnan (point_y p) = false
        /\ exists r, In r rs /\ point_label p = get_cell r "model_id")
  /\ (forall rs : list (gmap string cell),
        map point_label (speed_points rs)
        = map (fun r => get_cell r "model_id") (List.filter has_speeds rs)).
Proof.
  split; [|split; [|split]].
  - intros df c. unfold GraphStats.plot_overall_model_speeds_scatter.
    destruct (df_empty df); [intros Hc; event_cases Hc|].
    destruct (has_col df "avg_prompt_eval_per_second" && has_col df "avg_tokens_per_second"
              && has_col df "model_id") eqn:Ecols.
    + apply andb_true_iff in Ecols. destruct Ecols as [Ecols Hid].
      apply andb_true_iff in Ecols. destruct Ecols as [Hx Hy].
      rewrite (proj1 (check_speed_cols_passes df Hx Hy Hid)).
      rewrite (dropna_coerced df).
      destruct (df_empty _); [intros Hc; event_cases Hc|].
      cbn [negb andb]. intros Hc. cbn [emitted returned app] in Hc.
      apply in_app_or in Hc. destruct Hc as [Hc|Hc];
        [unfold GraphStats.log_events in Hc; destruct (apply_log_scale_if_needed _);
         event_cases Hc|].
      apply in_app_or in Hc. destruct Hc as [Hc|Hc];
        [unfold GraphStats.log_events in Hc; destruct (apply_log_scale_if_needed _);
         event_cases Hc|].
      destruct Hc as [Hc|[]]. injection Hc as <-. cbn [rows].
      destruct (positive_inputs df (List.filter has_speeds (rows df))) as [-> ->].
      rewrite plotted_points. reflexivity.
    + destruct (proj1 (check_speed_cols_fails df Ecols)) as (evs & -> & Hevs).
      intros Hc. cbn [emitted returned] in Hc. apply Hevs in Hc. discriminate.
  - intros df sel c. unfold IGraphStats.plot_overall_model_speeds_scatter.
    destruct (df_empty df); [intros Hc; event_cases Hc|].
    destruct (has_col df "avg_prompt_eval_per_second" && has_col df "avg_tokens_per_second"
              && has_col df "model_id") eqn:Ecols.
    + apply andb_true_iff in Ecols. destruct Ecols as [Ecols Hid].
      apply andb_true_iff in Ecols. destruct Ecols as [Hx Hy].
      rewrite (proj2 (check_speed_cols_passes df Hx Hy Hid)).
      destruct (df_empty _); [intros Hc; event_cases Hc|].
      cbn [negb andb]. intros Hc. cbn [emitted returned app] in Hc.
      apply in_app_or in Hc. destruct Hc as [Hc|Hc];
        [unfold GraphStats.log_events in Hc; destruct (apply_log_scale_if_needed _);
         event_cases Hc|].
      apply in_app_or in Hc. destruct Hc as [Hc|Hc];
        [unfold GraphStats.log_events in Hc; destruct (apply_log_scale_if_needed _);
         event_cases Hc|].
      destruct Hc as [Hc|[]]. injection Hc as <-. cbn zeta.
      assert (Hrows : rows (IGraphStats.select_models sel
                              (dropna ["avg_prompt_eval_per_second"; "avg_tokens_per_second"]
                                      (coerced_speeds df)))
                      = map (coerced_row df)
                            (List.filter has_speeds (rows (IGraphStats.select_models sel df)))).
      { unfold IGraphStats.select_models. destruct (IGraphStats.truthy sel).
        - unfold df_filter at 1. cbn [rows]. rewrite plotted_rows, filter_map_comm.
          f_equal. unfold df_filter. cbn [rows]. rewrite filter_comm.
          f_equal. apply filter_ext. intros r.
          now destruct (coerced_row_cells df r) as (_ & _ & -> & _).
        - apply plotted_rows. }
      assert (Hcols : forall d, columns (IGraphStats.select_models sel d) = columns d).
      { intros d. unfold IGraphStats.select_models. now destruct (IGraphStats.truthy sel). }
      set (df_plot := IGraphStats.select_models sel _) in *.
      assert (Hplot : df_plot = {| columns := columns (coerced_speeds df);
                                   rows := map (coerced_row df)
                                             (List.filter has_speeds
                                                (rows (IGraphStats.select_models sel df))) |}).
      { destruct df_plot as [cs rs] eqn:E. cbn [rows] in Hrows. rewrite Hrows. f_equal.
        change cs with (columns {| columns := cs; rows := rs |}). rewrite <- E.
        unfold df_plot. rewrite Hcols. reflexivity. }
      rewrite Hplot. cbn [rows].
      destruct (positive_inputs df (List.filter has_speeds
                                      (rows (IGraphStats.select_models sel df)))) as [-> ->].
      rewrite plotted_points. reflexivity.
    + destruct (proj2 (check_speed_cols_fails df Ecols)) as (evs & -> & Hevs).
      intros Hc. cbn [emitted returned] in Hc. apply Hevs in Hc. discriminate.
  - intros rs p Hp. unfold speed_points in Hp. apply in_map_iff in Hp.
    destruct Hp as (r & <- & Hr). apply filter_In in Hr. destruct Hr as [Hr Hs].
    unfold has_speeds in Hs. apply andb_true_iff in Hs. destruct Hs as [Hx Hy].
    cbn [point_x point_y point_label]. split; [now apply negb_true_iff|].
    split; [now apply negb_true_iff|]. eauto.
  - intros rs. unfold speed_points. now rewrite map_map.
Qed.

End SpeedScatter.


Lemma nunique_pos (l : list (option nat)) :
  (exists b, In (Some b) l) -> nunique l <> 0%nat.
Proof.
  induction l as [|o l IH]; intros (b & Hb); [destruct Hb|].
  destruct o as [b'|]; cbn [nunique].
  - destruct (existsb _ l) eqn:E; [|discriminate].
    apply IH. apply existsb_exists in E. destruct E as ([b''|] & Hin & Hb''); [|discriminate].
    eauto.
  - apply IH. destruct Hb as [Hb|Hb]; [discriminate | eauto].
Qed.

Lemma finite_list (l : list f64) :
  (forall x, In x l -> finite x) -> exists qs : list Q, l = map Fin qs.
Proof.
  induction l as [|x l IH]; intros Hl; [now exists []|].
  destruct (Hl x (or_introl eq_refl)) as [q ->].
  destruct IH as [qs ->]; [intros y Hy; apply Hl; now right|].
  now exists (q :: qs).
Qed.

(** Two different values among finite ones always give a bucket. *)
Lemma buckets_formed (l : list f64) (a b : f64) (q : nat) :
  (forall x, In x l -> finite x) -> (1 <= q)%nat ->
  In a l -> In b l -> F64.eqb a b = false ->
  nunique (qcut l q) <> 0%nat.
Proof.
  intros Hfin Hq Ha Hb Hab.
  destruct (finite_list l Hfin) as [qs ->].
  assert (Hne : qs <> []) by (intros ->; destruct Ha).
  assert (Hnn : no_nan (map Fin qs)).
  { apply all_finite_no_nan. apply List.Forall_forall. exact Hfin. }
  assert (Hne' : map Fin qs <> []) by (destruct qs; [congruence | discriminate]).
  destruct (series_min_spec _ Hnn Hne') as [Hm_in Hm].
  destruct (series_max_spec _ Hnn Hne') as [HM_in HM].
  set (m := series_min (map Fin qs)) in *. set (M := series_max (map Fin qs)) in *.
  assert (Hnan : forall x, In x (map Fin qs) -> F64.isnan x = false).
  { intros x Hx. now apply finite_not_nan, Hfin. }
  assert (Hlt : F64.lt m M = true).
  { destruct (F64.lt m M) eqn:E; [reflexivity|]. exfalso.
    assert (HMm : F64.le M m = true) by (apply not_lt_le; auto).
    assert (Heq : forall x, In x (map Fin qs) -> F64.eqb x m = true).
    { intros x Hx. apply le_antisym; [|now apply Hm].
      eapply le_trans; [apply HM, Hx | exact HMm]. }
    rewrite (eqb_trans a m b) in Hab; [discriminate | now apply Heq|].
    apply eqb_sym. now apply Heq. }
  apply nunique_pos. exists 0%nat. unfold qcut. apply in_map_iff. exists m.
  split; [|exact Hm_in].
  apply (least_bucket qs q Hne Hq m M); [split; assumption | split; assumption | exact Hlt].
Qed.

Section ScatterLegend.
Context `{PyConv}.

Lemma columns_coerced_speeds (df : DataFrame) :
  has_col df "avg_prompt_eval_per_second" = true ->
  has_col df "avg_tokens_per_second" = true ->
  columns (coerced_speeds df) = columns df.
Proof.
  intros Hx Hy. unfold coerced_speeds, coerce_optional.
  destruct (has_col df "total_questions") eqn:Etq,
           (has_col df "percentage_correct") eqn:Epc;
    repeat (rewrite columns_coerce_col;
            [|rewrite ?has_col_coerce_col_eq; rewrite ?has_col_coerce_col_eq; assumption
                       || (rewrite ?has_col_coerce_col_eq by assumption; assumption)]);
    reflexivity.
Qed.

Lemma has_col_nonempty (df : DataFrame) (c : string) :
  has_col df c = true -> (length (columns df) =? 0)%nat = false.
Proof. unfold has_col. now destruct (columns df). Qed.

Lemma plotted_quality (df : DataFrame) (rs : list (gmap string cell)) :
  has_col df "percentage_correct" = true ->
  map (num_at "percentage_correct") (map (coerced_row df) rs) = map quality rs.
Proof.
  intros Hpc. rewrite map_map. apply map_ext. intros r. unfold num_at, quality.
  destruct (coerced_row_cells df r) as (_ & _ & _ & Hq). now rewrite (Hq Hpc).
Qed.

(** X15. The speed scatter chart with unlabelled points, which is how the
    batch function is declared ([label_points=False]) though not how
    [main] calls it.  When the table has the speeds, the model ids and
    [percentage_correct], and the models with both speeds have finite
    percentages of which two differ, quantile colours are formed and the
    legend block reads [custom_hue_handles], a name the function never
    binds: the call raises [NameError] and writes no file.  The
    interactive function, given the same table, binds the name and shows
    the chart coloured by quantile. *)
Theorem scatter_without_labels_raises (df : DataFrame) (r1 r2 : gmap string cell) :
  has_col df "avg_prompt_eval_per_second" = true ->
  has_col df "avg_tokens_per_second" = true ->
  has_col df "model_id" = true ->
  has_col df "percentage_correct" = true ->
  (forall r, In r (rows df) -> has_speeds r = true -> finite (quality r)) ->
  In r1 (rows df) -> In r2 (rows df) ->
  has_speeds r1 = true -> has_speeds r2 = true ->
  F64.eqb (quality r1) (quality r2) = false ->
  GraphStats.plot_overall_model_speeds_scatter df false
  = raised [] "NameError: name 'custom_hue_handles' is not defined"
  /\ exists (lx ly : bool) (evs : list event),
       IGraphStats.plot_overall_model_speeds_scatter df false None
       = returned (evs ++ [ShowPlot (ScatterChart "overall_model_speeds_scatter_labeled"
                                       (speed_points (rows df))
                                       (Some (qcut (map quality (List.filter has_speeds (rows df)))
                                                   GraphStats.NUM_CORRECTNESS_QUANTILES_FOR_HUE))
                                       lx ly)])
       /\ forall e, In e evs -> is_chart e = false.
Proof.
  intros Hx Hy Hid Hpc Hfin Hr1 Hr2 Hs1 Hs2 Hdiff.
  assert (Hrs1 : In r1 (List.filter has_speeds (rows df))) by (apply filter_In; now split).
  assert (Hrs2 : In r2 (List.filter has_speeds (rows df))) by (apply filter_In; now split).
  assert (Hempty : df_empty df = false).
  { unfold df_empty. rewrite (has_col_nonempty df _ Hx). destruct (rows df); [destruct Hr1 | reflexivity]. }
  assert (Hplot_nonempty :
            df_empty {| columns := columns (coerced_speeds df);
                        rows := map (coerced_row df) (List.filter has_speeds (rows df)) |}
            = false).
  { unfold df_empty. cbn [columns rows]. rewrite columns_coerced_speeds by assumption.
    rewrite (has_col_nonempty df _ Hx). rewrite length_map.
    destruct (List.filter has_speeds (rows df)); [destruct Hrs1 | reflexivity]. }
  assert (Hpc' : has_col {| columns := columns (coerced_speeds df);
                            rows := map (coerced_row df) (List.filter has_speeds (rows df)) |}
                         "percentage_correct" = true).
  { unfold has_col. cbn [columns]. rewrite columns_coerced_speeds by assumption. exact Hpc. }
  assert (Hq : Nat.eqb (nunique (qcut (map quality (List.filter has_speeds (rows df)))
                                      GraphStats.NUM_CORRECTNESS_QUANTILES_FOR_HUE)) 0
               = false).
  { apply Nat.eqb_neq.
    apply (buckets_formed _ (quality r1) (quality r2)).
    - intros x Hx'. apply in_map_iff in Hx'. destruct Hx' as (r & <- & Hr).
      apply filter_In in Hr. destruct Hr as [Hr Hs]. now apply Hfin.
    - unfold GraphStats.NUM_CORRECTNESS_QUANTILES_FOR_HUE. lia.
    - now apply in_map.
    - now apply in_map.
    - exact Hdiff. }
  split.
  - unfold GraphStats.plot_overall_model_speeds_scatter. rewrite Hempty.
    rewrite (proj1 (check_speed_cols_passes df Hx Hy Hid)), dropna_coerced.
    rewrite Hplot_nonempty, Hpc'. cbn [rows negb andb].
    rewrite plotted_quality by exact Hpc. rewrite Hq. reflexivity.
  - unfold IGraphStats.plot_overall_model_speeds_scatter. rewrite Hempty.
    rewrite (proj2 (check_speed_cols_passes df Hx Hy Hid)).
    unfold IGraphStats.select_models. cbn [IGraphStats.truthy].
    rewrite dropna_coerced, Hplot_nonempty, Hpc'. cbn [rows negb andb].
    rewrite plotted_quality by exact Hpc.
    unfold IGraphStats.NUM_CORRECTNESS_QUANTILES_FOR_HUE.
    change 5%nat with GraphStats.NUM_CORRECTNESS_QUANTILES_FOR_HUE. rewrite Hq.
    cbn [negb app]. rewrite plotted_points. fold (speed_points (rows df)).
    match goal with |- context [GraphStats.log_events "x" ?b] => set (lx := b) end.
    match goal with |- context [GraphStats.log_events "y" ?b] => set (ly := b) end.
    exists lx, ly, (GraphStats.log_events "x" lx ++ GraphStats.log_events "y" ly).
    split; [rewrite <- app_assoc; reflexivity|].
    intros e He. apply in_app_or in He. unfold GraphStats.log_events in He.
    destruct He as [He|He];
      match type of He with In _ (if ?b then _ else _) => destruct b end;
      event_cases He; now subst.
Qed.

End ScatterLegend.

Lemma scatter_without_labels_raises_witness :
  @GraphStats.plot_overall_model_speeds_scatter no_text_numbers speed_stats false
  = raised [] "NameError: name 'custom_hue_handles' is not defined"
  /\ exists (lx ly : bool) (evs : list event),
       @IGraphStats.plot_overall_model_speeds_scatter no_text_numbers speed_stats false None
       = returned (evs ++ [ShowPlot (ScatterChart "overall_model_speeds_scatter_labeled"
                                       (@speed_points no_text_numbers (rows speed_stats))
                                       (Some (qcut (map (@quality no_text_numbers)
                                                        (List.filter (@has_speeds no_text_numbers)
                                                                     (rows speed_stats)))
                                                   GraphStats.NUM_CORRECTNESS_QUANTILES_FOR_HUE))
                                       lx ly)])
       /\ forall e, In e evs -> is_chart e = false.
Proof.
  apply (@scatter_without_labels_raises no_text_numbers speed_stats
           (speed_row "A" 80 100 20) (speed_row "B" 60 300 40)); try reflexivity.
  - intros r Hr _. cbn in Hr. destruct Hr as [<-|[<-|[]]]; eexists; reflexivity.
  - now left.
  - right. now left.
Defined.


(** ** The speed-against-quality charts *)

Section SpeedQuality.
Context `{PyConv}.

Lemma quality_row_cells (c : string) (r : gmap string cell) :
  In c speed_columns ->
  get_cell (quality_row c r) c = VNum (to_numeric_cell (get_cell r c))
  /\ get_cell (quality_row c r) "percentage_correct" = VNum (quality r)
  /\ get_cell (quality_row c r) "model_id" = get_cell r "model_id".
Proof.
  intros Hc. unfold quality_row, quality, coerce_row.
  destruct Hc as [<-|[<-|[]]];
    repeat split;
    repeat first [ rewrite get_cell_insert_eq | rewrite get_cell_insert_ne by discriminate ];
    reflexivity.
Qed.

Lemma quality_frame (c : string) (df : DataFrame) :
  In c speed_columns ->
  dropna [c; "percentage_correct"; "model_id"]
         (coerce_fill_col "total_questions" 1%Q
            (coerce_col "percentage_correct" (coerce_col c df)))
  = {| columns := columns (coerce_fill_col "total_questions" 1%Q
                             (coerce_col "percentage_correct" (coerce_col c df)));
       rows := map (quality_row c) (List.filter (has_speed_and_quality c) (rows df)) |}.
Proof.
  intros Hc. unfold dropna, df_filter. f_equal.
  rewrite rows_coerce_fill_col, !rows_coerce_col, !map_map.
  change (map (fun x => <["total_questions" := _]> (coerce_row "percentage_correct" (coerce_row c x)))
              (rows df))
    with (map (quality_row c) (rows df)).
  rewrite filter_map_comm. f_equal. apply filter_ext. intros r. cbn [forallb].
  destruct (quality_row_cells c r Hc) as (-> & -> & ->). cbn [notna].
  unfold has_speed_and_quality. now rewrite andb_true_r, andb_assoc.
Qed.

Lemma quality_frame_points (c : string) (rs : list (gmap string cell)) :
  In c speed_columns ->
  points_of_rows c "percentage_correct" (map (quality_row c) rs)
  = map (fun r => {| point_label := get_cell r "model_id";
                     point_x := to_numeric_cell (get_cell r c);
                     point_y := quality r |}) rs
  /\ map (num_at "percentage_correct") (map (quality_row c) rs) = map quality rs
  /\ forall cols,
       col (df_filter (fun r => F64.gt (num_at c r) 0%Q)
                      {| columns := cols; rows := map (quality_row c) rs |}) c
       = map (fun p => VNum (point_x p))
             (List.filter (fun p => F64.gt (point_x p) 0%Q)
                (map (fun r => {| point_label := get_cell r "model_id";
                                  point_x := to_numeric_cell (get_cell r c);
                                  point_y := quality r |}) rs)).
Proof.
  intros Hc. split; [|split].
  - unfold points_of_rows. rewrite map_map. apply map_ext. intros r. unfold num_at.
    now destruct (quality_row_cells c r Hc) as (-> & -> & ->).
  - rewrite map_map. apply map_ext. intros r. unfold num_at.
    now destruct (quality_row_cells c r Hc) as (_ & -> & _).
  - intros cols. unfold col, df_filter. cbn [rows].
    rewrite !filter_map_comm, !map_map. cbn [point_x].
    assert (Hf : List.filter (fun x => F64.gt (num_at c (quality_row c x)) 0%Q) rs
                 = List.filter (fun x => F64.gt (to_numeric_cell (get_cell x c)) 0%Q) rs).
    { apply filter_ext. intros r. unfold num_at.
      now destruct (quality_row_cells c r Hc) as (-> & _ & _). }
    rewrite Hf. apply map_ext. intros r.
    now destruct (quality_row_cells c r Hc) as (-> & _ & _).
Qed.

Lemma log_events_no_chart (axis : string) (b : bool) (e : event) :
  In e (GraphStats.log_events axis b) -> is_chart e = false.
Proof. unfold GraphStats.log_events. destruct b; intros He; event_cases He. now subst. Qed.

Lemma quality_points_map (c : string) (rs : list (gmap string cell)) :
  map point_y (quality_points c rs) = map quality (List.filter (has_speed_and_quality c) rs).
Proof. unfold quality_points. now rewrite map_map. Qed.

(** X16. What a speed-against-quality chart shows, for either speed column
    the programs pass.  The chart has one point for every model whose
    speed and percentage read as numbers and whose id is not NULL, in the
    order of the table and with no limit on their number (in the
    interactive program: of the selected models).  The points are coloured
    by quantile of the percentage whenever quantiles can be formed, except
    that the interactive program never colours a selection; the speed axis
    is logarithmic exactly when the scale test holds for the positive
    speeds, the quality axis never. *)
Theorem speed_quality_chart_contents :
  (forall (df : DataFrame) (speed_metric_col speed_metric_name : string) (c : chart),
     In speed_metric_col speed_columns ->
     In (SavePlot c)
        (emitted (GraphStats.plot_speed_vs_quality df speed_metric_col speed_metric_name)) ->
     let pts := quality_points speed_metric_col (rows df) in
     let quantiles := qcut (map point_y pts) GraphStats.NUM_CORRECTNESS_QUANTILES_FOR_HUE in
     exists name, c = ScatterChart name pts
           (if (nunique quantiles =? 0)%nat then None else Some quantiles)
           (apply_log_scale_if_needed
              (map (fun p => VNum (point_x p))
                   (List.filter (fun p => F64.gt (point_x p) 0%Q) pts)))
           false)
  /\ (forall (df : DataFrame) (speed_metric_col speed_metric_name : string)
             (selected_models : option (list string)) (c : chart),
        In speed_metric_col speed_columns ->
        In (ShowPlot c)
           (emitted (IGraphStats.plot_speed_vs_quality df speed_metric_col speed_metric_name
                                                       selected_models)) ->
        let pts := quality_points speed_metric_col
                     (rows (IGraphStats.select_models selected_models df)) in
        let quantiles := qcut (map point_y pts) GraphStats.NUM_CORRECTNESS_QUANTILES_FOR_HUE in
        exists name, c = ScatterChart name pts
              (if IGraphStats.truthy selected_models || (nunique quantiles =? 0)%nat
               then None else Some quantiles)
              (apply_log_scale_if_needed
                 (map (fun p => VNum (point_x p))
                      (List.filter (fun p => F64.gt (point_x p) 0%Q) pts)))
              false)
  /\ (forall (speed_metric_col : string) (rs : list (gmap string cell)) (p : point),
        In p (quality_points speed_metric_col rs) ->
        F64.isnan (point_x p) = false /\ F64.isnan (point_y p) = false
        /\ notna (point_label p) = true).
Proof.
  split; [|split].
  - intros df c name ch Hc. unfold GraphStats.plot_speed_vs_quality.
    destruct (df_empty df); [intros Hev; event_cases Hev|].
    destruct (negb (forallb _ _)); [intros Hev; event_cases Hev|].
    rewrite (quality_frame c df Hc).
    destruct (df_empty _); [intros Hev; event_cases Hev|].
    cbn [rows]. destruct (quality_frame_points c (List.filter (has_speed_and_quality c) (rows df)) Hc)
      as (Hpts & Hq & Hlog).
    rewrite Hpts, Hq, Hlog. fold (quality_points c (rows df)).
    rewrite <- quality_points_map.
    intros Hev. cbn [emitted returned] in Hev.
    apply in_app_or in Hev. destruct Hev as [Hev|Hev].
    { destruct (nunique _ =? 0)%nat; event_cases Hev. }
    apply in_app_or in Hev. destruct Hev as [Hev|Hev].
    { apply log_events_no_chart in Hev. discriminate. }
    destruct Hev as [Hev|[]]. injection Hev as <-. cbn zeta.
    exists (c +:+ "_vs_quality_labeled"). now destruct (nunique _ =? 0)%nat.
  - intros df c name sel ch Hc. unfold IGraphStats.plot_speed_vs_quality.
    destruct (df_empty df); [intros Hev; event_cases Hev|].
    destruct (negb (forallb _ _)) eqn:Ecols; [intros Hev; event_cases Hev|].
    rewrite (quality_frame c df Hc).
    set (cols := columns (coerce_fill_col "total_questions" 1%Q
                            (coerce_col "percentage_correct" (coerce_col c df)))).
    assert (Hsel : IGraphStats.select_models sel
                     {| columns := cols;
                        rows := map (quality_row c)
                                    (List.filter (has_speed_and_quality c) (rows df)) |}
                   = {| columns := cols;
                        rows := map (quality_row c)
                                    (List.filter (has_speed_and_quality c)
                                       (rows (IGraphStats.select_models sel df))) |}).
    { unfold IGraphStats.select_models. destruct (IGraphStats.truthy sel); [|reflexivity].
      unfold df_filter. cbn [rows columns]. f_equal.
      rewrite filter_map_comm. f_equal. rewrite filter_comm. f_equal.
      apply filter_ext. intros r. now destruct (quality_row_cells c r Hc) as (_ & _ & ->). }
    rewrite Hsel.
    destruct (df_empty _); [intros Hev; event_cases Hev|].
    cbn [rows].
    destruct (quality_frame_points c
                (List.filter (has_speed_and_quality c)
                   (rows (IGraphStats.select_models sel df))) Hc) as (Hpts & Hq & Hlog).
    rewrite Hpts, Hq, Hlog. fold (quality_points c (rows (IGraphStats.select_models sel df))).
    rewrite <- quality_points_map.
    assert (Hpc : has_col {| columns := cols;
                             rows := map (quality_row c)
                                         (List.filter (has_speed_and_quality c)
                                            (rows (IGraphStats.select_models sel df))) |}
                          "percentage_correct" = true).
    { apply negb_false_iff in Ecols. cbn [forallb] in Ecols.
      apply andb_true_iff in Ecols. destruct Ecols as [Hcc Ecols].
      apply andb_true_iff in Ecols. destruct Ecols as [Hp _].
      unfold has_col. cbn [columns]. unfold cols.
      change (has_col (coerce_fill_col "total_questions" 1%Q
                         (coerce_col "percentage_correct" (coerce_col c df)))
                      "percentage_correct" = true).
      unfold coerce_fill_col. apply has_col_set_col. apply has_col_coerce_col.
      now apply has_col_coerce_col. }
    rewrite Hpc.
    intros Hev. cbn [emitted returned] in Hev.
    apply in_app_or in Hev. destruct Hev as [Hev|Hev].
    { apply log_events_no_chart in Hev. discriminate. }
    destruct Hev as [Hev|[]]. injection Hev as <-. cbn zeta.
    exists (c +:+ "_vs_quality_labeled").
    unfold IGraphStats.NUM_CORRECTNESS_QUANTILES_FOR_HUE, GraphStats.NUM_CORRECTNESS_QUANTILES_FOR_HUE.
    destruct (IGraphStats.truthy sel); cbn [negb andb orb]; [reflexivity|].
    now destruct (nunique _ =? 0)%nat.
  - intros c rs p Hp. unfold quality_points in Hp. apply in_map_iff in Hp.
    destruct Hp as (r & <- & Hr). apply filter_In in Hr. destruct Hr as [_ Hs].
    unfold has_speed_and_quality in Hs.
    apply andb_true_iff in Hs. destruct Hs as [Hs Hid].
    apply andb_true_iff in Hs. destruct Hs as [Hx Hy].
    cbn [point_x point_y point_label]. repeat split; try assumption; now apply negb_true_iff.
Qed.

End SpeedQuality.


(** ** The category charts of the batch run *)

Lemma copy_run {G : Type} (l : loc) (s : py_state G) (df : DataFrame) :
  heap s !! l = Some df ->
  copy l s = (Ok (fresh (dom (heap s))),
              mkState (globals s) (<[fresh (dom (heap s)) := df]> (heap s)) (log s)).
Proof. intros Hl. unfold copy. rewrite (bind_ok _ _ s s df) by now apply read_ok. reflexivity. Qed.

Lemma call_runs_run {G : Type} (f : DataFrame -> DataFrame -> DataFrame * outcome)
  (l_runs l_stats : loc) (s : py_state G) (runs stats : DataFrame) :
  heap s !! l_runs = Some runs -> heap s !! l_stats = Some stats ->
  call_runs f l_runs l_stats s
  = (match uncaught (snd (f runs stats)) with Some e => Exc e | None => Ok tt end,
     mkState (globals s) (<[l_runs := fst (f runs stats)]> (heap s))
             (log s ++ emitted (snd (f runs stats)))).
Proof.
  intros Hr Hs. unfold call_runs.
  rewrite (bind_ok _ _ s s runs) by now apply read_ok.
  rewrite (bind_ok _ _ s s stats) by now apply read_ok.
  unfold replay. py_unfold. now destruct (uncaught _).
Qed.

Lemma heatmap_chart_kind (name : string) (top : list (cell * f64)) (cats : list cell)
  (agg : list cat_agg_row) (c : chart) :
  heatmap_chart name top cats agg = Some c -> exists ms ls vs, c = Heatmap name ms ls vs.
Proof.
  unfold heatmap_chart. destruct (_ || _); [discriminate|].
  intros Hc. injection Hc as <-. eauto.
Qed.

Section BatchCategories.
Context `{PyConv} `{ArgSort}.

Lemma heatmap_draws_no_bars (df_runs df_model_stats : DataFrame) (n : nat)
  (name : string) (bars : list bar) :
  ~ In (SavePlot (BarChart name bars))
       (emitted (snd (GraphStats.plot_category_correctness_heatmap df_runs df_model_stats n))).
Proof.
  unfold GraphStats.plot_category_correctness_heatmap.
  repeat match goal with
         | |- context [if ?c then _ else _] => destruct c
         | |- context [match heatmap_chart ?a ?b ?c ?d with _ => _ end] =>
             destruct (heatmap_chart a b c d) as [ch|] eqn:?
         end;
    cbn [snd emitted returned raised app]; intros Hin; event_cases Hin;
    match goal with
    | Hc : heatmap_chart _ _ _ _ = Some _ |- _ =>
        apply heatmap_chart_kind in Hc; destruct Hc as (ms & ls & vs & ->)
    end;
    discriminate.
Qed.

Lemma category_bars_listed (df_runs df_model_stats : DataFrame) (cats : list string)
  (name : string) (bars : list bar) :
  In (SavePlot (BarChart name bars))
     (emitted (snd (GraphStats.plot_top_models_for_specific_categories
                      df_runs cats df_model_stats))) ->
  exists category,
    In category cats
    /\ GraphStats.plot_one_category (coerce_fill_col "correct" 0%Q df_runs) category
       = [SavePlot (BarChart name bars)].
Proof.
  unfold GraphStats.plot_top_models_for_specific_categories.
  destruct (df_empty df_runs); [intros []|].
  destruct (negb (forallb _ _)); [intros []|].
  cbn [snd emitted returned]. intros Hin. apply in_flat_map in Hin.
  destruct Hin as (category & Hc & He). exists category. split; [exact Hc|].
  destruct (plot_one_category_single (coerce_fill_col "correct" 0%Q df_runs) category)
    as [e Hone].
  rewrite Hone in He |- *. destruct He as [<-|[]]. reflexivity.
Qed.

Lemma available_category (runs : DataFrame) (category : string) :
  existsb (String.eqb category) (category_names (fill_category runs)) = true ->
  exists r, In r (rows runs) /\ category_text (get_cell r "category") = VStr category.
Proof.
  intros Hex. apply existsb_exists in Hex. destruct Hex as (c & Hc & Heq).
  apply String.eqb_eq in Heq. subst c.
  unfold category_names in Hc. apply list_elem_of_In, list_elem_of_omap in Hc.
  destruct Hc as (v & Hv & Hs). apply list_elem_of_In, unique_cells_incl in Hv.
  rewrite col_fill_category in Hv. unfold col in Hv. rewrite map_map in Hv.
  apply in_map_iff in Hv. destruct Hv as (r & Hr & Hin).
  exists r. split; [exact Hin|]. rewrite Hr.
  destruct v; try discriminate. now injection Hs as ->.
Qed.

(** X17. Which category bar charts a batch run draws.  Whatever the two
    tables hold, every bar chart that the category part of [main] saves is
    the chart of one category of the fixed list
    [selected_main_categories_for_bar] that occurs in the runs (after NULL
    has become "Uncategorized"), computed from the runs as [main] filled
    them and not from what the heat map wrote to its copy.  A category
    that is not on the list, "Uncategorized" among them, gets no bar chart
    however many runs it has. *)
Theorem batch_bar_charts_follow_the_list (l_stats l_runs : loc) (s : py_state unit)
  (stats runs : DataFrame) :
  heap s !! l_stats = Some stats -> heap s !! l_runs = Some runs -> l_stats <> l_runs ->
  exists evs,
    log (snd (GraphStats.main_category_plots l_stats l_runs s)) = log s ++ evs
    /\ forall (name : string) (bars : list bar),
         In (SavePlot (BarChart name bars)) evs ->
         exists category,
           In category GraphStats.selected_main_categories_for_bar
           /\ (exists r, In r (rows runs)
                         /\ category_text (get_cell r "category") = VStr category)
           /\ GraphStats.plot_one_category
                (coerce_fill_col "correct" 0%Q (fill_category runs)) category
              = [SavePlot (BarChart name bars)].
Proof.
  intros Hs Hr Hne. unfold GraphStats.main_category_plots.
  rewrite (bind_ok (emit _) _ s (mkState (globals s) (heap s) (log s ++ [_])) tt) by reflexivity.
  set (s0 := mkState (globals s) (heap s) _).
  rewrite (bind_ok (read l_runs) _ s0 s0 runs) by (now apply read_ok).
  rewrite (bind_ok (read l_stats) _ s0 s0 stats) by (now apply read_ok).
  destruct (negb (df_empty runs) && negb (df_empty stats)).
  2:{ cbn. rewrite <- app_assoc. eexists. split; [reflexivity|].
      intros name bars Hin. event_cases Hin. }
  destruct (has_col runs "category").
  2:{ cbn. rewrite <- app_assoc. eexists. split; [reflexivity|].
      intros name bars Hin. event_cases Hin. }
  set (R := fill_category runs).
  set (s1 := mkState (globals s0) (<[l_runs := R]> (heap s0)) (log s0)).
  rewrite (bind_ok (write l_runs R) _ s0 s1 tt) by reflexivity.
  assert (Hs1r : heap s1 !! l_runs = Some R) by apply lookup_insert_eq.
  assert (Hs1s : heap s1 !! l_stats = Some stats).
  { cbn. rewrite lookup_insert_ne by congruence. exact Hs. }
  set (r1 := fresh (dom (heap s1))).
  set (s2 := mkState (globals s1) (<[r1 := R]> (heap s1)) (log s1)).
  rewrite (bind_ok (copy l_runs) _ s1 s2 r1) by now apply copy_run.
  assert (Hr1s : r1 <> l_stats) by now apply (fresh_other _ _ stats).
  assert (Hr1r : r1 <> l_runs) by now apply (fresh_other _ _ R).
  assert (Hs2r : heap s2 !! l_runs = Some R).
  { cbn [heap s2]. rewrite lookup_insert_ne by congruence. exact Hs1r. }
  assert (Hs2s : heap s2 !! l_stats = Some stats).
  { cbn [heap s2]. rewrite lookup_insert_ne by congruence. exact Hs1s. }
  set (c1 := fresh (dom (heap s2))).
  set (s3 := mkState (globals s2) (<[c1 := stats]> (heap s2)) (log s2)).
  rewrite (bind_ok (copy l_stats) _ s2 s3 c1) by now apply copy_run.
  assert (Hc1r : c1 <> l_runs) by now apply (fresh_other _ _ R).
  assert (Hc1s : c1 <> l_stats) by now apply (fresh_other _ _ stats).
  assert (Hc1r1 : c1 <> r1) by apply fresh_after_insert.
  assert (Hs3r1 : heap s3 !! r1 = Some R).
  { cbn [heap s3 s2]. rewrite lookup_insert_ne by congruence. apply lookup_insert_eq. }
  assert (Hs3c1 : heap s3 !! c1 = Some stats) by apply lookup_insert_eq.
  set (hm := GraphStats.plot_category_correctness_heatmap R stats GraphStats.TOP_N_MODELS_OVERALL).
  pose proof (call_runs_run
                (fun r s => GraphStats.plot_category_correctness_heatmap
                              r s GraphStats.TOP_N_MODELS_OVERALL)
                r1 c1 s3 R stats Hs3r1 Hs3c1) as Hcall.
  cbv beta in Hcall. fold hm in Hcall.
  set (s4 := mkState (globals s3) (<[r1 := fst hm]> (heap s3)) (log s3 ++ emitted (snd hm))) in Hcall.
  pose proof (heatmap_draws_no_bars R stats GraphStats.TOP_N_MODELS_OVERALL) as Hnobars.
  fold hm in Hnobars.
  destruct (uncaught (snd hm)) as [e|].
  { unfold mbind at 1, Py_bind at 1, bind at 1. rewrite Hcall. cbn [snd log s4 s3 s2 s1 s0].
    rewrite <- app_assoc. eexists. split; [reflexivity|].
    intros name bars [Hin|Hin]; [discriminate | now apply Hnobars in Hin]. }
  rewrite (bind_ok _ _ s3 s4 tt Hcall).
  assert (Hs4r : heap s4 !! l_runs = Some R).
  { cbn [heap s4 s3]. rewrite !lookup_insert_ne by congruence. exact Hs2r. }
  assert (Hs4s : heap s4 !! l_stats = Some stats).
  { cbn [heap s4 s3]. rewrite !lookup_insert_ne by congruence. exact Hs2s. }
  set (cats := List.filter _ GraphStats.selected_main_categories_for_bar).
  destruct (negb (length cats =? 0)%nat).
  2:{ cbn [emit snd log s4 s3 s2 s1 s0].
      rewrite <- !app_assoc. eexists. split; [reflexivity|].
      intros name bars [Hin|Hin]; [discriminate|]. cbn [app] in Hin.
      apply in_app_or in Hin. destruct Hin as [Hin|Hin]; [now apply Hnobars in Hin|].
      event_cases Hin. }
  set (r2 := fresh (dom (heap s4))).
  set (s5 := mkState (globals s4) (<[r2 := R]> (heap s4)) (log s4)).
  rewrite (bind_ok (copy l_runs) _ s4 s5 r2) by now apply copy_run.
  assert (Hr2s : r2 <> l_stats) by now apply (fresh_other _ _ stats).
  assert (Hs5s : heap s5 !! l_stats = Some stats).
  { cbn [heap s5]. rewrite lookup_insert_ne by congruence. exact Hs4s. }
  set (c2 := fresh (dom (heap s5))).
  set (s6 := mkState (globals s5) (<[c2 := stats]> (heap s5)) (log s5)).
  rewrite (bind_ok (copy l_stats) _ s5 s6 c2) by now apply copy_run.
  assert (Hc2r2 : c2 <> r2) by apply fresh_after_insert.
  assert (Hs6r2 : heap s6 !! r2 = Some R).
  { cbn [heap s6 s5]. rewrite lookup_insert_ne by congruence. apply lookup_insert_eq. }
  assert (Hs6c2 : heap s6 !! c2 = Some stats) by apply lookup_insert_eq.
  rewrite (call_runs_run _ r2 c2 s6 R stats Hs6r2 Hs6c2).
  cbn [snd log s6 s5 s4 s3 s2 s1 s0].
  rewrite <- !app_assoc. eexists. split; [reflexivity|].
  intros name bars [Hin|Hin]; [discriminate|]. cbn [app] in Hin.
  apply in_app_or in Hin. destruct Hin as [Hin|Hin]; [now apply Hnobars in Hin|].
  apply category_bars_listed in Hin. destruct Hin as (category & Hc & Hone).
  unfold cats in Hc. apply filter_In in Hc. destruct Hc as [Hlist Hav].
  exists category. split; [exact Hlist|]. split; [|exact Hone].
  now apply available_category.
Qed.

End BatchCategories.

Lemma batch_bar_charts_follow_the_list_witness :
  let s := mkState tt (<[0%nat := abc_stats]> (<[1%nat := math_runs]> ∅)) [] in
  exists evs,
    log (snd (@GraphStats.main_category_plots no_text_numbers stable_sort 0%nat 1%nat s))
    = log s ++ evs
    /\ forall (name : string) (bars : list bar),
         In (SavePlot (BarChart name bars)) evs ->
         exists category,
           In category GraphStats.selected_main_categories_for_bar
           /\ (exists r, In r (rows math_runs)
                         /\ @category_text no_text_numbers (get_cell r "category")
                            = VStr category)
           /\ @GraphStats.plot_one_category stable_sort
                (@coerce_fill_col no_text_numbers "correct" 0%Q
                   (@fill_category no_text_numbers math_runs)) category
              = [SavePlot (BarChart name bars)].
Proof.
  apply (@batch_bar_charts_follow_the_list no_text_numbers stable_sort 0%nat 1%nat
           (mkState tt (<[0%nat := abc_stats]> (<[1%nat := math_runs]> ∅)) [])
           abc_stats math_runs);
    [reflexivity | reflexivity | discriminate].
Defined.

